(** * hichew: noise filtering and optimal-segmentation search

    A shallow embedding of [src/utils.py] (and of the caller
    [search_opt_window] of [src/api.py]).

    Conventions of the embedding.
    - Bin indices, genomic coordinates, resolutions and size bounds are
      Python / numpy integers: [Z].
    - numpy float64 results that come out of [np.log] are modelled by real
      numbers ([R], [ln]); the statistics of [calc_mean_tad_size] by
      rationals ([Q]), with [None] standing for [nan] where the source can
      produce it.
    - numpy float64 values whose rounding decides a branch (the noise
      frequency and the index it gives, the mean sizes compared with the
      target) are IEEE 754 binary64 numbers, computed with the operations of
      the standard library's [SpecFloat] at precision 53 and maximal
      exponent 1024.
    - a two-column numpy array is a list of pairs; a Python dict whose
      iteration order matters is an association list in insertion order.
    - Python exceptions are explicit: a function that can raise returns a
      value of [exn + A]. *)

From Stdlib Require Import ZArith QArith Qabs Reals List Bool Lia Lra Sorted.
From Stdlib Require Import Permutation SpecFloat.
From Stdlib Require Lqa.
Import ListNotations.

Local Open Scope Z_scope.

(** ** Python and numpy helpers *)

Inductive exn : Type :=
| IndexError
| ValueError
| TypeError
| OverflowError.

Definition result (A : Type) : Type := (exn + A)%type.

Definition ok {A : Type} (a : A) : result A := inr a.
Definition raise {A : Type} (e : exn) : result A := inl e.

Definition bind {A B : Type} (m : result A) (f : A -> result B) : result B :=
  match m with
  | inl e => inl e
  | inr a => f a
  end.

Notation "'do' x <- m ; f" := (bind m (fun x => f))
  (at level 10, x pattern, m at level 100, f at level 200).

(** [l[i]] for a Python list or a one-dimensional array, negative indices
    counting from the end. *)
Definition py_get {A : Type} (l : list A) (i : Z) : result A :=
  let n := Z.of_nat (length l) in
  let j := if i <? 0 then i + n else i in
  if (0 <=? j) && (j <? n)
  then match nth_error l (Z.to_nat j) with
       | Some a => ok a
       | None => raise IndexError
       end
  else raise IndexError.

(** ** float64 *)

Definition float64 : Type := spec_float.

(** The conversion of an integer, rounded to nearest even. *)
Definition f64_of_int (z : Z) : float64 := binary_normalize 53 1024 z 0 false.

Definition f64_add (x y : float64) : float64 := SFadd 53 1024 x y.
Definition f64_sub (x y : float64) : float64 := SFsub 53 1024 x y.
Definition f64_mul (x y : float64) : float64 := SFmul 53 1024 x y.
Definition f64_div (x y : float64) : float64 := SFdiv 53 1024 x y.
Definition f64_abs (x : float64) : float64 := SFabs x.

(** [x <= y] and [x < y]: false when one side is [nan]. *)
Definition f64_le (x y : float64) : bool := SFleb x y.
Definition f64_lt (x y : float64) : bool := SFltb x y.

Definition f64_zero : float64 := S754_zero false.

Definition f64_isnan (x : float64) : bool :=
  match x with
  | S754_nan => true
  | _ => false
  end.

(** [int(x)]: truncation towards zero; [OverflowError] on an infinity and
    [ValueError] on [nan]. *)
Definition py_int (x : float64) : result Z :=
  match x with
  | S754_zero _ => ok 0
  | S754_finite s m e =>
      let a := if 0 <=? e then Z.pos m * 2 ^ e else Z.pos m / 2 ^ (- e) in
      ok (if s then - a else a)
  | S754_infinity _ => raise OverflowError
  | S754_nan => raise ValueError
  end.

(** [l[:k]], negative [k] counting from the end. *)
Definition py_slice_to {A : Type} (l : list A) (k : Z) : list A :=
  let n := Z.of_nat (length l) in
  let j := if k <? 0 then Z.max 0 (k + n) else k in
  firstn (Z.to_nat j) l.

(** [np.argmin]: the first position holding the minimum.  [beats y best]
    says that [y] replaces the running minimum [best]. *)
Fixpoint argmin_from {A : Type} (beats : A -> A -> bool)
         (l : list A) (i best_i : nat) (best : A) : nat :=
  match l with
  | [] => best_i
  | y :: t =>
      if beats y best
      then argmin_from beats t (S i) i y
      else argmin_from beats t (S i) best_i best
  end.

Definition np_argmin {A : Type} (beats : A -> A -> bool) (l : list A) : result nat :=
  match l with
  | [] => raise ValueError
  | y :: t => ok (argmin_from beats t 1 0 y)
  end.

(** [np.where(a == v)[0]]: the positions of [v] in [a]. *)
Fixpoint np_where_from {A : Type} (p : A -> bool) (l : list A) (i : nat) : list nat :=
  match l with
  | [] => []
  | y :: t => if p y then i :: np_where_from p t (S i) else np_where_from p t (S i)
  end.

Definition np_where {A : Type} (p : A -> bool) (l : list A) : list nat :=
  np_where_from p l 0.

(** ** Data model *)

(** The [method] string.  [produce_tads_segmentation] knows ['armatus'] and
    ['modularity'], the boundary caller is ['insulation']; every other string
    is [OtherMethod]. *)
Inductive method : Type :=
| Armatus
| Modularity
| Insulation
| OtherMethod.

Definition is_insulation (m : method) : bool :=
  match m with
  | Insulation => true
  | _ => false
  end.

(** A TAD or a boundary [x = (x[0], x[1])]. *)
Definition segment : Type := (Z * Z)%type.

(** A row [(bgn_f, end_f)] of [filters[ch]]. *)
Definition stripe : Type := (Z * Z)%type.

(** ** NoiseFilter: [whether_tad_noisy] and [calc_noisy_metric] *)

Fixpoint whether_tad_noisy (x : segment) (filters : list stripe) (m : method)
         (resolution k : Z) : bool :=
  match filters with
  | [] => false
  | (bgn_f, end_f) :: rest =>
      let bgn_f_new := if is_insulation m then bgn_f - resolution * k else bgn_f in
      let end_f_new := if is_insulation m then end_f + resolution * k else end_f in
      if (fst x <=? end_f_new) && (fst x >=? bgn_f_new) then true
      else if (snd x <=? end_f_new) && (snd x >=? bgn_f_new) then true
      else if (snd x <=? end_f_new) && (fst x >=? bgn_f_new) then true
      else if (fst x <=? bgn_f_new) && (snd x >=? end_f_new)
              && negb (end_f_new - bgn_f_new =? 0) then true
      else whether_tad_noisy x rest m resolution k
  end.

(** The [try] block computing [left_stripe]; [inl _] is the [except] branch
    ([left_stripe = np.array([])]).  The position found by [np.argmin] in
    the masked column is used to index the unmasked column, as in the
    source. *)
Definition left_stripe (x : segment) (filters : list stripe) : result stripe :=
  let ends := map snd filters in
  let masked := filter (fun e => fst x - e >=? 0) ends in
  do i <- np_argmin Z.ltb (map (fun e => fst x - e) masked);
  do v <- py_get ends (Z.of_nat i);
  do j <- py_get (np_where (Z.eqb v) ends) 0;
  py_get filters (Z.of_nat j).

(** The [try] block computing [right_stripe]. *)
Definition right_stripe (x : segment) (filters : list stripe) : result stripe :=
  let starts := map fst filters in
  do v <- py_get (filter (fun s => s - snd x >=? 0) starts) 0;
  py_get (map (fun j => nth j filters (0, 0)) (np_where (Z.eqb v) starts)) 0.

(** [np.log] on a positive integer.  (On a non-positive argument numpy
    gives [-inf] or [nan]; [ln] is [0] there, and the statements below that
    depend on the value of a metric keep to positive arguments.) *)
Definition np_log (z : Z) : R := ln (IZR z).

(** Python's builtin [min(a, b)]: [b] when [b < a], else [a]. *)
Definition py_min (a b : R) : R := if Rlt_dec b a then b else a.

Definition sentinel : R := 10000000000%R.

Definition calc_noisy_metric (x : segment) (filters : list stripe) (m : method)
           (resolution k : Z) : R :=
  if whether_tad_noisy x filters m resolution k then (-1)%R
  else if negb (is_insulation m) then
    let left_side_metric :=
      match left_stripe x filters with
      | inr ls =>
          if is_insulation m
          then (np_log (fst x - snd ls) ^ 2)%R
          else (np_log (fst x - snd ls) ^ 2 * np_log (snd x - fst x))%R
      | inl _ => sentinel
      end in
    let right_side_metric :=
      match right_stripe x filters with
      | inr rs =>
          if is_insulation m
          then (np_log (fst rs - snd x) ^ 2)%R
          else (np_log (fst rs - snd x) ^ 2 * np_log (snd x - fst x))%R
      | inl _ => sentinel
      end in
    py_min left_side_metric right_side_metric
  else 1%R.

(** ** NoiseMaskBuilder: [get_noisy_stripes]

    The embedding starts after the percentile clipping, the logarithm and the
    shift by the global minimum; its input [mtx] is that transformed matrix,
    its entries written as rationals. *)

Definition matrix : Type := list (list Q).

(** [np.sum(mtx, axis=1)] for one row. *)
Definition row_sum (row : list Q) : Q := fold_left Qplus row 0%Q.

(** [v = np.where(np.sum(mtx, axis=1) == 0)[0]] *)
Definition zero_rows (mtx : matrix) : list Z :=
  map Z.of_nat (np_where (fun row => Qeq_bool (row_sum row) 0) mtx).

(** [v_tmp[-1].append(a)] *)
Fixpoint append_last (v_tmp : list (list Z)) (a : Z) : list (list Z) :=
  match v_tmp with
  | [] => []
  | [row] => [row ++ [a]]
  | row :: rest => row :: append_last rest a
  end.

(** One turn of [for i in range(1, len(v) - 1)], on the state
    [(v_tmp, v_prev)]. *)
Definition stripes_step (v : list Z) (st : list (list Z) * Z) (i : nat)
  : list (list Z) * Z :=
  let '(v_tmp, v_prev) := st in
  let vi := nth i v 0 in
  if vi - v_prev =? 1 then (v_tmp, vi)
  else (append_last (append_last v_tmp v_prev ++ [[]]) vi, vi).

(** [range(1, len(v) - 1)] *)
Definition stripes_range (v : list Z) : list nat :=
  seq 1 (length v - 1 - 1).

(** [np.array(v_tmp)] read as a two-column array. *)
Fixpoint as_pairs (v_tmp : list (list Z)) : result (list stripe) :=
  match v_tmp with
  | [] => ok []
  | [a; b] :: rest => do ps <- as_pairs rest; ok ((a, b) :: ps)
  | _ :: _ => raise IndexError
  end.

(** The grouping of [v] into [filt]. *)
Definition group_stripes (v : list Z) : result (list stripe) :=
  do v0 <- py_get v 0;
  let '(v_tmp, v_prev) := fold_left (stripes_step v) (stripes_range v) ([[v0]], v0) in
  do rows <- as_pairs (append_last v_tmp v_prev);
  ok (filter (fun r => snd r - fst r >=? 0) rows).

(** [int(a / resolution)] on integers. *)
Definition int_div (a resolution : Z) : result Z :=
  if resolution =? 0 then raise ValueError else ok (Z.quot a resolution).

(** [good_bins[a:b] = False] *)
Definition slice_bound (n i : Z) : Z :=
  if i <? 0 then Z.max 0 (i + n) else Z.min i n.

Fixpoint set_false_from (good_bins : list bool) (i a b : Z) : list bool :=
  match good_bins with
  | [] => []
  | g :: rest =>
      (if (a <=? i) && (i <? b) then false else g) :: set_false_from rest (i + 1) a b
  end.

Definition set_false (good_bins : list bool) (a b : Z) : list bool :=
  let n := Z.of_nat (length good_bins) in
  set_false_from good_bins 0 (slice_bound n a) (slice_bound n b).

Definition mask_stripe (m : method) (resolution : Z) (acc : result (list bool))
           (s : stripe) : result (list bool) :=
  do good_bins <- acc;
  if is_insulation m then
    do a <- int_div (fst s) resolution;
    do b <- int_div (snd s) resolution;
    ok (set_false good_bins a b)
  else ok (set_false good_bins (fst s) (snd s + 1)).

(** Returns [(filters[ch], mtx, good_bins)]. *)
Definition get_noisy_stripes (mtx : matrix) (m : method) (resolution : Z)
  : result (list stripe * matrix * list bool) :=
  do filt <- group_stripes (zero_rows mtx);
  let filters :=
    if is_insulation m
    then map (fun e => (fst e * resolution, snd e * resolution + resolution)) filt
    else filt in
  do good_bins <- fold_left (mask_stripe m resolution) filters
                            (ok (repeat true (length mtx)));
  ok (filters, mtx, good_bins).

(** ** SegmentationGenerator: [produce_tads_segmentation] *)

(** [sorted(metric_values)] *)
Fixpoint R_insert (a : R) (l : list R) : list R :=
  match l with
  | [] => [a]
  | b :: t => if Rlt_dec a b then a :: b :: t else b :: R_insert a t
  end.

Definition sorted (l : list R) : list R := fold_right R_insert [] l.

Definition Rgtb (a b : R) : bool := if Rgt_dec a b then true else false.

(** [segments[mask]] for a boolean array [mask]. *)
Definition np_select {A : Type} (rows : list A) (mask : list bool) : list A :=
  map fst (filter snd (combine rows mask)).

(** [np.sum(filters[ch][:, 1] - filters[ch][:, 0] + 1)] *)
Definition noisy_bins (filters : list stripe) : Z :=
  fold_left Z.add (map (fun f => snd f - fst f + 1) filters) 0.

(** [noise_freq = np.sum(...) / mtx.shape[0]]: the float64 quotient of two
    integers ([inf] or [nan] when [n = 0]). *)
Definition noise_freq (bins n : Z) : float64 :=
  f64_div (f64_of_int bins) (f64_of_int n).

(** [int(len(hist_arr) * noise_freq)]: the float64 product, truncated. *)
Definition noise_index (len bins n : Z) : result Z :=
  py_int (f64_mul (f64_of_int len) (noise_freq bins n)).

(** The body of the [try] block up to [thresh]:
    [(hist_arr[:k][-1] + hist_arr[k]) / 2] for
    [k = int(len(hist_arr) * noise_freq)]. *)
Definition noise_threshold (hist_arr : list R) (bins n : Z) : result R :=
  do k <- noise_index (Z.of_nat (length hist_arr)) bins n;
  do a <- py_get (py_slice_to hist_arr k) (-1);
  do b <- py_get hist_arr k;
  ok ((a + b) / 2)%R.

(** [mtx.astype(bool).sum(axis=0) > 0], the default [good_bins]. *)
Definition column_nonzero (mtx : matrix) (j : nat) : bool :=
  existsb (fun row => negb (Qeq_bool (nth j row 0%Q) 0)) mtx.

Definition default_good_bins (mtx : matrix) : list bool :=
  map (column_nonzero mtx) (seq 0 (length mtx)).

Section Generator.

(** The type of the parameter [gamma]. *)
Context {G : Type}.

(** [lavaburst]: [SegModel(score(mtx, gamma=gamma, binmask=good_bins))
    .optimal_segmentation()], for the score of the method. *)
Variable optimal_segmentation : method -> matrix -> G -> list bool -> list segment.

(** The candidates left by the size mask
    [(v > max_intertad_size) & np.isfinite(v) & (v < max_tad_size)];
    [v] is an integer array, so [np.isfinite] holds. *)
Definition size_filter (max_intertad_size max_tad_size : Z)
           (segments : list segment) : list segment :=
  filter (fun s => let v := snd s - fst s in
                   (v >? max_intertad_size) && true && (v <? max_tad_size))
         segments.

(** [None] is the bare [return] for a method that is neither ['armatus']
    nor ['modularity']. *)
Definition produce_tads_segmentation (mtx : matrix) (filters : list stripe)
           (gamma : G) (good_bins : option (list bool)) (m : method)
           (max_intertad_size max_tad_size : Z) : option (list segment) :=
  match m with
  | Insulation | OtherMethod => None
  | Armatus | Modularity =>
      let good_bins :=
        match good_bins with
        | None => default_good_bins mtx
        | Some gb => gb
        end in
      let segments := optimal_segmentation m mtx gamma good_bins in
      let segments := size_filter max_intertad_size max_tad_size segments in
      let metric_values :=
        map (fun x => calc_noisy_metric x filters m 0 0) segments in
      let hist_arr := filter (fun h => Rgtb h 0) (sorted metric_values) in
      match noise_threshold hist_arr (noisy_bins filters)
                            (Z.of_nat (length mtx)) with
      | inr thresh =>
          Some (np_select segments (map (fun h => Rgtb h thresh) metric_values))
      | inl _ => Some segments
      end
  end.

End Generator.

(** ** The insulation variant: [produce_boundaries_segmentation] *)

(** A row of the boundaries data frame for one window: [start], [end],
    [log2_insulation_score_w] and [boundary_strength_w] ([None]: null). *)
Record boundary : Type := {
  b_start : Z;
  b_end : Z;
  b_insulation : option Q;
  b_strength : option Q
}.

Definition notnull (q : option Q) : bool :=
  match q with
  | Some _ => true
  | None => false
  end.

Section Boundaries.

(** The type of the parameter [window]. *)
Context {W : Type}.

(** [cooltools]: [find_boundaries(calculate_insulation_score(clr, window))]. *)
Variable find_boundaries : W -> Z -> list boundary.

(** Returns [(boundaries_coords[metric_values > thresh],
    boundaries[metric_values > thresh])] with [thresh = 0]. *)
Definition produce_boundaries_segmentation (filters : list stripe) (window : W)
           (m : method) (resolution k : Z) : list segment * list boundary :=
  let boundaries := find_boundaries window k in
  let boundaries := filter (fun b => notnull (b_strength b)) boundaries in
  let boundaries_coords := map (fun b => (b_start b, b_end b)) boundaries in
  let metric_values :=
    map (fun x => calc_noisy_metric x filters m resolution k) boundaries_coords in
  let thresh := 0%R in
  let mask := map (fun h => Rgtb h thresh) metric_values in
  (np_select boundaries_coords mask, np_select boundaries mask).

End Boundaries.

(** ** [calc_mean_tad_size] *)

(** [np.mean] of a list of floats; [None] is [nan] (an empty list, or a
    [nan] among the values). *)
Fixpoint sum_opt (l : list (option Q)) : option Q :=
  match l with
  | [] => Some 0%Q
  | None :: _ => None
  | Some q :: t =>
      match sum_opt t with
      | Some s => Some (q + s)%Q
      | None => None
      end
  end.

Definition np_mean (l : list (option Q)) : option Q :=
  match l, sum_opt l with
  | _ :: _, Some s => Some (s / inject_Z (Z.of_nat (length l)))%Q
  | _, _ => None
  end.

(** [if np.isnan(x): x = 0] *)
Definition nan_to_zero (x : option Q) : Q :=
  match x with
  | Some q => q
  | None => 0%Q
  end.

(** A row of [select_tads]. *)
Record tad : Type := {
  left_start : Z;
  left_end : Z;
  right_start : Z;
  right_end : Z;
  left_insulation : option Q;
  right_insulation : option Q;
  left_boundary_strength : option Q;
  right_boundary_strength : option Q;
  tad_length : option Q
}.

(** [(right_start - left_end) / resolution]; [None] is the quotient by a
    zero resolution ([inf], [-inf] or [nan]), which fails one of the two
    comparisons of the size mask whatever its sign. *)
Definition np_div (a resolution : Z) : option Q :=
  if resolution =? 0 then None
  else Some (inject_Z a / inject_Z resolution)%Q.

Definition make_tad (resolution : Z) (l r : boundary) : tad :=
  {| left_start := b_start l;
     left_end := b_end l;
     right_start := b_start r;
     right_end := b_end r;
     left_insulation := b_insulation l;
     right_insulation := b_insulation r;
     left_boundary_strength := b_strength l;
     right_boundary_strength := b_strength r;
     tad_length := np_div (b_start r - b_end l) resolution |}.

(** The rows built from [boundaries.iloc[:-1]] and [boundaries.iloc[1:]]. *)
Definition all_tads (boundaries : list boundary) (resolution : Z) : list tad :=
  map (fun lr => make_tad resolution (fst lr) (snd lr))
      (combine (removelast boundaries) (tl boundaries)).

(** [(length > mis) & (length < mts)] *)
Definition in_size_bounds (mis mts : Z) (t : tad) : bool :=
  match tad_length t with
  | Some len => negb (Qle_bool len (inject_Z mis)) && negb (Qle_bool (inject_Z mts) len)
  | None => false
  end.

(** The [is_normal] column: no stripe with [bgn >= left_end] and
    [end <= right_start]. *)
Definition is_normal (filters : list stripe) (t : tad) : bool :=
  Nat.eqb
    (length (filter (fun f => (fst f >=? left_end t) && (snd f <=? right_start t))
                    filters))
    0.

(** [select_tads] after the size mask and the [is_normal] mask: the TADs
    that enter the statistics. *)
Definition select_tads (boundaries : list boundary) (filters : list stripe)
           (mis mts resolution : Z) : list tad :=
  filter (is_normal filters)
         (filter (in_size_bounds mis mts) (all_tads boundaries resolution)).

(** [list(col_left) + [list(col_right)[-1]]], inside [try]; the [except]
    branch is [inl _]. *)
Definition pooled (rows : list tad) (left right : tad -> option Q)
  : result (list (option Q)) :=
  do last <- py_get (map right rows) (-1);
  ok (map left rows ++ [last]).

(** A component of the returned tuple: a number or a list of numbers. *)
Inductive pyval : Type :=
| PNum (q : Q)
| PCount (n : nat)
| PList (l : list (option Q)).

Definition calc_mean_tad_size (boundaries : list boundary) (filters : list stripe)
           (mis mts resolution : Z) : list pyval :=
  let rows := all_tads boundaries resolution in
  let full_ins :=
    match pooled rows left_insulation right_insulation with
    | inr l => l
    | inl _ => []
    end in
  let full_bsc :=
    match pooled rows left_boundary_strength right_boundary_strength with
    | inr l => l
    | inl _ => []
    end in
  let rows := select_tads boundaries filters mis mts resolution in
  let mean_tad := np_mean (map tad_length rows) in
  let mean_ins :=
    match pooled rows left_insulation right_insulation with
    | inr l => np_mean l
    | inl _ => None
    end in
  let mean_bsc :=
    match pooled rows left_boundary_strength right_boundary_strength with
    | inr l => np_mean l
    | inl _ => None
    end in
  let sum_cov := sum_opt (map tad_length rows) in
  [ PNum (nan_to_zero mean_tad); PNum (nan_to_zero sum_cov);
    PNum (nan_to_zero mean_ins); PNum (nan_to_zero mean_bsc);
    PList full_ins; PList full_bsc ].

(** ** The caller [search_opt_window] (api.py) *)

(** [a, b, c = t] *)
Definition unpack3 (t : list pyval) : result (pyval * pyval * pyval) :=
  match t with
  | [a; b; c] => ok (a, b, c)
  | _ => raise ValueError
  end.

(** [d[key] = value] on a dict kept in insertion order: an existing key keeps
    its place. *)
Fixpoint dict_set {K V : Type} (eqb : K -> K -> bool) (key : K) (value : V)
         (d : list (K * V)) : list (K * V) :=
  match d with
  | [] => [(key, value)]
  | (k, v) :: rest =>
      if eqb k key then (k, value) :: rest
      else (k, v) :: dict_set eqb key value rest
  end.

Section OptWindow.

Context {W : Type}.
Variable W_eqb : W -> W -> bool.
Variable find_boundaries : W -> Z -> list boundary.

(** The value stored in [stats[ch][window]]:
    [(mean_tad_size, cov, bound_count, mean_ins)]. *)
Definition stats_entry : Type := (pyval * pyval * pyval * pyval)%type.

(** Lines 163-166 and 195-197: one segmentation and its statistics. *)
Definition window_stats (filters : list stripe) (window : W) (m : method)
           (resolution mis mts : Z) : result stats_entry :=
  let '(boundaries_coords, boundaries) :=
    produce_boundaries_segmentation find_boundaries filters window m resolution 3 in
  do (mean_tad_size, sum_cov, mean_ins) <-
     unpack3 (calc_mean_tad_size boundaries filters mis mts resolution);
  ok (mean_tad_size, sum_cov, PCount (length boundaries_coords), mean_ins).

(** The body of [for ch in chrms] as far as [stats[ch]] goes: the entry of
    [grid[0]], then one entry per later window.  (The data-frame rows, the
    crossing flags with their early [break] and the choice of the optimum
    come after the statistics of their window and do not write [stats].) *)
Definition search_opt_window_chrom (mtx : matrix) (grid : list W) (m : method)
           (resolution mis mts : Z) (stats : list (W * stats_entry))
  : result (list (W * stats_entry)) :=
  do (filters, _, _) <- get_noisy_stripes mtx m resolution;
  do w0 <- py_get grid 0;
  do e0 <- window_stats filters w0 m resolution mis mts;
  fold_left
    (fun acc window =>
       do stats <- acc;
       do e <- window_stats filters window m resolution mis mts;
       ok (dict_set W_eqb window e stats))
    (tl grid) (ok (dict_set W_eqb w0 e0 stats)).

End OptWindow.

(** ** BoundaryNarrower: [adjust_boundaries]

    Grid values are integers.  With [start_step = 1] they are the values of
    the grid and [round] is Python's rounding of a half to the even
    neighbour; with a decimal [start_step] they count units of the last
    digit kept by [round(x, ndigits)], and the side a half goes to is the one
    float rounding gives.  [round_up s] tells, for an odd sum [s] of two
    bounds, whether [s / 2] is rounded up. *)

Inductive side : Type :=
| Upper
| Lower.

Definition is_upper (ty : side) : bool :=
  match ty with
  | Upper => true
  | Lower => false
  end.

(** Python's [round] at a half: to the even neighbour. *)
Definition round_half_even (s : Z) : bool := Z.odd (s / 2).

(** [np.arange(a, b, step)] on integers. *)
Definition np_arange (a b step : Z) : result (list Z) :=
  if step =? 0 then raise ValueError
  else
    let n := Z.max 0 (- ((- (b - a)) / step)) in
    ok (map (fun i => a + Z.of_nat i * step) (seq 0 (Z.to_nat n))).

Record narrow_state : Type := {
  bound_1 : Z;
  bound_1_prev : Z;
  bound_2 : Z;
  len_segments_prev : nat;
  is_begin : bool;
  delta : Z
}.

Section Narrower.

Variable optimal_segmentation : method -> matrix -> Z -> list bool -> list segment.
Variable mtx : matrix.
Variable filters : list stripe.
Variable good_bins : option (list bool).
Variable m : method.
Variables mis mts : Z.
Variable round_up : Z -> bool.
Variable grid : list Z.

(** [round((a + b) / 2)] *)
Definition round_mid (a b : Z) : Z :=
  let s := a + b in
  if Z.even s then s / 2
  else if round_up s then s / 2 + 1 else s / 2.

(** [len(list(produce_tads_segmentation(...)))] *)
Definition len_segments_at (gamma : Z) : result nat :=
  match produce_tads_segmentation optimal_segmentation mtx filters gamma
                                  good_bins m mis mts with
  | Some segments => ok (length segments)
  | None => raise TypeError
  end.

(** [int(np.argwhere(grid == b))]: defined when [b] occurs once. *)
Definition grid_index (b : Z) : result Z :=
  match np_where (Z.eqb b) grid with
  | [i] => ok (Z.of_nat i)
  | _ => raise TypeError
  end.

Definition narrow_init (ty : side) : result narrow_state :=
  do last <- py_get grid (-1);
  do first <- py_get grid 0;
  ok {| bound_1 := if is_upper ty then last else first;
        bound_1_prev := if is_upper ty then last else first;
        bound_2 := if is_upper ty then first else last;
        len_segments_prev := 0;
        is_begin := true;
        delta := Z.of_nat (length grid) |}.

(** The body of [while delta > 1]. *)
Definition adjust_step (st : narrow_state) : result narrow_state :=
  do len_segments <- len_segments_at (bound_1 st);
  let prev := if is_begin st then len_segments else len_segments_prev st in
  let st' :=
    if negb (Nat.eqb len_segments prev) then
      {| bound_1 := round_mid (bound_1 st) (bound_1_prev st);
         bound_1_prev := bound_1_prev st;
         bound_2 := bound_1 st;
         len_segments_prev := prev;
         is_begin := false;
         delta := delta st |}
    else
      {| bound_1 := round_mid (bound_1 st) (bound_2 st);
         bound_1_prev := bound_1 st;
         bound_2 := bound_2 st;
         len_segments_prev := len_segments;
         is_begin := false;
         delta := delta st |} in
  do i1 <- grid_index (bound_1 st');
  do i2 <- grid_index (bound_2 st');
  ok {| bound_1 := bound_1 st';
        bound_1_prev := bound_1_prev st';
        bound_2 := bound_2 st';
        len_segments_prev := len_segments_prev st';
        is_begin := false;
        delta := Z.abs (i1 - i2) |}.

(** The loop, with [fuel] turns at most; [None]: still running. *)
Fixpoint adjust_loop (fuel : nat) (st : narrow_state)
  : option (result narrow_state) :=
  if delta st >? 1 then
    match fuel with
    | O => None
    | S fuel' =>
        match adjust_step st with
        | inl e => Some (inl e)
        | inr st' => adjust_loop fuel' st'
        end
    end
  else Some (ok st).

(** After the loop: the narrowed grid, or [None] (the bare [return]) when
    the lower grid has collapsed. *)
Definition narrowed_grid (ty : side) (start_step : Z) (eps : Q)
           (st : narrow_state) : result (option (list Z)) :=
  let bound_gamma_fixed := bound_1 st in
  do i <- py_get (np_where (Z.eqb bound_gamma_fixed) grid) 0;
  do g_i <- py_get grid (Z.of_nat i);
  do first <- py_get grid 0;
  do last <- py_get grid (-1);
  do adj_grid <-
     (if is_upper ty
      then np_arange first (g_i + start_step) start_step
      else np_arange g_i (last + start_step) start_step);
  do a_last <- py_get adj_grid (-1);
  do a_first <- py_get adj_grid 0;
  if Qle_bool (inject_Z (a_last - a_first - start_step)) eps
     && negb (is_upper ty)
  then ok None
  else ok (Some adj_grid).

Definition adjust_boundaries (fuel : nat) (ty : side) (start_step : Z) (eps : Q)
  : option (result (option (list Z))) :=
  match narrow_init ty with
  | inl e => Some (inl e)
  | inr st0 =>
      match adjust_loop fuel st0 with
      | None => None
      | Some (inl e) => Some (inl e)
      | Some (inr st) => Some (narrowed_grid ty start_step eps st)
      end
  end.

End Narrower.

(** ** GlobalOptimumFinder: [find_global_optima] *)

(** [segments[:, 1] - segments[:, 0]] *)
Definition seg_lengths (segments : list segment) : list Z :=
  map (fun s => snd s - fst s) segments.

(** [np.sum] of an integer array. *)
Definition np_sum (l : list Z) : Z := fold_left Z.add l 0.

(** [np.mean(segments[:, 1] - segments[:, 0])]: the float64 quotient of the
    sum of the lengths by their number (the sum of integer lengths is exact
    in float64 below [2^53]); [nan], as [0 / 0], for an empty segmentation. *)
Definition mean_tad_size_of (segments : list segment) : float64 :=
  f64_div (f64_of_int (np_sum (seg_lengths segments)))
          (f64_of_int (Z.of_nat (length segments))).

(** [x - expected / resolution], for [target] the float64
    [expected / resolution]. *)
Definition offset (target x : float64) : float64 := f64_sub x target.

(** [(mean_tad_size - t) * (mean_tad_size_prev - t) <= 0]; false on [nan]. *)
Definition crossing (target x x_prev : float64) : bool :=
  f64_le (f64_mul (offset target x) (offset target x_prev)) f64_zero.

(** [abs(mean_tad_size - t) <= abs(mean_tad_size_prev - t)]; false on [nan]. *)
Definition closer (target x x_prev : float64) : bool :=
  f64_le (f64_abs (offset target x)) (f64_abs (offset target x_prev)).

(** [abs(x - t)] *)
Definition distance (target x : float64) : float64 := f64_abs (offset target x).

(** The comparison of [np.argmin] on floats: a [nan] replaces any number and
    ends the search. *)
Definition float_beats (y best : float64) : bool :=
  if f64_isnan best then false
  else if f64_isnan y then true
  else f64_lt y best.

(** [max(d.items(), key=operator.itemgetter(1))]: the first item holding the
    largest value. *)
Fixpoint max_item_from {K : Type} (l : list (K * Z)) (best : K * Z) : K * Z :=
  match l with
  | [] => best
  | p :: t => if snd p >? snd best then max_item_from t p else max_item_from t best
  end.

Definition py_max_item {K : Type} (d : list (K * Z)) : result (K * Z) :=
  match d with
  | [] => raise ValueError
  | p :: t => ok (max_item_from t p)
  end.

(** The variables of the scan. *)
Record scan_state (G : Type) : Type := {
  mean_tad_size_prev : float64;
  gamma_prev : G;
  cov_prev : Z;
  local_optimas : list (G * Z);
  mean_tad_sizes : list float64;
  covs : list Z;
  df : list (segment * G)
}.

Arguments mean_tad_size_prev {G} _.
Arguments gamma_prev {G} _.
Arguments cov_prev {G} _.
Arguments local_optimas {G} _.
Arguments mean_tad_sizes {G} _.
Arguments covs {G} _.
Arguments df {G} _.

Section Optimum.

Context {G : Type}.
Variable G_eqb : G -> G -> bool.
Variable optimal_segmentation : method -> matrix -> G -> list bool -> list segment.
Variable mtx : matrix.
Variable filters : list stripe.
Variable good_bins : option (list bool).
Variable m : method.
Variables mis mts : Z.

(** The float64 [expected / resolution]. *)
Variable target : float64.

(** A call of [produce_tads_segmentation] whose result is sliced. *)
Definition segments_at (gamma : G) : result (list segment) :=
  match produce_tads_segmentation optimal_segmentation mtx filters gamma
                                  good_bins m mis mts with
  | Some segments => ok segments
  | None => raise TypeError
  end.

(** The state before the loop. *)
Definition scan_init (df0 : list (segment * G)) (gamma_0 : G)
  : result (scan_state G) :=
  do segments_0 <- segments_at gamma_0;
  let mean0 := mean_tad_size_of segments_0 in
  let cov0 := np_sum (seg_lengths segments_0) in
  ok {| mean_tad_size_prev := mean0;
        gamma_prev := gamma_0;
        cov_prev := cov0;
        local_optimas := [];
        mean_tad_sizes := [mean0];
        covs := [cov0];
        df := df0 ++ map (fun s => (s, gamma_0)) segments_0 |}.

(** The body of [for gamma in new_grid[1:]]. *)
Definition scan_step (acc : result (scan_state G)) (gamma : G)
  : result (scan_state G) :=
  do st <- acc;
  do segments <- segments_at gamma;
  let mean_tad_size := mean_tad_size_of segments in
  let cov := np_sum (seg_lengths segments) in
  let optimas :=
    if crossing target mean_tad_size (mean_tad_size_prev st) then
      if closer target mean_tad_size (mean_tad_size_prev st)
      then dict_set G_eqb gamma cov (local_optimas st)
      else dict_set G_eqb (gamma_prev st) (cov_prev st) (local_optimas st)
    else local_optimas st in
  ok {| mean_tad_size_prev := mean_tad_size;
        gamma_prev := gamma;
        cov_prev := cov;
        local_optimas := optimas;
        mean_tad_sizes := mean_tad_sizes st ++ [mean_tad_size];
        covs := covs st ++ [cov];
        df := df st ++ map (fun s => (s, gamma)) segments |}.

(** The scan and the registration of the grid point closest to the
    target: the final [local_optimas] (with the data frame).  [new_grid] is
    the array [np.arange(adj_grid[0], adj_grid[-1] + start_step, start_step)]. *)
Definition find_local_optimas (new_grid : list G) (df0 : list (segment * G))
  : result (list (segment * G) * list (G * Z)) :=
  do gamma_0 <- py_get new_grid 0;
  do st <- fold_left scan_step (tl new_grid) (scan_init df0 gamma_0);
  do i <- np_argmin float_beats (map (distance target) (mean_tad_sizes st));
  do g <- py_get new_grid (Z.of_nat i);
  do c <- py_get (covs st) (Z.of_nat i);
  ok (df st, dict_set G_eqb g c (local_optimas st)).

(** Returns [(df, opt_gamma)]. *)
Definition find_global_optima (new_grid : list G) (df0 : list (segment * G))
  : result (list (segment * G) * G) :=
  do (df1, optimas) <- find_local_optimas new_grid df0;
  do best <- py_max_item optimas;
  ok (df1, fst best).

End Optimum.

(** ** The expansion check: [whether_to_expand]

    The grid and [start_step] are integers here, as for [adjust_boundaries]:
    a decimal [start_step], for which the check values are rounded to its
    number of decimals, is outside this embedding. *)

(** The function returns nothing; what it tells is the error it logs before
    it returns, if any. *)
Inductive expand_log : Type :=
| UpperBoundNegative
| LowerBoundNegative
| UpperExpandable
| LowerExpandable.

(** [np.array([round(x, len(str(start_step).split('.')[1])) for x in check])]
    for an integer [start_step] only: the string of an integer holds no
    ['.'], and the index [1] fails at the first element. *)
Definition round_to_step (check : list Z) : result (list Z) :=
  match check with
  | [] => ok []
  | _ :: _ => raise IndexError
  end.

(** [np.argmax] of a boolean array: the first [True], [0] without one. *)
Definition np_argmax_bool (l : list bool) : result nat :=
  match l with
  | [] => raise ValueError
  | _ :: _ =>
      ok (match np_where (fun b : bool => b) l with
          | i :: _ => i
          | [] => 0%nat
          end)
  end.

(** [len(set(l))] *)
Definition distinct (l : list nat) : nat := length (nodup Nat.eq_dec l).

(** The two tests that end the function. *)
Definition report (len_upper_segments len_lower_segments : list nat)
  : option expand_log :=
  if Nat.ltb 1 (distinct len_upper_segments) then Some UpperExpandable
  else if Nat.ltb 1 (distinct len_lower_segments) then Some LowerExpandable
  else None.

Section Expansion.

Variable optimal_segmentation : method -> matrix -> Z -> list bool -> list segment.
Variable mtx : matrix.
Variable filters : list stripe.
Variable good_bins : option (list bool).
Variable m : method.
Variables mis mts : Z.
Variable grid : list Z.

(** [for g in check: counts.append(len(list(produce_tads_segmentation(...))))] *)
Fixpoint append_counts (check : list Z) (counts : list nat) : result (list nat) :=
  match check with
  | [] => ok counts
  | g :: rest =>
      do n <- len_segments_at optimal_segmentation mtx filters good_bins m mis mts g;
      append_counts rest (counts ++ [n])
  end.

Definition whether_to_expand (start_step : Z) : result (option expand_log) :=
  do last <- py_get grid (-1);
  do upper_check <-
     np_arange (last + start_step) (last + start_step * 11) start_step;
  do first <- py_get grid 0;
  do lower_check <- np_arange (first - start_step * 10) first start_step;
  do upper_check <-
     (if start_step =? 1 then ok upper_check else round_to_step upper_check);
  do lower_check <-
     (if start_step =? 1 then ok lower_check else round_to_step lower_check);
  if existsb (fun x => x <? 0) upper_check then ok (Some UpperBoundNegative)
  else
    do len_upper_segments <- append_counts upper_check [];
    if negb (existsb (fun x => x <? 0) lower_check) then
      (* the counts below the grid join those above it *)
      do len_upper_segments <- append_counts lower_check len_upper_segments;
      ok (report len_upper_segments [])
    else
      do first_nonnegative_gamma <-
         np_argmax_bool (map (fun x => 0 <=? x) lower_check);
      do negative <-
         (if Nat.eqb first_nonnegative_gamma 0
          then do x <- py_get lower_check (Z.of_nat first_nonnegative_gamma);
               ok ((x <? 0) && negb (first =? 0))
          else ok false);
      if negative then ok (Some LowerBoundNegative)
      else if first =? 0 then ok (report len_upper_segments [])
      else
        do len_lower_segments <-
           append_counts (skipn first_nonnegative_gamma lower_check) [];
        ok (report len_upper_segments len_lower_segments).

End Expansion.

(** * Specification-level notions *)

(** ** NoiseFilter *)

(** A BadInterval expanded outward by [k * resolution], for the insulation
    method only. *)
Definition expanded (m : method) (resolution k : Z) (s : stripe) : stripe :=
  if is_insulation m
  then (fst s - resolution * k, snd s + resolution * k)
  else s.

(** The point [p] falls within the interval [s]. *)
Definition within (s : stripe) (p : Z) : Prop := fst s <= p <= snd s.

(** The interval [s] is wholly contained in the segment [x], and its width
    is not zero. *)
Definition contained_nondegenerate (s : stripe) (x : segment) : Prop :=
  fst x <= fst s /\ snd s <= snd x /\ snd s - fst s <> 0.

(** The hard-reject rule of the specification. *)
Definition fully_noisy (x : segment) (filters : list stripe) (m : method)
           (resolution k : Z) : Prop :=
  exists s, In s filters /\
    let s' := expanded m resolution k s in
    within s' (fst x) \/ within s' (snd x) \/ contained_nondegenerate s' x.

(** [o] is the end of the nearest BadInterval ending at or before the start
    of [x]; [None] when no BadInterval ends there. *)
Definition nearest_left (filters : list stripe) (x : segment) (o : option Z) : Prop :=
  match o with
  | Some e =>
      In e (map snd filters) /\ e <= fst x
      /\ forall e', In e' (map snd filters) -> e' <= fst x -> e' <= e
  | None => forall e', In e' (map snd filters) -> fst x < e'
  end.

(** [o] is the start of the nearest BadInterval starting at or after the end
    of [x]. *)
Definition nearest_right (filters : list stripe) (x : segment) (o : option Z) : Prop :=
  match o with
  | Some s =>
      In s (map fst filters) /\ snd x <= s
      /\ forall s', In s' (map fst filters) -> snd x <= s' -> s <= s'
  | None => forall s', In s' (map fst filters) -> s' < snd x
  end.

(** [log(gap_distance)^2 * log(segment_length)], or the sentinel for a
    missing side. *)
Definition side_metric (gap : option Z) (len : Z) : R :=
  match gap with
  | Some g => (ln (IZR g) ^ 2 * ln (IZR len))%R
  | None => 10000000000%R
  end.

(** BadIntervals in coordinate order. *)
Definition stripes_ordered (filters : list stripe) : Prop :=
  StronglySorted Z.le (map fst filters) /\ StronglySorted Z.le (map snd filters).

(** ** SegmentationGenerator *)

(** The reading of the specification: after the size filter, exactly the
    candidates whose metric exceeds the constant threshold [0] are kept. *)
Definition keeps_metric_above_zero {G : Type}
           (optimal_segmentation : method -> matrix -> G -> list bool -> list segment)
           (mtx : matrix) (filters : list stripe) (gamma : G)
           (good_bins : list bool) (m : method) (mis mts : Z) : Prop :=
  produce_tads_segmentation optimal_segmentation mtx filters gamma (Some good_bins)
                            m mis mts
  = Some (filter (fun x => Rgtb (calc_noisy_metric x filters m 0 0) 0)
                 (size_filter mis mts (optimal_segmentation m mtx gamma good_bins))).

(** The sorted positive metrics of the candidates, [hist_arr]. *)
Definition positive_metrics (filters : list stripe) (m : method)
           (candidates : list segment) : list R :=
  filter (fun h => Rgtb h 0)
         (sorted (map (fun x => calc_noisy_metric x filters m 0 0) candidates)).

Definition density_score (m : method) : Prop := m = Armatus \/ m = Modularity.

(** The position of [hist_arr] that the index [k] denotes when the
    threshold can be computed: [k] itself, or [len + k] for a negative [k],
    provided it lies from [1] to [len - 1]. *)
Definition threshold_position (len : Z) (index : result Z) : option Z :=
  match index with
  | inl _ => None
  | inr k =>
      let pos := if k <? 0 then k + len else k in
      if (1 <=? pos) && (pos <? len) then Some pos else None
  end.

(** A positive metric that does not exceed the threshold. *)
Definition filtered_out (thresh h : R) : bool :=
  Rgtb h 0 && negb (Rgtb h thresh).

(** A segment length strictly between the two size bounds. *)
Definition strictly_within (mis mts : Z) (s : segment) : Prop :=
  mis < snd s - fst s < mts.

(** A transformed [n]-bin matrix whose bins [lo..hi] have no contact: entry
    [(i, j)] is [0] on the diagonal and in the rows and columns [lo..hi], and
    positive elsewhere. *)
Definition gap_mtx (n : nat) (lo hi : Z) : matrix :=
  let bad := fun k : nat => (lo <=? Z.of_nat k) && (Z.of_nat k <=? hi) in
  map (fun i => map (fun j => if bad i || bad j || Nat.eqb i j then 0%Q else 1%Q)
                    (seq 0 n))
      (seq 0 n).

(** A 40-bin example: the bad bins 10..30, for which [get_noisy_stripes]
    gives one stripe over bins 10..29, and two candidates, each two bins away
    from the stripe. *)
Definition example_mtx : matrix := gap_mtx 40 10 30.
Definition example_filters : list stripe := [(10, 29)].
Definition example_oracle (_ : method) (_ : matrix) (_ : Z) (_ : list bool)
  : list segment := [(2, 8); (31, 37)].
Definition example_good_bins : list bool :=
  repeat true 10 ++ repeat false 20 ++ repeat true 10.

(** A 100-bin example: the bad bins 5..7, for which [get_noisy_stripes]
    gives one stripe over bins 5..6, inside the only candidate. *)
Definition noisy_mtx : matrix := gap_mtx 100 5 7.
Definition noisy_filters : list stripe := [(5, 6)].
Definition noisy_good_bins : list bool :=
  repeat true 5 ++ repeat false 2 ++ repeat true 93.
Definition noisy_oracle (_ : method) (_ : matrix) (_ : Z) (_ : list bool)
  : list segment := [(2, 9)].

(** ** NoiseMaskBuilder *)

(** A transformed 5-bin matrix whose rows 1 and 2 sum to zero (it comes from
    the contact matrix with entries 1, 2 and 3 between bins 0, 3 and 4: the
    entry 1 is clipped to the lower percentile and becomes 0). *)
Definition two_bad_bins_mtx : matrix :=
  [ [0; 0; 0; 0; 7 # 10];
    [0; 0; 0; 0; 0];
    [0; 0; 0; 0; 0];
    [0; 0; 0; 0; 11 # 10];
    [7 # 10; 0; 0; 11 # 10; 0] ]%Q.

(** A transformed 14-bin matrix with two runs of bad bins, 2..4 and 8..10. *)
Definition two_gaps_mtx : matrix :=
  let bad := fun k : nat =>
    ((2 <=? Z.of_nat k) && (Z.of_nat k <=? 4))
    || ((8 <=? Z.of_nat k) && (Z.of_nat k <=? 10)) in
  map (fun i => map (fun j => if bad i || bad j || Nat.eqb i j then 0%Q else 1%Q)
                    (seq 0 14))
      (seq 0 14).

(** A transformed 3-bin matrix without a zero row (from the contact matrix
    with entries 1, 2 and 3 off the diagonal). *)
Definition clean_mtx : matrix :=
  [ [0; 0; 7 # 10];
    [0; 0; 11 # 10];
    [7 # 10; 11 # 10; 0] ]%Q.

(** ** BoundaryNarrower *)

(** The width of the bracket kept by the loop, counted on the values of the
    three bounds. *)
Definition bracket_width (st : narrow_state) : Z :=
  2 * (Z.abs (bound_1 st - bound_2 st) + Z.abs (bound_1_prev st - bound_1 st))
  + (if bound_1_prev st =? bound_1 st then 1 else 0).

Section NarrowerSpec.

Variable optimal_segmentation : method -> matrix -> Z -> list bool -> list segment.
Variable mtx : matrix.
Variable filters : list stripe.
Variable good_bins : option (list bool).
Variable m : method.
Variables mis mts : Z.
Variable round_up : Z -> bool.
Variable grid : list Z.
Variable ty : side.

(** The states at the head of [while delta > 1]. *)
Inductive loop_state : narrow_state -> Prop :=
| loop_start (st0 : narrow_state) :
    narrow_init grid ty = ok st0 -> loop_state st0
| loop_turn (st st' : narrow_state) :
    loop_state st -> delta st > 1 ->
    adjust_step optimal_segmentation mtx filters good_bins m mis mts round_up grid st
    = ok st' ->
    loop_state st'.

(** The reading of the specification: every turn of the loop strictly
    decreases the index distance [delta]. *)
Definition distance_strictly_decreases : Prop :=
  forall st st',
    loop_state st -> delta st > 1 ->
    adjust_step optimal_segmentation mtx filters good_bins m mis mts round_up grid st
    = ok st' ->
    delta st' < delta st.

(** Turns enough for the loop: one more than the width of the first
    bracket. *)
Definition narrow_fuel : nat :=
  match narrow_init grid ty with
  | inr st0 => Z.to_nat (bracket_width st0 + 1)
  | inl _ => O
  end.

End NarrowerSpec.

(** A 100-bin example for the narrower: the bad bins 50..51, for which
    [get_noisy_stripes] gives the stripe [(50, 50)], and a segmentation that
    has one segment up to [gamma = 2] and two beyond. *)
Definition stall_mtx : matrix := gap_mtx 100 50 51.
Definition stall_filters : list stripe := [(50, 50)].
Definition stall_good_bins : list bool :=
  repeat true 50 ++ [false] ++ repeat true 49.
Definition stall_oracle (_ : method) (_ : matrix) (gamma : Z) (_ : list bool)
  : list segment :=
  if gamma <=? 2 then [(0, 40)] else [(0, 20); (20, 40)].
Definition stall_grid : list Z := [0; 1; 2; 3; 4; 5].

(** On the same matrix, a segmentation whose segments at [gamma = 1] are all
    too short for the size bounds [3 < length < 1000]; one segment passes
    them at [gamma = 0], of length [20], and one at [gamma = 2], of length
    [16]. *)
Definition hollow_oracle (_ : method) (_ : matrix) (gamma : Z) (_ : list bool)
  : list segment :=
  if gamma =? 0 then [(0, 20); (20, 22)]
  else if gamma =? 1 then [(0, 2); (2, 5)]
  else [(0, 16); (16, 18)].
Definition hollow_grid : list Z := [0; 1; 2].

(** A grid that is not in increasing order. *)
Definition unordered_grid : list Z := [1; 5; 7; 2].

(** Once the loop has turned, [delta] is the distance between the grid
    positions of the two bounds. *)
Definition delta_is_index_distance (grid : list Z) (st : narrow_state) : Prop :=
  is_begin st = false ->
  exists i1 i2, grid_index grid (bound_1 st) = ok i1
                /\ grid_index grid (bound_2 st) = ok i2
                /\ delta st = Z.abs (i1 - i2).

(** ** GlobalOptimumFinder *)

(** [p] is the first item of [d] holding the largest value: the items
    before it are strictly smaller, the items after it are not larger. *)
Definition first_max {K : Type} (d : list (K * Z)) (p : K * Z) : Prop :=
  exists pre post,
    d = pre ++ p :: post
    /\ (forall q, In q pre -> snd q < snd p)
    /\ (forall q, In q post -> snd q <= snd p).

Section OptimumSpec.

Context {G : Type}.
Variable G_eqb : G -> G -> bool.
Variable optimal_segmentation : method -> matrix -> G -> list bool -> list segment.
Variable mtx : matrix.
Variable filters : list stripe.
Variable good_bins : option (list bool).
Variable m : method.
Variables mis mts : Z.

(** The segmentation of one grid parameter. *)
Definition segmentation_of (gamma : G) : list segment :=
  match produce_tads_segmentation optimal_segmentation mtx filters gamma
                                  good_bins m mis mts with
  | Some segments => segments
  | None => []
  end.

End OptimumSpec.

(** * Further specification-level notions *)

(** ** NoiseMaskBuilder: maximal runs *)

(** The maximal runs of consecutive values in [l], the run in progress
    being [start..prev]. *)
Fixpoint runs_from (start prev : Z) (l : list Z) : list stripe :=
  match l with
  | [] => [(start, prev)]
  | x :: t =>
      if x - prev =? 1 then runs_from start x t
      else (start, prev) :: runs_from x x t
  end.

Definition maximal_runs (v : list Z) : list stripe :=
  match v with
  | [] => []
  | x :: t => runs_from x x t
  end.

(** The entries of [v] that the grouping loop reads: [v[0]] and [v[i]] for
    [i] in [range(1, len(v) - 1)]. *)
Definition bins_read (v : list Z) : list Z :=
  match v with
  | [] => []
  | x :: t => x :: removelast t
  end.

(** Two stripes with at least one bin between them. *)
Definition apart (r1 r2 : stripe) : Prop := snd r1 + 1 < fst r2.

(** A stripe whose start is not after its end. *)
Definition well_formed (r : stripe) : Prop := fst r <= snd r.

(** The stripe of bin indices [s] in genomic coordinates. *)
Definition to_coordinates (resolution : Z) (s : stripe) : stripe :=
  (fst s * resolution, snd s * resolution + resolution).

(** The stripe [r1] ends before [r2] starts. *)
Definition ends_before (r1 r2 : stripe) : Prop := snd r1 < fst r2.

(** ** [calc_mean_tad_size] *)

(** A column of the boundaries, as pooled over the TADs: empty with fewer
    than two boundaries. *)
Definition pooled_column (f : boundary -> option Q) (boundaries : list boundary)
  : list (option Q) :=
  match boundaries with
  | _ :: _ :: _ => map f boundaries
  | _ => []
  end.

(** ** BoundaryNarrower on a grid of consecutive integers *)

(** The grid [a, a + 1, ..., a + n - 1], that is [np.arange(a, a + n, 1)]. *)
Definition consecutive_grid (a : Z) (n : nat) : list Z :=
  map (fun i => a + Z.of_nat i) (seq 0 n).

(** The three bounds are values of the grid. *)
Definition on_grid (a : Z) (n : nat) (st : narrow_state) : Prop :=
  a <= bound_1 st < a + Z.of_nat n
  /\ a <= bound_1_prev st < a + Z.of_nat n
  /\ a <= bound_2 st < a + Z.of_nat n.

(** ** GlobalOptimumFinder: the rows of the data frame *)

(** The rows that the scan of a grid adds to the data frame: for each grid
    parameter, in grid order, the segments of its segmentation, each with
    the parameter. *)
Definition grid_rows {G : Type}
           (optimal_segmentation : method -> matrix -> G -> list bool -> list segment)
           (mtx : matrix) (filters : list stripe) (good_bins : option (list bool))
           (m : method) (mis mts : Z) (new_grid : list G) : list (segment * G) :=
  flat_map (fun gamma =>
              map (fun s => (s, gamma))
                  (segmentation_of optimal_segmentation mtx filters good_bins m
                                   mis mts gamma))
           new_grid.

(** ** GridExpansionCheck *)

(** The segment counts of the segmentations of a list of parameters. *)
Definition segment_counts
           (optimal_segmentation : method -> matrix -> Z -> list bool -> list segment)
           (mtx : matrix) (filters : list stripe) (good_bins : option (list bool))
           (m : method) (mis mts : Z) (gammas : list Z) : list nat :=
  map (fun gamma =>
         length (segmentation_of optimal_segmentation mtx filters good_bins m
                                 mis mts gamma))
      gammas.

(** * Properties *)

(** ** NoiseFilter *)

Lemma whether_tad_noisy_true_iff (x : segment) (filters : list stripe) (m : method)
      (resolution k : Z) :
  whether_tad_noisy x filters m resolution k = true <->
  exists s, In s filters /\
    let s' := expanded m resolution k s in
    within s' (fst x) \/ within s' (snd x)
    \/ (snd x <= snd s' /\ fst s' <= fst x)
    \/ contained_nondegenerate s' x.
Proof.
  induction filters as [| [b e] rest IH]; simpl.
  - split; [discriminate | intros [s [[] _]]].
  - unfold expanded, within, contained_nondegenerate in *.
    destruct (is_insulation m) eqn:Hm; simpl in *.
    + destruct ((fst x <=? e + resolution * k) && (fst x >=? b - resolution * k)) eqn:H1;
        [ split; [intros _ | reflexivity];
          exists (b, e); split; [now left | simpl; lia] |].
      destruct ((snd x <=? e + resolution * k) && (snd x >=? b - resolution * k)) eqn:H2;
        [ split; [intros _ | reflexivity];
          exists (b, e); split; [now left | simpl; lia] |].
      destruct ((snd x <=? e + resolution * k) && (fst x >=? b - resolution * k)) eqn:H3;
        [ split; [intros _ | reflexivity];
          exists (b, e); split; [now left | simpl; lia] |].
      destruct ((fst x <=? b - resolution * k) && (snd x >=? e + resolution * k)
                && negb (e + resolution * k - (b - resolution * k) =? 0)) eqn:H4;
        [ split; [intros _ | reflexivity];
          exists (b, e); split; [now left | simpl; lia] |].
      rewrite IH. split.
      * intros [s [Hin Hs]]. exists s. split; [now right | exact Hs].
      * intros [s [[Heq | Hin] Hs]]; [| exists s; now split].
        subst s. simpl in Hs. lia.
    + destruct ((fst x <=? e) && (fst x >=? b)) eqn:H1;
        [ split; [intros _ | reflexivity];
          exists (b, e); split; [now left | simpl; lia] |].
      destruct ((snd x <=? e) && (snd x >=? b)) eqn:H2;
        [ split; [intros _ | reflexivity];
          exists (b, e); split; [now left | simpl; lia] |].
      destruct ((snd x <=? e) && (fst x >=? b)) eqn:H3;
        [ split; [intros _ | reflexivity];
          exists (b, e); split; [now left | simpl; lia] |].
      destruct ((fst x <=? b) && (snd x >=? e) && negb (e - b =? 0)) eqn:H4;
        [ split; [intros _ | reflexivity];
          exists (b, e); split; [now left | simpl; lia] |].
      rewrite IH. split.
      * intros [s [Hin Hs]]. exists s. split; [now right | exact Hs].
      * intros [s [[Heq | Hin] Hs]]; [| exists s; now split].
        subst s. simpl in Hs. lia.
Qed.

Lemma calc_noisy_metric_noisy (x : segment) (filters : list stripe) (m : method)
      (resolution k : Z) :
  whether_tad_noisy x filters m resolution k = true ->
  calc_noisy_metric x filters m resolution k = (-1)%R.
Proof.
  intros H. unfold calc_noisy_metric. now rewrite H.
Qed.

(** C7. For a segment with [x[0] <= x[1]], [whether_tad_noisy] answers
    [True] exactly when some BadInterval, expanded by [k * resolution] for
    the insulation method only, contains an endpoint of the segment or lies
    wholly inside the segment with a width that is not zero.  In particular a
    segment containing a BadInterval of positive width (the expansion not
    being negative) is classified noisy and gets the metric [-1]. *)
Theorem whether_tad_noisy_spec (x : segment) (filters : list stripe) (m : method)
        (resolution k : Z) :
  fst x <= snd x ->
  (whether_tad_noisy x filters m resolution k = true
   <-> fully_noisy x filters m resolution k)
  /\ (forall s, In s filters -> fst s < snd s ->
                fst x <= fst s -> snd s <= snd x ->
                (is_insulation m = true -> 0 <= resolution * k) ->
                whether_tad_noisy x filters m resolution k = true
                /\ calc_noisy_metric x filters m resolution k = (-1)%R).
Proof.
  intros Hx.
  assert (Hiff : whether_tad_noisy x filters m resolution k = true
                 <-> fully_noisy x filters m resolution k).
  { rewrite whether_tad_noisy_true_iff. unfold fully_noisy.
    split; intros [s [Hin Hs]]; exists s; (split; [exact Hin |]);
      unfold within, contained_nondegenerate in *; simpl in *; lia. }
  split; [exact Hiff |].
  intros s Hin Hw Hl Hr Hk.
  assert (Hn : whether_tad_noisy x filters m resolution k = true).
  { apply Hiff. exists s. split; [exact Hin |].
    unfold expanded, within, contained_nondegenerate.
    destruct (is_insulation m); simpl; [specialize (Hk eq_refl) |]; lia. }
  split; [exact Hn | now apply calc_noisy_metric_noisy].
Qed.

Lemma whether_tad_noisy_spec_witness :
  (whether_tad_noisy (2, 9) [(4, 6)] Armatus 0 0 = true
   <-> fully_noisy (2, 9) [(4, 6)] Armatus 0 0)
  /\ (forall s, In s [(4, 6)] -> fst s < snd s ->
                fst (2, 9) <= fst s -> snd s <= snd (2, 9) ->
                (is_insulation Armatus = true -> 0 <= 0 * 0) ->
                whether_tad_noisy (2, 9) [(4, 6)] Armatus 0 0 = true
                /\ calc_noisy_metric (2, 9) [(4, 6)] Armatus 0 0 = (-1)%R).
Proof.
  apply (whether_tad_noisy_spec (2, 9) [(4, 6)] Armatus 0 0). simpl. lia.
Defined.

(** *** Helpers on the Python and numpy primitives *)

Lemma py_get_nat {A : Type} (l : list A) (i : nat) (a : A) :
  nth_error l i = Some a -> py_get l (Z.of_nat i) = ok a.
Proof.
  intros H. unfold py_get.
  assert (Hlt : (i < length l)%nat) by (apply nth_error_Some; congruence).
  destruct (Z.of_nat i <? 0) eqn:Hneg; [lia |].
  replace ((0 <=? Z.of_nat i) && (Z.of_nat i <? Z.of_nat (length l))) with true
    by (symmetry; apply andb_true_iff; split; lia).
  now rewrite Nat2Z.id, H.
Qed.

Lemma py_get_head {A : Type} (a : A) (l : list A) : py_get (a :: l) 0 = ok a.
Proof. exact (py_get_nat (a :: l) 0 a eq_refl). Qed.

Lemma py_get_nil {A : Type} (i : Z) : exists e, py_get (@nil A) i = inl e.
Proof.
  unfold py_get. simpl. exists IndexError.
  destruct (i <? 0) eqn:H; [| destruct ((0 <=? i) && (i <? 0)) eqn:H1; [lia | reflexivity]].
  destruct ((0 <=? i + 0) && (i + 0 <? 0)) eqn:H1; [lia | reflexivity].
Qed.

Lemma argmin_from_Z (t : list Z) (i best_i : nat) (best : Z) :
  let r := argmin_from Z.ltb t i best_i best in
  (r = best_i /\ Forall (fun y => best <= y) t)
  \/ (exists j v, r = (i + j)%nat /\ nth_error t j = Some v
                  /\ v < best /\ Forall (fun y => v <= y) t).
Proof.
  revert i best_i best. induction t as [| y t IH]; intros i best_i best; simpl.
  - left. split; [reflexivity | constructor].
  - destruct (y <? best) eqn:Hy.
    + apply Z.ltb_lt in Hy.
      destruct (IH (S i) i y) as [[Hr Hall] | [j [v [Hr [Hn [Hv Hall]]]]]].
      * right. exists 0%nat, y. rewrite Hr.
        split; [lia | split; [reflexivity | split; [exact Hy |]]].
        constructor; [lia | exact Hall].
      * right. exists (S j), v. rewrite Hr.
        split; [lia | split; [exact Hn | split; [lia |]]].
        constructor; [lia | exact Hall].
    + apply Z.ltb_ge in Hy.
      destruct (IH (S i) best_i best) as [[Hr Hall] | [j [v [Hr [Hn [Hv Hall]]]]]].
      * left. split; [exact Hr | constructor; [lia | exact Hall]].
      * right. exists (S j), v. rewrite Hr.
        split; [lia | split; [exact Hn | split; [exact Hv |]]].
        constructor; [lia | exact Hall].
Qed.

Lemma np_argmin_Z (l : list Z) :
  l <> [] ->
  exists r v, np_argmin Z.ltb l = ok r /\ nth_error l r = Some v
              /\ Forall (fun y => v <= y) l.
Proof.
  destruct l as [| y t]; [congruence | intros _]. simpl.
  destruct (argmin_from_Z t 1 0 y) as [[Hr Hall] | [j [v [Hr [Hn [Hv Hall]]]]]].
  - exists 0%nat, y. rewrite Hr.
    split; [reflexivity | split; [reflexivity |]].
    constructor; [lia | exact Hall].
  - exists (S j), v. rewrite Hr.
    split; [reflexivity | split; [exact Hn |]].
    constructor; [lia | exact Hall].
Qed.

Lemma np_where_from_first {A : Type} (p : A -> bool) (l : list A) (i : nat) (a : A) :
  In a l -> p a = true ->
  exists j rest b, np_where_from p l i = (i + j)%nat :: rest
                   /\ nth_error l j = Some b /\ p b = true.
Proof.
  revert i. induction l as [| y t IH]; intros i Hin Hp; [destruct Hin |].
  simpl. destruct (p y) eqn:Hy.
  - exists 0%nat, (np_where_from p t (S i)), y.
    split; [f_equal; lia | split; [reflexivity | exact Hy]].
  - destruct Hin as [-> | Hin]; [congruence |].
    destruct (IH (S i) Hin Hp) as [j [rest [b [Hw [Hn Hb]]]]].
    exists (S j), rest, b. rewrite Hw.
    split; [f_equal; lia | split; [exact Hn | exact Hb]].
Qed.

Lemma np_where_first (v : Z) (l : list Z) :
  In v l ->
  exists j rest, np_where (Z.eqb v) l = j :: rest /\ nth_error l j = Some v.
Proof.
  intros Hin.
  destruct (np_where_from_first (Z.eqb v) l 0 v Hin (Z.eqb_refl v))
    as [j [rest [b [Hw [Hn Hb]]]]].
  apply Z.eqb_eq in Hb. subst b. exists j, rest. split; [exact Hw | exact Hn].
Qed.

(** In an ascending column the entries passing a downward-closed test form
    a prefix. *)
Lemma sorted_filter_prefix (p : Z -> bool) (l : list Z) :
  (forall a b, a <= b -> p b = true -> p a = true) ->
  StronglySorted Z.le l ->
  exists rest, l = filter p l ++ rest /\ Forall (fun e => p e = false) rest.
Proof.
  intros Hp Hs. induction Hs as [| a t Hs IH Ha].
  - exists []. split; [reflexivity | constructor].
  - simpl. destruct (p a) eqn:Hpa.
    + destruct IH as [rest [Heq Hrest]]. exists rest.
      split; [simpl; now rewrite <- Heq | exact Hrest].
    + assert (Hall : Forall (fun e => p e = false) t).
      { rewrite Forall_forall in *. intros e He.
        destruct (p e) eqn:Hpe; [| reflexivity].
        rewrite (Hp a e (Ha e He) Hpe) in Hpa. discriminate. }
      assert (Hnil : filter p t = []).
      { clear -Hall. induction Hall as [| e t He _ IHt]; [reflexivity |].
        simpl. now rewrite He. }
      exists (a :: t). rewrite Hnil. split; [reflexivity |].
      constructor; [exact Hpa | exact Hall].
Qed.

Lemma py_min_Rmin (a b : R) : py_min a b = Rmin a b.
Proof.
  unfold py_min, Rmin.
  destruct (Rlt_dec b a); destruct (Rle_dec a b); lra.
Qed.

(** *** The two stripes picked by [calc_noisy_metric] *)

Lemma nth_error_map_snd (filters : list (Z * Z)) (j : nat) (e : Z) :
  nth_error (map snd filters) j = Some e ->
  exists row, nth_error filters j = Some row /\ snd row = e.
Proof.
  rewrite nth_error_map.
  destruct (nth_error filters j) as [row |]; simpl; [| intros H; discriminate H].
  intros H. injection H as H. now exists row.
Qed.

Lemma nth_error_map_fst (filters : list (Z * Z)) (j : nat) (s : Z) :
  nth_error (map fst filters) j = Some s ->
  exists row, nth_error filters j = Some row /\ fst row = s.
Proof.
  rewrite nth_error_map.
  destruct (nth_error filters j) as [row |]; simpl; [| intros H; discriminate H].
  intros H. injection H as H. now exists row.
Qed.

Lemma left_stripe_nearest (x : segment) (filters : list stripe) :
  StronglySorted Z.le (map snd filters) ->
  match left_stripe x filters with
  | inr ls => nearest_left filters x (Some (snd ls))
  | inl _ => nearest_left filters x None
  end.
Proof.
  intros Hs. unfold left_stripe.
  set (ends := map snd filters) in *.
  set (p := fun e => fst x - e >=? 0).
  destruct (sorted_filter_prefix p ends) as [rest [Hsplit Hrest]];
    [intros a b Hab Hb; unfold p in *; lia | exact Hs |].
  destruct (filter p ends) as [| e0 masked'] eqn:Hmasked.
  - simpl. intros e' He'. change (In e' ends) in He'.
    simpl in Hsplit. rewrite Hsplit in He'.
    rewrite Forall_forall in Hrest. specialize (Hrest e' He'). unfold p in Hrest. lia.
  - destruct (np_argmin_Z (map (fun e => fst x - e) (e0 :: masked')))
      as [r [v [Harg [Hnth Hmin]]]]; [discriminate |].
    rewrite Harg. simpl bind.
    rewrite nth_error_map in Hnth.
    destruct (nth_error (e0 :: masked') r) as [e |] eqn:He; [| discriminate].
    simpl in Hnth. injection Hnth as Hv.
    assert (Hends : nth_error ends r = Some e).
    { rewrite Hsplit. rewrite nth_error_app1; [exact He |].
      apply nth_error_Some. congruence. }
    rewrite (py_get_nat ends r e Hends). simpl bind.
    assert (Hin : In e ends) by (eapply nth_error_In; exact Hends).
    destruct (np_where_first e ends Hin) as [j [restw [Hw Hj]]].
    rewrite Hw, py_get_head. simpl bind.
    destruct (nth_error_map_snd filters j e Hj) as [row [Hrow Hsnd]].
    rewrite (py_get_nat filters j row Hrow). simpl. rewrite Hsnd.
    assert (Hmem : In e (filter p ends))
      by (rewrite Hmasked; eapply nth_error_In; exact He).
    apply filter_In in Hmem. destruct Hmem as [_ Hpe].
    split; [exact Hin | split; [unfold p in Hpe; lia |]].
    intros e' He' Hle.
    assert (Hm' : In e' (e0 :: masked')).
    { rewrite <- Hmasked. apply filter_In. split; [exact He' | unfold p; lia]. }
    rewrite Forall_forall in Hmin.
    specialize (Hmin (fst x - e') (in_map (fun e => fst x - e) _ _ Hm')). lia.
Qed.

Lemma filter_sorted (q : Z -> bool) (l : list Z) :
  StronglySorted Z.le l -> StronglySorted Z.le (filter q l).
Proof.
  intros Hs. induction Hs as [| a t Hs IH Ha]; simpl; [constructor |].
  destruct (q a); [| exact IH].
  constructor; [exact IH |].
  rewrite Forall_forall in *. intros y Hy. apply Ha.
  apply filter_In in Hy. tauto.
Qed.

Lemma right_stripe_nearest (x : segment) (filters : list stripe) :
  StronglySorted Z.le (map fst filters) ->
  match right_stripe x filters with
  | inr rs => nearest_right filters x (Some (fst rs))
  | inl _ => nearest_right filters x None
  end.
Proof.
  intros Hs. unfold right_stripe.
  set (starts := map fst filters) in *.
  set (q := fun s => s - snd x >=? 0).
  pose proof (filter_sorted q starts Hs) as Hfs.
  destruct (filter q starts) as [| v rest] eqn:Hf.
  - destruct (py_get_nil (A := Z) 0) as [e He]. rewrite He. simpl.
    intros s' Hs'.
    destruct (q s') eqn:Hq; [| unfold q in Hq; lia].
    assert (Hin : In s' (filter q starts)) by (apply filter_In; now split).
    rewrite Hf in Hin. destruct Hin.
  - rewrite py_get_head. simpl bind.
    assert (Hvin : In v (filter q starts)) by (rewrite Hf; now left).
    apply filter_In in Hvin. destruct Hvin as [Hin Hqv].
    destruct (np_where_first v starts Hin) as [j [restw [Hw Hj]]].
    rewrite Hw. simpl map. rewrite py_get_head.
    destruct (nth_error_map_fst filters j v Hj) as [row [Hrow Hfst]].
    rewrite (nth_error_nth filters j (0, 0) Hrow). simpl. rewrite Hfst.
    split; [exact Hin | split; [unfold q in Hqv; lia |]].
    intros s' Hs' Hle.
    assert (Hm : In s' (v :: rest)).
    { rewrite <- Hf. apply filter_In. split; [exact Hs' | unfold q; lia]. }
    destruct Hm as [-> | Hm]; [lia |].
    inversion Hfs as [| a t _ Hall]; subst.
    rewrite Forall_forall in Hall. exact (Hall s' Hm).
Qed.

(** C8. For a segment that is not fully noisy, the insulation method gets
    the constant metric [1]; a density-score method gets
    [min(left_metric, right_metric)], each side being
    [log(gap)^2 * log(length)] for the nearest BadInterval ending at or
    before the start (left) or starting at or after the end (right) of the
    segment, and [1e10] when that side has no BadInterval.  The BadIntervals
    are taken in coordinate order, as [get_noisy_stripes] lists them. *)
Theorem calc_noisy_metric_not_noisy (x : segment) (filters : list stripe)
        (m : method) (resolution k : Z) :
  whether_tad_noisy x filters m resolution k = false ->
  stripes_ordered filters ->
  if is_insulation m
  then calc_noisy_metric x filters m resolution k = 1%R
  else exists l r,
      nearest_left filters x l /\ nearest_right filters x r
      /\ calc_noisy_metric x filters m resolution k
         = Rmin (side_metric (option_map (fun e => fst x - e) l) (snd x - fst x))
                (side_metric (option_map (fun s => s - snd x) r) (snd x - fst x)).
Proof.
  intros Hn [Hstarts Hends]. unfold calc_noisy_metric. rewrite Hn.
  destruct (is_insulation m) eqn:Hm; [reflexivity |]. cbn [negb].
  pose proof (left_stripe_nearest x filters Hends) as Hl.
  pose proof (right_stripe_nearest x filters Hstarts) as Hr.
  rewrite py_min_Rmin.
  destruct (left_stripe x filters) as [el | ls];
    destruct (right_stripe x filters) as [er | rs].
  - exists None, None. split; [exact Hl | split; [exact Hr | reflexivity]].
  - exists None, (Some (fst rs)). split; [exact Hl | split; [exact Hr | reflexivity]].
  - exists (Some (snd ls)), None. split; [exact Hl | split; [exact Hr | reflexivity]].
  - exists (Some (snd ls)), (Some (fst rs)).
    split; [exact Hl | split; [exact Hr | reflexivity]].
Qed.

Lemma calc_noisy_metric_not_noisy_witness :
  exists l r,
    nearest_left [(0, 2); (30, 35)] (10, 20) l
    /\ nearest_right [(0, 2); (30, 35)] (10, 20) r
    /\ calc_noisy_metric (10, 20) [(0, 2); (30, 35)] Armatus 0 0
       = Rmin (side_metric (option_map (fun e => fst (10, 20) - e) l)
                           (snd (10, 20) - fst (10, 20)))
              (side_metric (option_map (fun s => s - snd (10, 20)) r)
                           (snd (10, 20) - fst (10, 20))).
Proof.
  apply (calc_noisy_metric_not_noisy (10, 20) [(0, 2); (30, 35)] Armatus 0 0).
  - reflexivity.
  - split; simpl; repeat constructor; lia.
Defined.

(** ** SegmentationGenerator *)

Lemma np_select_map {A : Type} (f : A -> bool) (l : list A) :
  np_select l (map f l) = filter f l.
Proof.
  unfold np_select. induction l as [| a t IH]; simpl; [reflexivity |].
  destruct (f a); simpl; now rewrite IH.
Qed.

Lemma np_select_metric {A : Type} (g : A -> R) (c : R) (l : list A) :
  np_select l (map (fun h => Rgtb h c) (map g l)) = filter (fun x => Rgtb (g x) c) l.
Proof.
  rewrite map_map. apply np_select_map.
Qed.

Lemma py_get_In {A : Type} (l : list A) (i : Z) (a : A) :
  py_get l i = ok a -> In a l.
Proof.
  unfold py_get.
  destruct ((0 <=? (if i <? 0 then i + Z.of_nat (length l) else i))
            && ((if i <? 0 then i + Z.of_nat (length l) else i) <? Z.of_nat (length l)));
    [| discriminate].
  destruct (nth_error l _) as [b |] eqn:Hn; [| discriminate].
  intros H. injection H as <-. eapply nth_error_In. exact Hn.
Qed.

Lemma py_slice_to_incl {A : Type} (l : list A) (k : Z) (a : A) :
  In a (py_slice_to l k) -> In a l.
Proof.
  unfold py_slice_to. intros H.
  rewrite <- (firstn_skipn (Z.to_nat (if k <? 0
                                       then Z.max 0 (k + Z.of_nat (length l))
                                       else k)) l).
  apply in_or_app. now left.
Qed.

Lemma size_filter_bounds (mis mts : Z) (segments : list segment) (s : segment) :
  In s (size_filter mis mts segments) -> strictly_within mis mts s.
Proof.
  unfold size_filter, strictly_within. intros H.
  apply filter_In in H. destruct H as [_ H]. lia.
Qed.

Lemma produce_tads_segmentation_incl {G : Type}
      (oracle : method -> matrix -> G -> list bool -> list segment)
      (mtx : matrix) (filters : list stripe) (gamma : G)
      (good_bins : option (list bool)) (m : method) (mis mts : Z)
      (segments : list segment) (s : segment) :
  produce_tads_segmentation oracle mtx filters gamma good_bins m mis mts
  = Some segments ->
  In s segments ->
  exists gb, In s (size_filter mis mts (oracle m mtx gamma gb)).
Proof.
  unfold produce_tads_segmentation.
  set (gb := match good_bins with None => default_good_bins mtx | Some g => g end).
  intros H Hin. exists gb.
  destruct m; try discriminate;
    (destruct (noise_threshold _ _ _) as [e | thresh];
     injection H as <-; [exact Hin |];
     rewrite np_select_metric in Hin; apply filter_In in Hin; tauto).
Qed.

(** C9. Every segment returned by [produce_tads_segmentation] has a length
    strictly above [max_intertad_size] and strictly below [max_tad_size],
    and so has every TAD that [calc_mean_tad_size] keeps for its statistics,
    whatever the matrix, the parameter and the method. *)
Theorem size_bounds_exclusive {G : Type}
        (oracle : method -> matrix -> G -> list bool -> list segment)
        (mtx : matrix) (filters : list stripe) (gamma : G)
        (good_bins : option (list bool)) (m : method) (mis mts : Z)
        (boundaries : list boundary) (resolution : Z) :
  match produce_tads_segmentation oracle mtx filters gamma good_bins m mis mts with
  | Some segments => Forall (strictly_within mis mts) segments
  | None => True
  end
  /\ Forall (fun t => exists len, tad_length t = Some len
                                  /\ (inject_Z mis < len)%Q /\ (len < inject_Z mts)%Q)
            (select_tads boundaries filters mis mts resolution).
Proof.
  split.
  - destruct (produce_tads_segmentation oracle mtx filters gamma good_bins m mis mts)
      as [segments |] eqn:H; [| exact I].
    apply Forall_forall. intros s Hs.
    destruct (produce_tads_segmentation_incl _ _ _ _ _ _ _ _ _ _ H Hs) as [gb Hgb].
    eapply size_filter_bounds. exact Hgb.
  - apply Forall_forall. intros t Ht. unfold select_tads in Ht.
    apply filter_In in Ht. destruct Ht as [Ht _].
    apply filter_In in Ht. destruct Ht as [_ Ht].
    unfold in_size_bounds in Ht.
    destruct (tad_length t) as [len |]; [| discriminate].
    exists len. split; [reflexivity |].
    apply andb_true_iff in Ht. destruct Ht as [H1 H2].
    split; apply Qnot_le_lt; intros Hle; apply Qle_bool_iff in Hle.
    + now rewrite Hle in H1.
    + now rewrite Hle in H2.
Qed.

(** The density-score generator, with its masks written as filters. *)
Lemma produce_tads_segmentation_density {G : Type}
      (oracle : method -> matrix -> G -> list bool -> list segment)
      (mtx : matrix) (filters : list stripe) (gamma : G)
      (good_bins : list bool) (m : method) (mis mts : Z) :
  density_score m ->
  produce_tads_segmentation oracle mtx filters gamma (Some good_bins) m mis mts
  = match noise_threshold
            (positive_metrics filters m
               (size_filter mis mts (oracle m mtx gamma good_bins)))
            (noisy_bins filters) (Z.of_nat (length mtx)) with
    | inr thresh =>
        Some (filter (fun x => Rgtb (calc_noisy_metric x filters m 0 0) thresh)
                     (size_filter mis mts (oracle m mtx gamma good_bins)))
    | inl _ => Some (size_filter mis mts (oracle m mtx gamma good_bins))
    end.
Proof.
  intros [-> | ->]; unfold produce_tads_segmentation, positive_metrics;
    cbv zeta; destruct (noise_threshold _ _ _); try reflexivity;
    now rewrite np_select_metric.
Qed.

Lemma sorted_In (l : list R) (a : R) : In a (sorted l) -> In a l.
Proof.
  assert (Hins : forall b t, In a (R_insert b t) -> a = b \/ In a t).
  { intros b t. induction t as [| c t IH]; simpl.
    - intros [H | []]; now left.
    - destruct (Rlt_dec b c); simpl.
      + intros [H | H]; [now left | now right].
      + intros [H | H]; [right; now left |].
        destruct (IH H) as [H' | H']; [now left | right; now right]. }
  induction l as [| b t IH]; simpl; [tauto |].
  intros H. destruct (Hins _ _ H) as [-> | H']; [now left | right; now apply IH].
Qed.

Lemma positive_metrics_pos (filters : list stripe) (m : method)
      (candidates : list segment) (h : R) :
  In h (positive_metrics filters m candidates) -> (0 < h)%R.
Proof.
  unfold positive_metrics. intros H. apply filter_In in H. destruct H as [_ H].
  unfold Rgtb in H. destruct (Rgt_dec h 0); [lra | discriminate].
Qed.

Lemma noise_threshold_pos (hist : list R) (bins n : Z) (thresh : R) :
  (forall h, In h hist -> (0 < h)%R) ->
  noise_threshold hist bins n = ok thresh -> (0 < thresh)%R.
Proof.
  intros Hpos. unfold noise_threshold.
  destruct (noise_index _ _ _) as [e | k]; [discriminate |]. cbn [bind].
  destruct (py_get (py_slice_to hist _) (-1)) as [e | a] eqn:Ha; [discriminate |].
  simpl bind.
  destruct (py_get hist _) as [e | b] eqn:Hb; [discriminate |].
  simpl. intros H. injection H as <-.
  apply py_get_In in Ha. apply py_slice_to_incl in Ha. apply py_get_In in Hb.
  specialize (Hpos a Ha) as Hpa. specialize (Hpos b Hb) as Hpb. lra.
Qed.

(** [l[i]] is the entry at the position that [i] denotes, counted from the
    end when [i] is negative. *)
Lemma py_get_position {A : Type} (l : list A) (i : Z) (a : A) :
  py_get l i = ok a
  <-> exists j : nat,
        Z.of_nat j = (if i <? 0 then i + Z.of_nat (length l) else i)
        /\ nth_error l j = Some a.
Proof.
  unfold py_get. set (jz := if i <? 0 then i + Z.of_nat (length l) else i).
  split.
  - destruct ((0 <=? jz) && (jz <? Z.of_nat (length l))) eqn:Hin; [| discriminate].
    destruct (nth_error l (Z.to_nat jz)) as [b |] eqn:Hn; [| discriminate].
    intros H. injection H as <-. exists (Z.to_nat jz). split; [| exact Hn].
    apply andb_true_iff in Hin. destruct Hin as [H0 _]. apply Z.leb_le in H0. lia.
  - intros [j [Hj Hn]].
    assert (Hlt : (j < length l)%nat) by (apply nth_error_Some; congruence).
    replace ((0 <=? jz) && (jz <? Z.of_nat (length l))) with true
      by (symmetry; apply andb_true_iff; split;
          [apply Z.leb_le | apply Z.ltb_lt]; lia).
    rewrite <- Hj, Nat2Z.id, Hn. reflexivity.
Qed.

(** Where the threshold sits: with [k = int(len(hist_arr) * noise_freq)]
    denoting the position [j + 1] of [hist_arr], it is the mean of the
    entries at the positions [j] and [j + 1]; and it can be computed in no
    other case. *)
Lemma noise_threshold_position (hist : list R) (bins n : Z) (thresh : R) :
  noise_threshold hist bins n = ok thresh
  <-> exists (k : Z) (j : nat) (a b : R),
        noise_index (Z.of_nat (length hist)) bins n = ok k
        /\ Z.of_nat (S j) = (if k <? 0 then k + Z.of_nat (length hist) else k)
        /\ nth_error hist j = Some a
        /\ nth_error hist (S j) = Some b
        /\ thresh = ((a + b) / 2)%R.
Proof.
  unfold noise_threshold. split.
  - destruct (noise_index _ _ _) as [e | k]; [discriminate |]. cbn [bind].
    destruct (py_get (py_slice_to hist k) (-1)) as [e | a] eqn:Ha;
      [discriminate |].
    cbn [bind].
    destruct (py_get hist k) as [e | b] eqn:Hb; [discriminate |].
    cbn [bind]. intros H. injection H as <-.
    apply py_get_position in Hb. destruct Hb as [j0 [Hj0 Hb]].
    assert (Hlt : (j0 < length hist)%nat) by (apply nth_error_Some; congruence).
    unfold py_slice_to in Ha.
    replace (Z.to_nat (if k <? 0 then Z.max 0 (k + Z.of_nat (length hist)) else k))
      with j0 in Ha by (destruct (k <? 0); lia).
    apply py_get_position in Ha. destruct Ha as [j1 [Hj1 Ha]].
    rewrite length_firstn in Hj1. cbn [Z.ltb Z.compare] in Hj1.
    rewrite nth_error_firstn in Ha.
    destruct (Nat.ltb_spec j1 j0) as [Hlt1 | _]; [| discriminate].
    assert (Hj : j0 = S j1) by lia. subst j0.
    exists k, j1, a, b. repeat split; assumption.
  - intros [k [j [a [b [Hk [Hj [Ha [Hb ->]]]]]]]].
    rewrite Hk. cbn [bind ok].
    assert (Hlt : (S j < length hist)%nat) by (apply nth_error_Some; congruence).
    assert (Hsl : py_get (py_slice_to hist k) (-1) = ok a).
    { unfold py_slice_to.
      replace (Z.to_nat (if k <? 0 then Z.max 0 (k + Z.of_nat (length hist)) else k))
        with (S j) by (destruct (k <? 0); lia).
      apply py_get_position. exists j. split.
      - rewrite length_firstn. cbn [Z.ltb Z.compare]. lia.
      - rewrite nth_error_firstn.
        destruct (Nat.ltb_spec j (S j)) as [_ | H]; [exact Ha | lia]. }
    rewrite Hsl. cbn [bind ok].
    assert (Hget : py_get hist k = ok b).
    { apply py_get_position. exists (S j). split; assumption. }
    rewrite Hget. reflexivity.
Qed.

(** The three examples are outputs of [get_noisy_stripes]. *)
Lemma example_from_get_noisy_stripes :
  get_noisy_stripes example_mtx Armatus 1
  = ok (example_filters, example_mtx, example_good_bins)
  /\ get_noisy_stripes noisy_mtx Armatus 1
     = ok (noisy_filters, noisy_mtx, noisy_good_bins)
  /\ get_noisy_stripes stall_mtx Armatus 1
     = ok (stall_filters, stall_mtx, stall_good_bins).
Proof.
  repeat split; vm_compute; reflexivity.
Qed.

(** *** The 100-bin example: the [except] branch *)

(** C6 (the code departs from it). With one stripe inside the only
    candidate and a noise frequency too small to index [hist_arr], the
    [except] branch returns the candidates as they are: the segment
    [(2, 9)] comes back although it is fully noisy, with metric [-1]. *)
Theorem except_branch_returns_noisy_segment :
  produce_tads_segmentation noisy_oracle noisy_mtx noisy_filters 1
                            (Some noisy_good_bins) Armatus 3 1000
  = Some [(2, 9)]
  /\ whether_tad_noisy (2, 9) noisy_filters Armatus 0 0 = true
  /\ calc_noisy_metric (2, 9) noisy_filters Armatus 0 0 = (-1)%R.
Proof.
  assert (Hn : whether_tad_noisy (2, 9) noisy_filters Armatus 0 0 = true)
    by reflexivity.
  pose proof (calc_noisy_metric_noisy _ _ _ _ _ Hn) as Hm.
  split; [| split; assumption].
  rewrite produce_tads_segmentation_density by (now left).
  change (size_filter 3 1000 (noisy_oracle Armatus noisy_mtx 1 noisy_good_bins))
    with [(2, 9)].
  unfold positive_metrics. cbn [map]. rewrite Hm.
  cbn [sorted fold_right R_insert filter]. unfold Rgtb at 1.
  destruct (Rgt_dec (-1) 0) as [Hgt | _]; [lra |].
  reflexivity.
Qed.

(** *** The 40-bin example: the adaptive threshold at work *)

Lemma ln_pos (a : R) : (1 < a)%R -> (0 < ln a)%R.
Proof.
  intros H. rewrite <- ln_1. apply ln_increasing; lra.
Qed.

(** The metric shared by the two candidates of the 40-bin example. *)
Lemma example_metric_pos :
  (0 < Rmin sentinel (np_log 2 ^ 2 * np_log 6))%R.
Proof.
  assert (H2 : (0 < np_log 2)%R) by (apply ln_pos; lra).
  assert (H6 : (0 < np_log 6)%R) by (apply ln_pos; lra).
  assert (Hc : (0 < np_log 2 ^ 2 * np_log 6)%R).
  { apply Rmult_lt_0_compat; [apply pow_lt |]; assumption. }
  apply Rmin_glb_lt; [unfold sentinel; lra | exact Hc].
Qed.

Lemma example_metric_left :
  calc_noisy_metric (2, 8) example_filters Armatus 0 0
  = Rmin sentinel (np_log 2 ^ 2 * np_log 6).
Proof.
  unfold calc_noisy_metric.
  assert (Hn : whether_tad_noisy (2, 8) example_filters Armatus 0 0 = false)
    by reflexivity.
  assert (Hl : left_stripe (2, 8) example_filters = inl ValueError) by reflexivity.
  assert (Hr : right_stripe (2, 8) example_filters = inr (10, 29)) by reflexivity.
  rewrite Hn, Hl, Hr. cbn [is_insulation negb]. rewrite py_min_Rmin. reflexivity.
Qed.

Lemma example_metric_right :
  calc_noisy_metric (31, 37) example_filters Armatus 0 0
  = Rmin sentinel (np_log 2 ^ 2 * np_log 6).
Proof.
  unfold calc_noisy_metric.
  assert (Hn : whether_tad_noisy (31, 37) example_filters Armatus 0 0 = false)
    by reflexivity.
  assert (Hl : left_stripe (31, 37) example_filters = inr (10, 29)) by reflexivity.
  assert (Hr : right_stripe (31, 37) example_filters = inl IndexError) by reflexivity.
  rewrite Hn, Hl, Hr. cbn [is_insulation negb]. rewrite py_min_Rmin, Rmin_comm.
  reflexivity.
Qed.

Lemma example_candidates :
  size_filter 3 1000 (example_oracle Armatus example_mtx 1 example_good_bins)
  = [(2, 8); (31, 37)].
Proof. reflexivity. Qed.

Lemma example_positive_metrics :
  positive_metrics example_filters Armatus [(2, 8); (31, 37)]
  = [Rmin sentinel (np_log 2 ^ 2 * np_log 6);
     Rmin sentinel (np_log 2 ^ 2 * np_log 6)].
Proof.
  unfold positive_metrics. cbn [map].
  rewrite example_metric_left, example_metric_right.
  pose proof example_metric_pos as Hpos.
  set (h := Rmin sentinel (np_log 2 ^ 2 * np_log 6)) in *.
  cbn [sorted fold_right R_insert].
  destruct (Rlt_dec h h) as [Hlt | _]; [lra |].
  cbn [filter]. unfold Rgtb.
  destruct (Rgt_dec h 0) as [_ | Hn]; [reflexivity | lra].
Qed.

Lemma noise_threshold_two (h : R) :
  noise_threshold [h; h] (noisy_bins example_filters)
                  (Z.of_nat (length example_mtx))
  = ok ((h + h) / 2)%R.
Proof. reflexivity. Qed.

Lemma example_threshold :
  noise_threshold
    (positive_metrics example_filters Armatus
       (size_filter 3 1000 (example_oracle Armatus example_mtx 1 example_good_bins)))
    (noisy_bins example_filters) (Z.of_nat (length example_mtx))
  = ok ((Rmin sentinel (np_log 2 ^ 2 * np_log 6)
         + Rmin sentinel (np_log 2 ^ 2 * np_log 6)) / 2)%R.
Proof.
  rewrite example_candidates, example_positive_metrics.
  apply noise_threshold_two.
Qed.

Lemma example_output :
  produce_tads_segmentation example_oracle example_mtx example_filters 1
                            (Some example_good_bins) Armatus 3 1000
  = Some [].
Proof.
  rewrite produce_tads_segmentation_density by (now left).
  rewrite example_threshold, example_candidates.
  cbn [filter]. rewrite example_metric_left, example_metric_right.
  pose proof example_metric_pos as Hpos.
  set (h := Rmin sentinel (np_log 2 ^ 2 * np_log 6)) in *.
  unfold ok, Rgtb.
  destruct (Rgt_dec h ((h + h) / 2)) as [Hgt | _]; [lra | reflexivity].
Qed.

(** C1 (as stated, refuted). In the 40-bin example both candidates have
    the same positive metric; the threshold computed from the noise
    frequency equals that metric and both are dropped, whereas a constant
    threshold [0] would keep both. *)
Lemma adaptive_threshold_drops_positive_metric :
  ~ keeps_metric_above_zero example_oracle example_mtx example_filters 1
                            example_good_bins Armatus 3 1000.
Proof.
  unfold keeps_metric_above_zero.
  rewrite example_output, example_candidates.
  cbn [filter]. rewrite example_metric_left, example_metric_right.
  pose proof example_metric_pos as Hpos.
  set (h := Rmin sentinel (np_log 2 ^ 2 * np_log 6)) in *.
  unfold Rgtb. destruct (Rgt_dec h 0) as [_ | Hn]; [discriminate | lra].
Qed.

Lemma R_insert_In (a b : R) (t : list R) :
  In a (R_insert b t) -> a = b \/ In a t.
Proof.
  induction t as [| c t IH]; simpl.
  - intros [H | []]; now left.
  - destruct (Rlt_dec b c); simpl.
    + intros [H | H]; [now left | now right].
    + intros [H | H]; [right; now left |].
      destruct (IH H) as [H' | H']; [now left | right; now right].
Qed.

Lemma R_insert_sorted (a : R) (l : list R) :
  StronglySorted Rle l -> StronglySorted Rle (R_insert a l).
Proof.
  intros Hs. induction Hs as [| b t Hs IH Hb]; simpl.
  - repeat constructor.
  - destruct (Rlt_dec a b) as [Hlt | Hge].
    + constructor; [constructor; assumption |].
      constructor; [lra |].
      eapply Forall_impl; [| exact Hb]. intros c Hc. simpl in Hc. lra.
    + constructor; [exact IH |].
      apply Forall_forall. intros c Hc. apply R_insert_In in Hc.
      destruct Hc as [-> | Hc]; [lra |].
      rewrite Forall_forall in Hb. exact (Hb c Hc).
Qed.

Lemma sorted_is_sorted (l : list R) : StronglySorted Rle (sorted l).
Proof.
  induction l as [| a t IH]; simpl; [constructor | now apply R_insert_sorted].
Qed.

Lemma filter_sorted_R (f : R -> bool) (l : list R) :
  StronglySorted Rle l -> StronglySorted Rle (filter f l).
Proof.
  intros Hs. induction Hs as [| a t Hs IH Ha]; simpl; [constructor |].
  destruct (f a); [| exact IH].
  constructor; [exact IH |].
  rewrite Forall_forall in *. intros y Hy. apply Ha.
  apply filter_In in Hy. tauto.
Qed.

Lemma sorted_app_le (l1 l2 : list R) (a b : R) :
  StronglySorted Rle (l1 ++ l2) -> In a l1 -> In b l2 -> (a <= b)%R.
Proof.
  induction l1 as [| c l1 IH]; intros Hs Ha Hb; [destruct Ha |].
  cbn [app] in Hs. inversion Hs as [| ? ? Hs' Hc]; subst.
  destruct Ha as [<- | Ha]; [| now apply IH].
  rewrite Forall_forall in Hc. apply Hc. apply in_or_app. now right.
Qed.

Lemma nth_error_skipn_In {A : Type} (l : list A) (k : nat) (b : A) :
  nth_error l k = Some b -> In b (skipn k l).
Proof.
  revert l. induction k as [| k IH]; intros l H.
  - destruct l; [discriminate |]. injection H as <-. now left.
  - destruct l; [discriminate |]. cbn [skipn]. now apply IH.
Qed.

Lemma R_insert_perm (a : R) (l : list R) : Permutation (R_insert a l) (a :: l).
Proof.
  induction l as [| b t IH]; cbn [R_insert]; [reflexivity |].
  destruct (Rlt_dec a b); [reflexivity |].
  rewrite IH. apply perm_swap.
Qed.

Lemma sorted_perm (l : list R) : Permutation (sorted l) l.
Proof.
  induction l as [| a t IH]; cbn [sorted fold_right]; [reflexivity |].
  rewrite R_insert_perm. now constructor.
Qed.

Lemma filter_perm {A : Type} (f : A -> bool) (l l' : list A) :
  Permutation l l' -> Permutation (filter f l) (filter f l').
Proof.
  intros H. induction H as [| x l l' _ IH | x y l | l l' l'' _ IH1 _ IH2].
  - reflexivity.
  - cbn [filter]. destruct (f x); [now constructor | exact IH].
  - cbn [filter]. destruct (f x), (f y); try reflexivity. apply perm_swap.
  - now transitivity (filter f l').
Qed.

(** [hist_arr] holds the positive metrics of the candidates, each as often
    as it occurs, in increasing order. *)
Lemma positive_metrics_sorted (filters : list stripe) (m : method)
      (candidates : list segment) :
  StronglySorted Rle (positive_metrics filters m candidates)
  /\ Permutation (positive_metrics filters m candidates)
                 (filter (fun h => Rgtb h 0)
                         (map (fun x => calc_noisy_metric x filters m 0 0)
                              candidates)).
Proof.
  unfold positive_metrics. split.
  - apply filter_sorted_R, sorted_is_sorted.
  - apply filter_perm, sorted_perm.
Qed.

Lemma sorted_nth_le (l : list R) (j : nat) (a b : R) :
  StronglySorted Rle l ->
  nth_error l j = Some a -> nth_error l (S j) = Some b -> (a <= b)%R.
Proof.
  intros Hs Ha Hb.
  rewrite <- (firstn_skipn (S j) l) in Hs.
  apply (sorted_app_le _ _ a b Hs).
  - apply (nth_error_In _ j). rewrite nth_error_firstn.
    destruct (Nat.ltb_spec j (S j)) as [_ | H]; [exact Ha | lia].
  - now apply nth_error_skipn_In.
Qed.

(** C1 (amended). For a density-score method the threshold is the adaptive
    one.  Let [hist_arr] be the positive metrics of the size-filtered
    candidates in increasing order and [k] the float64 product
    [len(hist_arr) * noise_freq], truncated.  Whenever [1 <= k < len(hist_arr)],
    the threshold is the mean of the entries [k - 1] and [k] of [hist_arr],
    the first positive and not above the second, and
    [produce_tads_segmentation] keeps, after the size filter, exactly the
    candidates whose metric exceeds it.  The constant threshold [0] is the one
    of [produce_boundaries_segmentation], which keeps exactly the boundaries
    whose metric exceeds [0]. *)
Theorem adaptive_threshold_active {G W : Type}
        (oracle : method -> matrix -> G -> list bool -> list segment)
        (mtx : matrix) (filters : list stripe) (gamma : G)
        (good_bins : list bool) (m : method) (mis mts : Z) (k : Z)
        (find_boundaries : W -> Z -> list boundary) (window : W)
        (resolution k' : Z) :
  let candidates := size_filter mis mts (oracle m mtx gamma good_bins) in
  let hist_arr := positive_metrics filters m candidates in
  density_score m ->
  noise_index (Z.of_nat (length hist_arr)) (noisy_bins filters)
              (Z.of_nat (length mtx)) = ok k ->
  1 <= k < Z.of_nat (length hist_arr) ->
  (exists a b : R,
      nth_error hist_arr (Z.to_nat (k - 1)) = Some a
      /\ nth_error hist_arr (Z.to_nat k) = Some b
      /\ (0 < a <= b)%R
      /\ produce_tads_segmentation oracle mtx filters gamma (Some good_bins) m
                                   mis mts
         = Some (filter (fun x => Rgtb (calc_noisy_metric x filters m 0 0)
                                       ((a + b) / 2))
                        candidates))
  /\ StronglySorted Rle hist_arr
  /\ Permutation hist_arr
                 (filter (fun h => Rgtb h 0)
                         (map (fun x => calc_noisy_metric x filters m 0 0)
                              candidates))
  /\ fst (produce_boundaries_segmentation find_boundaries filters window
                                          Insulation resolution k')
     = filter (fun x => Rgtb (calc_noisy_metric x filters Insulation resolution k') 0)
              (map (fun b => (b_start b, b_end b))
                   (filter (fun b => notnull (b_strength b))
                           (find_boundaries window k'))).
Proof.
  intros candidates hist_arr Hm Hk Hrange.
  destruct (positive_metrics_sorted filters m candidates) as [Hsorted Hperm].
  fold hist_arr in Hsorted, Hperm.
  split; [| split; [exact Hsorted | split; [exact Hperm |]]].
  - set (j := Z.to_nat (k - 1)).
    assert (HSj : Z.to_nat k = S j) by (unfold j; lia).
    destruct (nth_error hist_arr j) as [a |] eqn:Ha;
      [| apply nth_error_None in Ha; lia].
    destruct (nth_error hist_arr (S j)) as [b |] eqn:Hb;
      [| apply nth_error_None in Hb; lia].
    exists a, b. rewrite HSj.
    split; [reflexivity |]. split; [exact Hb |].
    split.
    + split; [| exact (sorted_nth_le hist_arr j a b Hsorted Ha Hb)].
      apply (positive_metrics_pos filters m candidates).
      eapply nth_error_In. exact Ha.
    + assert (Ht : noise_threshold hist_arr (noisy_bins filters)
                                   (Z.of_nat (length mtx))
                   = ok ((a + b) / 2)%R).
      { apply noise_threshold_position. exists k, j, a, b.
        split; [exact Hk |].
        split; [destruct (Z.ltb_spec k 0); lia |].
        repeat split; assumption. }
      rewrite produce_tads_segmentation_density by exact Hm.
      fold candidates. fold hist_arr. unfold ok in Ht. now rewrite Ht.
  - unfold produce_boundaries_segmentation. cbv zeta. cbn [fst].
    apply np_select_metric.
Qed.

Lemma example_noise_index :
  noise_index
    (Z.of_nat (length (positive_metrics example_filters Armatus
                 (size_filter 3 1000
                    (example_oracle Armatus example_mtx 1 example_good_bins)))))
    (noisy_bins example_filters) (Z.of_nat (length example_mtx))
  = ok 1.
Proof.
  rewrite example_candidates, example_positive_metrics. vm_compute. reflexivity.
Qed.

Lemma adaptive_threshold_active_witness :
  let candidates :=
    size_filter 3 1000 (example_oracle Armatus example_mtx 1 example_good_bins) in
  let hist_arr := positive_metrics example_filters Armatus candidates in
  let find_boundaries :=
    fun (_ : Z) (_ : Z) =>
      [ {| b_start := 2; b_end := 3;
           b_insulation := Some (1 # 2); b_strength := Some (3 # 10) |};
        {| b_start := 20; b_end := 21;
           b_insulation := Some (1 # 4); b_strength := Some (1 # 10) |};
        {| b_start := 33; b_end := 34;
           b_insulation := Some (1 # 4); b_strength := None |};
        {| b_start := 36; b_end := 37;
           b_insulation := Some (1 # 3); b_strength := Some (2 # 10) |} ] in
  (exists a b : R,
      nth_error hist_arr (Z.to_nat (1 - 1)) = Some a
      /\ nth_error hist_arr (Z.to_nat 1) = Some b
      /\ (0 < a <= b)%R
      /\ produce_tads_segmentation example_oracle example_mtx example_filters 1
                                   (Some example_good_bins) Armatus 3 1000
         = Some (filter (fun x => Rgtb (calc_noisy_metric x example_filters
                                                          Armatus 0 0)
                                       ((a + b) / 2))
                        candidates))
  /\ StronglySorted Rle hist_arr
  /\ Permutation hist_arr
                 (filter (fun h => Rgtb h 0)
                         (map (fun x => calc_noisy_metric x example_filters
                                                          Armatus 0 0)
                              candidates))
  /\ fst (produce_boundaries_segmentation find_boundaries example_filters 5
                                          Insulation 1 1)
     = filter (fun x => Rgtb (calc_noisy_metric x example_filters Insulation
                                                1 1) 0)
              (map (fun b => (b_start b, b_end b))
                   (filter (fun b => notnull (b_strength b))
                           (find_boundaries 5 1))).
Proof.
  intros candidates hist_arr find_boundaries.
  apply (adaptive_threshold_active example_oracle example_mtx example_filters 1
           example_good_bins Armatus 3 1000 1 find_boundaries 5 1 1).
  - now left.
  - exact example_noise_index.
  - rewrite example_candidates, example_positive_metrics. cbn [length]. lia.
Defined.

(** ** NoiseMaskBuilder *)

Lemma append_last_Forall (P : Z -> Prop) (v_tmp : list (list Z)) (a : Z) :
  Forall (Forall P) v_tmp -> P a -> Forall (Forall P) (append_last v_tmp a).
Proof.
  intros H Ha. induction H as [| row rest Hrow Hrest IH]; [constructor |].
  simpl. destruct rest as [| row' rest'].
  - constructor; [| constructor]. apply Forall_app. split; [exact Hrow |].
    constructor; [exact Ha | constructor].
  - constructor; [exact Hrow | exact IH].
Qed.

Lemma as_pairs_Forall (P : Z -> Prop) (v_tmp : list (list Z)) (ps : list stripe) :
  Forall (Forall P) v_tmp -> as_pairs v_tmp = ok ps ->
  Forall (fun s => P (fst s) /\ P (snd s)) ps.
Proof.
  intros H. revert ps. induction H as [| row rest Hrow Hrest IH]; intros ps Hps.
  - injection Hps as <-. constructor.
  - destruct row as [| a [| b [| c row]]]; try discriminate Hps.
    cbn [as_pairs] in Hps.
    destruct (as_pairs rest) as [e | ps']; [discriminate Hps |].
    injection Hps as <-.
    constructor; [| now apply IH].
    inversion Hrow as [| ? ? Pa Hrow']; subst.
    inversion Hrow' as [| ? ? Pb _]; subst. now split.
Qed.

(** The stripes are made of entries of [v], and pass the width filter. *)
Lemma group_stripes_entries (v : list Z) (filt : list stripe) :
  group_stripes v = ok filt ->
  Forall (fun s => In (fst s) v /\ In (snd s) v /\ fst s <= snd s) filt.
Proof.
  unfold group_stripes.
  destruct (py_get v 0) as [e | v0] eqn:Hv0; [discriminate |]. cbn [bind].
  apply py_get_In in Hv0.
  assert (Hfold : forall idxs st,
             Forall (fun i => (i < length v)%nat) idxs ->
             Forall (Forall (fun z => In z v)) (fst st) -> In (snd st) v ->
             Forall (Forall (fun z => In z v))
                    (fst (fold_left (stripes_step v) idxs st))
             /\ In (snd (fold_left (stripes_step v) idxs st)) v).
  { induction idxs as [| i idxs IH]; intros [v_tmp v_prev] His Htmp Hprev;
      [now split |].
    inversion His as [| ? ? Hi His']; subst. cbn [fold_left].
    assert (Hvi : In (nth i v 0) v) by (apply nth_In; exact Hi).
    apply IH; [exact His' | |]; unfold stripes_step;
      destruct (nth i v 0 - v_prev =? 1); cbn [fst snd] in *; try assumption.
    apply append_last_Forall; [| exact Hvi].
    apply Forall_app. split; [| repeat constructor].
    apply append_last_Forall; assumption. }
  specialize (Hfold (stripes_range v) ([[v0]], v0)).
  destruct (fold_left (stripes_step v) (stripes_range v) ([[v0]], v0))
    as [v_tmp v_prev].
  destruct Hfold as [Htmp Hprev].
  - unfold stripes_range. apply Forall_forall. intros i Hi.
    apply in_seq in Hi. lia.
  - repeat constructor. exact Hv0.
  - exact Hv0.
  - cbn [fst snd] in *.
    destruct (as_pairs (append_last v_tmp v_prev)) as [e | rows] eqn:Hrows;
      [discriminate |].
    cbn [bind]. intros H. injection H as <-.
    pose proof (as_pairs_Forall (fun z => In z v) _ _
                  (append_last_Forall _ _ _ Htmp Hprev) Hrows) as Hall.
    apply Forall_forall. intros s Hs. apply filter_In in Hs.
    destruct Hs as [Hs Hw]. rewrite Forall_forall in Hall.
    destruct (Hall s Hs) as [H1 H2]. repeat split; [exact H1 | exact H2 | lia].
Qed.

Lemma set_false_from_nth (good_bins : list bool) (i a b : Z) (k : nat) :
  (k < length good_bins)%nat ->
  nth k (set_false_from good_bins i a b) true
  = if (a <=? i + Z.of_nat k) && (i + Z.of_nat k <? b) then false
    else nth k good_bins true.
Proof.
  revert i k. induction good_bins as [| g rest IH]; intros i k Hk;
    [simpl in Hk; lia |].
  destruct k as [| k]; cbn [set_false_from nth].
  - now rewrite Z.add_0_r.
  - rewrite IH by (simpl in Hk; lia).
    now replace (i + 1 + Z.of_nat k) with (i + Z.of_nat (S k)) by lia.
Qed.

Lemma set_false_from_length (good_bins : list bool) (i a b : Z) :
  length (set_false_from good_bins i a b) = length good_bins.
Proof.
  revert i. induction good_bins as [| g rest IH]; intros i; simpl;
    [reflexivity | now rewrite IH].
Qed.

Lemma set_false_nth (good_bins : list bool) (a b : Z) (k : nat) :
  0 <= a -> 0 <= b -> (k < length good_bins)%nat ->
  nth k (set_false good_bins a b) true = false
  <-> a <= Z.of_nat k < b \/ nth k good_bins true = false.
Proof.
  intros Ha Hb Hk. unfold set_false, slice_bound.
  rewrite set_false_from_nth by exact Hk.
  destruct (a <? 0) eqn:Han; [lia |]. destruct (b <? 0) eqn:Hbn; [lia |].
  destruct ((Z.min a (Z.of_nat (length good_bins)) <=? 0 + Z.of_nat k)
            && (0 + Z.of_nat k <? Z.min b (Z.of_nat (length good_bins)))) eqn:Hin.
  - split; [intros _; left; lia | reflexivity].
  - split; [intros H; now right | intros [H | H]; [lia | exact H]].
Qed.

(** The mask of a density-score method is [False] exactly on the bins that
    lie in one of the returned intervals, both ends included. *)
Lemma good_bins_cover_filters (mtx mtx' : matrix) (m : method) (resolution : Z)
      (filters : list stripe) (good_bins : list bool) (k : nat) :
  is_insulation m = false ->
  get_noisy_stripes mtx m resolution = ok (filters, mtx', good_bins) ->
  (k < length mtx)%nat ->
  nth k good_bins true = false
  <-> exists s, In s filters /\ fst s <= Z.of_nat k <= snd s.
Proof.
  intros Hm. unfold get_noisy_stripes. rewrite Hm.
  destruct (group_stripes (zero_rows mtx)) as [e | filt] eqn:Hfilt;
    [discriminate |].
  cbn [bind]. apply group_stripes_entries in Hfilt.
  assert (Hfold : forall fs gb0,
             Forall (fun s => 0 <= fst s <= snd s) fs ->
             (k < length gb0)%nat ->
             exists gb, fold_left (mask_stripe m resolution) fs (ok gb0) = ok gb
                        /\ length gb = length gb0
                        /\ (nth k gb true = false
                            <-> nth k gb0 true = false
                                \/ exists s, In s fs /\ fst s <= Z.of_nat k <= snd s)).
  { induction fs as [| s fs IH]; intros gb0 Hfs Hk.
    - exists gb0. split; [reflexivity | split; [reflexivity |]].
      split; [now left | intros [H | [s [[] _]]]; exact H].
    - inversion Hfs as [| ? ? Hs Hfs']; subst.
      cbn [fold_left]. unfold mask_stripe at 2. cbn [bind ok]. rewrite Hm.
      fold (@ok (list bool) (set_false gb0 (fst s) (snd s + 1))).
      destruct (IH (set_false gb0 (fst s) (snd s + 1)) Hfs')
        as [gb [Hgb [Hlen Hiff]]].
      { unfold set_false. now rewrite set_false_from_length. }
      exists gb. split; [exact Hgb |].
      split; [rewrite Hlen; unfold set_false; now rewrite set_false_from_length |].
      rewrite Hiff, set_false_nth by lia.
      split.
      + intros [[H | H] | [s' [Hin H]]].
        * right. exists s. split; [now left | lia].
        * now left.
        * right. exists s'. split; [now right | exact H].
      + intros [H | [s' [[<- | Hin] H]]].
        * left. now right.
        * left. left. lia.
        * right. now exists s'. }
  intros Hget Hk.
  destruct (Hfold filt (repeat true (length mtx))) as [gb [Hgb [Hlen Hiff]]].
  - rewrite Forall_forall in *. intros s Hs.
    destruct (Hfilt s Hs) as [H1 [_ H3]]. split; [| exact H3].
    unfold zero_rows in H1. apply in_map_iff in H1.
    destruct H1 as [n [<- _]]. lia.
  - rewrite repeat_length. exact Hk.
  - rewrite Hgb in Hget. cbn [bind ok] in Hget. injection Hget as <- _ <-.
    rewrite Hiff. rewrite nth_repeat.
    split; [intros [H | H]; [discriminate | exact H] | intros H; now right].
Qed.

(** C2 (the code departs from it). Rows 1 and 2 of the 5-bin matrix sum to
    zero, so the maximal run of bad bins is 1..2; the loop
    [for i in range(1, len(v) - 1)] never reads the last bad bin: the only
    interval is [(1, 1)], and bin 2 stays marked good. *)
Theorem last_bad_bin_is_dropped :
  zero_rows two_bad_bins_mtx = [1; 2]
  /\ get_noisy_stripes two_bad_bins_mtx Armatus 1
     = ok ([(1, 1)], two_bad_bins_mtx, [true; false; true; true; true]).
Proof.
  split; reflexivity.
Qed.

Lemma group_stripes_single (b : Z) : group_stripes [b] = ok [(b, b)].
Proof.
  unfold group_stripes. rewrite py_get_head. simpl.
  replace (b - b >=? 0) with true by (symmetry; apply Z.geb_le; lia).
  reflexivity.
Qed.

(** C10 (the code departs from it). A single bad bin does give the
    interval [(b, b)], which passes the width filter; but on a matrix
    without a zero row [v[0]] raises [IndexError] instead of giving an empty
    set of intervals, and an isolated bad bin that comes last among several
    is dropped with the last entry of [v]. *)
Theorem no_bad_bin_raises (m : method) (resolution : Z) :
  zero_rows clean_mtx = []
  /\ get_noisy_stripes clean_mtx m resolution = raise IndexError
  /\ (forall b, group_stripes [b] = ok [(b, b)])
  /\ group_stripes [2; 5] = ok [(2, 2)].
Proof.
  split; [reflexivity |].
  split; [reflexivity |].
  split; [exact group_stripes_single | reflexivity].
Qed.

(** ** The statistics of the insulation pipeline *)

Lemma calc_mean_tad_size_six (boundaries : list boundary) (filters : list stripe)
      (mis mts resolution : Z) :
  length (calc_mean_tad_size boundaries filters mis mts resolution) = 6%nat.
Proof. reflexivity. Qed.

Lemma unpack3_six (t : list pyval) :
  length t = 6%nat -> unpack3 t = raise ValueError.
Proof.
  destruct t as [| a [| b [| c [| d t]]]]; simpl; try discriminate.
  reflexivity.
Qed.

Lemma window_stats_raises {W : Type} (find_boundaries : W -> Z -> list boundary)
      (filters : list stripe) (window : W) (m : method) (resolution mis mts : Z) :
  window_stats find_boundaries filters window m resolution mis mts
  = raise ValueError.
Proof.
  unfold window_stats.
  destruct (produce_boundaries_segmentation find_boundaries filters window m
                                            resolution 3) as [coords boundaries].
  rewrite unpack3_six by apply calc_mean_tad_size_six. reflexivity.
Qed.

(** C5. [calc_mean_tad_size] returns six components and [search_opt_window]
    binds three names to them: the statistics of a window always fail with
    the unpacking [ValueError], and the body of the chromosome loop raises
    before an entry of [stats] is written, whatever the chromosome. *)
Theorem window_statistics_unpack_fails {W : Type} (W_eqb : W -> W -> bool)
        (find_boundaries : W -> Z -> list boundary)
        (mtx : matrix) (grid : list W) (m : method) (resolution mis mts : Z)
        (stats : list (W * stats_entry))
        (boundaries : list boundary) (filters : list stripe) (window : W) :
  length (calc_mean_tad_size boundaries filters mis mts resolution) = 6%nat
  /\ unpack3 (calc_mean_tad_size boundaries filters mis mts resolution)
     = raise ValueError
  /\ window_stats find_boundaries filters window m resolution mis mts
     = raise ValueError
  /\ exists e, search_opt_window_chrom W_eqb find_boundaries mtx grid m
                                       resolution mis mts stats = raise e.
Proof.
  split; [apply calc_mean_tad_size_six |].
  split; [apply unpack3_six, calc_mean_tad_size_six |].
  split; [apply window_stats_raises |].
  unfold search_opt_window_chrom.
  destruct (get_noisy_stripes mtx m resolution) as [e | [[fs mtx'] gb]];
    [now exists e |].
  cbn [bind].
  destruct (py_get grid 0) as [e | w0]; [now exists e |].
  cbn [bind]. rewrite window_stats_raises. now exists ValueError.
Qed.

(** ** BoundaryNarrower *)

Lemma R_insert_length (a : R) (l : list R) : length (R_insert a l) = S (length l).
Proof.
  induction l as [| b t IH]; simpl; [reflexivity |].
  destruct (Rlt_dec a b); simpl; [reflexivity | now rewrite IH].
Qed.

Lemma sorted_length (l : list R) : length (sorted l) = length l.
Proof.
  induction l as [| a t IH]; simpl; [reflexivity |].
  now rewrite R_insert_length, IH.
Qed.

(** With the index [0] the threshold cannot be computed. *)
Lemma noise_threshold_raises (hist : list R) (bins n : Z) :
  noise_index (Z.of_nat (length hist)) bins n = ok 0 ->
  exists e, noise_threshold hist bins n = raise e.
Proof.
  intros Hk. unfold noise_threshold. rewrite Hk. cbn [bind ok].
  unfold py_slice_to. simpl firstn.
  destruct (py_get_nil (A := R) (-1)) as [e He]. rewrite He.
  now exists e.
Qed.

Lemma produce_tads_segmentation_low_noise {G : Type}
      (oracle : method -> matrix -> G -> list bool -> list segment)
      (mtx : matrix) (filters : list stripe) (gamma : G)
      (good_bins : list bool) (m : method) (mis mts : Z) :
  density_score m ->
  (forall l : nat,
      (l <= length (size_filter mis mts (oracle m mtx gamma good_bins)))%nat ->
      noise_index (Z.of_nat l) (noisy_bins filters) (Z.of_nat (length mtx))
      = ok 0) ->
  produce_tads_segmentation oracle mtx filters gamma (Some good_bins) m mis mts
  = Some (size_filter mis mts (oracle m mtx gamma good_bins)).
Proof.
  intros Hm Hidx. rewrite produce_tads_segmentation_density by exact Hm.
  destruct (noise_threshold_raises
              (positive_metrics filters m
                 (size_filter mis mts (oracle m mtx gamma good_bins)))
              (noisy_bins filters) (Z.of_nat (length mtx))) as [e He].
  - apply Hidx. unfold positive_metrics.
    pose proof (filter_length_le (fun h => Rgtb h 0)
                  (sorted (map (fun x => calc_noisy_metric x filters m 0 0)
                               (size_filter mis mts (oracle m mtx gamma good_bins)))))
      as Hle.
    rewrite sorted_length, length_map in Hle. exact Hle.
  - unfold raise in He. now rewrite He.
Qed.

(** On the 100-bin example of the narrower, with one bad bin in a stripe, up
    to two candidates give the index [0]. *)
Lemma stall_noise_index (l : nat) :
  (l <= 2)%nat ->
  noise_index (Z.of_nat l) (noisy_bins stall_filters)
              (Z.of_nat (length stall_mtx)) = ok 0.
Proof.
  intros Hl. destruct l as [| [| [| l]]]; [| | | lia]; vm_compute; reflexivity.
Qed.

Lemma stall_len_segments (gamma : Z) :
  len_segments_at stall_oracle stall_mtx stall_filters (Some stall_good_bins) Armatus 3 1000 gamma
  = ok (if gamma <=? 2 then 1%nat else 2%nat).
Proof.
  unfold len_segments_at.
  rewrite produce_tads_segmentation_low_noise.
  - unfold stall_oracle. now destruct (gamma <=? 2).
  - now left.
  - intros l Hl. apply stall_noise_index.
    unfold stall_oracle in Hl. destruct (gamma <=? 2); cbn in Hl; lia.
Qed.

(** C4 (as stated, refuted). On the grid [0..5], with a segment count that
    differs between [gamma = 2] and [gamma = 5], the second turn of the loop
    moves the bounds from [(2, 0)] to [(4, 2)]: the index distance is [2]
    before and after. *)
Lemma bisection_distance_can_stall :
  ~ distance_strictly_decreases stall_oracle stall_mtx stall_filters (Some stall_good_bins)
                                Armatus 3 1000 round_half_even stall_grid Upper.
Proof.
  intros H.
  set (st0 := {| bound_1 := 5; bound_1_prev := 5; bound_2 := 0;
                 len_segments_prev := 0; is_begin := true; delta := 6 |}).
  set (st1 := {| bound_1 := 2; bound_1_prev := 5; bound_2 := 0;
                 len_segments_prev := 2; is_begin := false; delta := 2 |}).
  set (st2 := {| bound_1 := 4; bound_1_prev := 5; bound_2 := 2;
                 len_segments_prev := 2; is_begin := false; delta := 2 |}).
  assert (H01 : adjust_step stall_oracle stall_mtx stall_filters (Some stall_good_bins) Armatus
                            3 1000 round_half_even stall_grid st0 = ok st1).
  { unfold adjust_step. rewrite stall_len_segments. reflexivity. }
  assert (H12 : adjust_step stall_oracle stall_mtx stall_filters (Some stall_good_bins) Armatus
                            3 1000 round_half_even stall_grid st1 = ok st2).
  { unfold adjust_step. rewrite stall_len_segments. reflexivity. }
  assert (L0 : loop_state stall_oracle stall_mtx stall_filters (Some stall_good_bins) Armatus
                          3 1000 round_half_even stall_grid Upper st0)
    by (apply loop_start; reflexivity).
  assert (L1 : loop_state stall_oracle stall_mtx stall_filters (Some stall_good_bins) Armatus
                          3 1000 round_half_even stall_grid Upper st1)
    by (eapply loop_turn; [exact L0 | reflexivity | exact H01]).
  specialize (H st1 st2 L1 eq_refl H12). simpl in H. lia.
Qed.

Lemma np_where_from_nth {A : Type} (p : A -> bool) (l : list A) (k j : nat) :
  In j (np_where_from p l k) ->
  exists d a, j = (k + d)%nat /\ nth_error l d = Some a /\ p a = true.
Proof.
  revert k. induction l as [| y t IH]; intros k Hin; [destruct Hin |].
  simpl in Hin.
  assert (Htail : In j (np_where_from p t (S k)) ->
                  exists d a, j = (k + d)%nat /\ nth_error (y :: t) d = Some a
                              /\ p a = true).
  { intros H. destruct (IH (S k) H) as [d [a [Hj [Hn Hp]]]].
    exists (S d), a. split; [lia | split; [exact Hn | exact Hp]]. }
  destruct (p y) eqn:Hy; [| now apply Htail].
  destruct Hin as [<- | Hin]; [| now apply Htail].
  exists 0%nat, y. split; [lia | split; [reflexivity | exact Hy]].
Qed.

Lemma grid_index_nth (grid : list Z) (b i : Z) :
  grid_index grid b = ok i ->
  exists n, i = Z.of_nat n /\ nth_error grid n = Some b.
Proof.
  unfold grid_index.
  destruct (np_where (Z.eqb b) grid) as [| n [| n' rest]] eqn:Hw; try discriminate.
  intros H. injection H as <-.
  destruct (np_where_from_nth (Z.eqb b) grid 0 n) as [d [a [Hn [Hnth Ha]]]].
  - unfold np_where in Hw. rewrite Hw. now left.
  - apply Z.eqb_eq in Ha. subst a. simpl in Hn. subst d.
    exists n. split; [reflexivity | exact Hnth].
Qed.

Lemma increasing_adjacent (l : list Z) (k : nat) (a b : Z) :
  StronglySorted Z.lt l ->
  nth_error l k = Some a -> nth_error l (S k) = Some b -> a < b.
Proof.
  intros Hs. revert k. induction Hs as [| x t Hs IH Hx]; intros k Ha Hb.
  - destruct k; discriminate.
  - destruct k as [| k].
    + injection Ha as <-. rewrite Forall_forall in Hx. apply Hx.
      apply (nth_error_In t 0). exact Hb.
    + exact (IH k Ha Hb).
Qed.

Lemma increasing_nth (l : list Z) (i d : nat) (a b : Z) :
  StronglySorted Z.lt l ->
  nth_error l i = Some a -> nth_error l (i + d) = Some b ->
  Z.of_nat d <= b - a.
Proof.
  intros Hs Ha. revert b. induction d as [| d IH]; intros b Hb.
  - rewrite Nat.add_0_r in Hb. rewrite Ha in Hb. injection Hb as <-. lia.
  - replace (i + S d)%nat with (S (i + d)) in Hb by lia.
    destruct (nth_error l (i + d)) as [c |] eqn:Hc.
    + specialize (IH c eq_refl).
      pose proof (increasing_adjacent l (i + d) c b Hs Hc Hb). lia.
    + apply nth_error_None in Hc.
      assert (Hlt : (S (i + d) < length l)%nat)
        by (apply nth_error_Some; congruence).
      lia.
Qed.

Lemma index_distance_le (grid : list Z) (b1 b2 i1 i2 : Z) :
  StronglySorted Z.lt grid ->
  grid_index grid b1 = ok i1 -> grid_index grid b2 = ok i2 ->
  Z.abs (i1 - i2) <= Z.abs (b1 - b2).
Proof.
  intros Hs H1 H2.
  destruct (grid_index_nth grid b1 i1 H1) as [n1 [-> Hn1]].
  destruct (grid_index_nth grid b2 i2 H2) as [n2 [-> Hn2]].
  destruct (Nat.le_ge_cases n1 n2) as [Hle | Hle].
  - replace n2 with (n1 + (n2 - n1))%nat in Hn2 by lia.
    pose proof (increasing_nth grid n1 (n2 - n1) b1 b2 Hs Hn1 Hn2). lia.
  - replace n1 with (n2 + (n1 - n2))%nat in Hn1 by lia.
    pose proof (increasing_nth grid n2 (n1 - n2) b2 b1 Hs Hn2 Hn1). lia.
Qed.

Lemma round_mid_between (round_up : Z -> bool) (a b : Z) :
  Z.min a b <= round_mid round_up a b <= Z.max a b
  /\ 2 * Z.abs (round_mid round_up a b - b) <= Z.abs (a - b) + 1
  /\ 2 * Z.abs (a - round_mid round_up a b) <= Z.abs (a - b) + 1.
Proof.
  unfold round_mid.
  pose proof (Z.div_mod (a + b) 2 ltac:(lia)) as Hdm.
  pose proof (Zmod_even (a + b)) as Hev.
  destruct (Z.even (a + b)); [| destruct (round_up (a + b))]; lia.
Qed.

(** On the unordered grid [1, 5, 7, 2] the bounds stay at [(2, 1)], three
    grid positions apart: the loop never ends. *)
Lemma unordered_grid_never_ends (fuel : nat) :
  adjust_boundaries stall_oracle stall_mtx stall_filters (Some stall_good_bins)
                    Armatus 3 1000 round_half_even unordered_grid fuel Upper 1
                    (1 # 100)
  = None.
Proof.
  set (st0 := {| bound_1 := 2; bound_1_prev := 2; bound_2 := 1;
                 len_segments_prev := 0; is_begin := true; delta := 4 |}).
  set (st1 := {| bound_1 := 2; bound_1_prev := 2; bound_2 := 1;
                 len_segments_prev := 1; is_begin := false; delta := 3 |}).
  assert (H01 : adjust_step stall_oracle stall_mtx stall_filters
                            (Some stall_good_bins) Armatus 3 1000 round_half_even
                            unordered_grid st0 = ok st1).
  { unfold adjust_step. rewrite stall_len_segments. reflexivity. }
  assert (H11 : adjust_step stall_oracle stall_mtx stall_filters
                            (Some stall_good_bins) Armatus 3 1000 round_half_even
                            unordered_grid st1 = ok st1).
  { unfold adjust_step. rewrite stall_len_segments. reflexivity. }
  assert (Hloop : forall n,
             adjust_loop stall_oracle stall_mtx stall_filters
                         (Some stall_good_bins) Armatus 3 1000 round_half_even
                         unordered_grid n st1 = None).
  { induction n as [| n IH]; [reflexivity |].
    cbn [adjust_loop]. unfold ok in H11. rewrite H11. exact IH. }
  unfold adjust_boundaries.
  change (narrow_init unordered_grid Upper) with (ok st0). unfold ok.
  destruct fuel as [| fuel]; [reflexivity |].
  cbn [adjust_loop]. unfold ok in H01. rewrite H01. now rewrite Hloop.
Qed.

Section NarrowerFacts.

Variable optimal_segmentation : method -> matrix -> Z -> list bool -> list segment.
Variable mtx : matrix.
Variable filters : list stripe.
Variable good_bins : option (list bool).
Variable m : method.
Variables mis mts : Z.
Variable round_up : Z -> bool.
Variable grid : list Z.

Hypothesis grid_increasing : StronglySorted Z.lt grid.

Local Abbreviation step :=
  (adjust_step optimal_segmentation mtx filters good_bins m mis mts round_up grid).
Local Abbreviation loop :=
  (adjust_loop optimal_segmentation mtx filters good_bins m mis mts round_up grid).

(** What one turn does to the three bounds. *)
Lemma adjust_step_shape (st st' : narrow_state) :
  step st = ok st' ->
  delta_is_index_distance grid st'
  /\ is_begin st' = false
  /\ ((is_begin st = false
       /\ bound_1 st' = round_mid round_up (bound_1 st) (bound_1_prev st)
       /\ bound_1_prev st' = bound_1_prev st
       /\ bound_2 st' = bound_1 st)
      \/ (bound_1 st' = round_mid round_up (bound_1 st) (bound_2 st)
          /\ bound_1_prev st' = bound_1 st
          /\ bound_2 st' = bound_2 st)).
Proof.
  unfold adjust_step, delta_is_index_distance.
  destruct (len_segments_at _ _ _ _ _ _ _ _) as [e | len]; [discriminate |].
  cbn [bind].
  destruct (negb (len =? (if is_begin st then len else len_segments_prev st))%nat)
    eqn:Hdiff; cbn [bound_1 bound_1_prev bound_2 len_segments_prev].
  - destruct (grid_index grid (round_mid round_up (bound_1 st) (bound_1_prev st)))
      as [e | i1] eqn:H1; [discriminate |].
    cbn [bind].
    destruct (grid_index grid (bound_1 st)) as [e | i2] eqn:H2; [discriminate |].
    cbn [bind]. intros H. injection H as <-. cbn.
    split; [intros _; exists i1, i2; now rewrite H1, H2 |].
    split; [reflexivity |]. left.
    destruct (is_begin st); [| tauto].
    rewrite Nat.eqb_refl in Hdiff. discriminate.
  - destruct (grid_index grid (round_mid round_up (bound_1 st) (bound_2 st)))
      as [e | i1] eqn:H1; [discriminate |].
    cbn [bind].
    destruct (grid_index grid (bound_2 st)) as [e | i2] eqn:H2; [discriminate |].
    cbn [bind]. intros H. injection H as <-. cbn.
    split; [intros _; exists i1, i2; now rewrite H1, H2 |].
    split; [reflexivity |]. right. tauto.
Qed.

(** A turn ends the loop or narrows the bracket. *)
Lemma adjust_step_progress (st st' : narrow_state) :
  delta_is_index_distance grid st ->
  delta st > 1 ->
  step st = ok st' ->
  delta st' <= 1 \/ bracket_width st' < bracket_width st.
Proof.
  intros Hinv Hd Hstep.
  destruct (adjust_step_shape st st' Hstep) as [Hinv' [Hb' Hshape]].
  destruct (Hinv' Hb') as [i1 [i2 [Hi1 [Hi2 Hdelta]]]].
  pose proof (index_distance_le grid _ _ _ _ grid_increasing Hi1 Hi2) as Hle.
  unfold bracket_width.
  destruct Hshape as [[Hb [E1 [E2 E3]]] | [E1 [E2 E3]]].
  - destruct (Hinv Hb) as [j1 [j2 [Hj1 [Hj2 Hdj]]]].
    pose proof (index_distance_le grid _ _ _ _ grid_increasing Hj1 Hj2) as Hlej.
    pose proof (round_mid_between round_up (bound_1 st) (bound_1_prev st)) as Hmid.
    rewrite E1, E2, E3 in *.
    destruct (bound_1_prev st =? round_mid round_up (bound_1 st) (bound_1_prev st));
      destruct (bound_1_prev st =? bound_1 st) eqn:He; lia.
  - pose proof (round_mid_between round_up (bound_1 st) (bound_2 st)) as Hmid.
    rewrite E1, E2, E3 in *.
    destruct (bound_1 st =? round_mid round_up (bound_1 st) (bound_2 st)) eqn:Hc;
      destruct (bound_1_prev st =? bound_1 st) eqn:He; lia.
Qed.

Lemma loop_state_invariant (ty : side) (st : narrow_state) :
  loop_state optimal_segmentation mtx filters good_bins m mis mts round_up grid ty st ->
  delta_is_index_distance grid st.
Proof.
  intros H. destruct H as [st0 H0 | st st' _ _ Hstep].
  - unfold narrow_init in H0.
    destruct (py_get grid (-1)) as [e | l]; [discriminate |]. cbn [bind] in H0.
    destruct (py_get grid 0) as [e | f]; [discriminate |]. cbn [bind] in H0.
    injection H0 as <-. intros Hb. discriminate Hb.
  - exact (proj1 (adjust_step_shape st st' Hstep)).
Qed.

Lemma bracket_width_nonneg (st : narrow_state) : 0 <= bracket_width st.
Proof.
  unfold bracket_width. destruct (bound_1_prev st =? bound_1 st); lia.
Qed.

Lemma adjust_loop_done (fuel : nat) (st : narrow_state) :
  delta st <= 1 -> loop fuel st = Some (ok st).
Proof.
  intros H.
  assert (Hd : (delta st >? 1) = false)
    by (rewrite Z.gtb_ltb; apply Z.ltb_ge; lia).
  destruct fuel; simpl; rewrite Hd; reflexivity.
Qed.

Lemma adjust_loop_terminates (fuel : nat) (st : narrow_state) :
  delta_is_index_distance grid st ->
  bracket_width st < Z.of_nat fuel ->
  exists r, loop fuel st = Some r.
Proof.
  revert st. induction fuel as [| fuel IH]; intros st Hinv Hw.
  - pose proof (bracket_width_nonneg st). lia.
  - simpl.
    destruct (delta st >? 1) eqn:Hd; [| eexists; reflexivity].
    destruct (step st) as [e | st'] eqn:Hstep; [eexists; reflexivity |].
    assert (Hgt : delta st > 1) by (apply Z.gtb_gt; exact Hd).
    destruct (adjust_step_progress st st' Hinv Hgt Hstep) as [Hdone | Hless].
    + rewrite adjust_loop_done by exact Hdone. eexists; reflexivity.
    + apply IH; [exact (proj1 (adjust_step_shape st st' Hstep)) | lia].
Qed.

Lemma adjust_loop_exit (fuel : nat) (st0 st : narrow_state) :
  loop fuel st0 = Some (ok st) -> delta st <= 1.
Proof.
  revert st0. induction fuel as [| fuel IH]; intros st0; simpl.
  - destruct (delta st0 >? 1) eqn:Hd; [discriminate |].
    intros H. injection H as <-. rewrite Z.gtb_ltb in Hd. apply Z.ltb_ge in Hd. lia.
  - destruct (delta st0 >? 1) eqn:Hd.
    + destruct (step st0) as [e | st']; [discriminate |].
      apply IH.
    + intros H. injection H as <-. rewrite Z.gtb_ltb in Hd. apply Z.ltb_ge in Hd. lia.
Qed.

End NarrowerFacts.

(** C4 (amended). On every strictly increasing grid the loop of
    [adjust_boundaries] terminates: a turn either brings the index distance
    to at most [1] or strictly narrows the bracket
    [2 * (|bound_1 - bound_2| + |bound_1_prev - bound_1|)] (plus one while
    [bound_1_prev = bound_1]), so the loop is over within [narrow_fuel]
    turns, by a failed lookup or with an index distance of at most [1].  The
    index distance itself need not decrease at every turn. *)
Theorem adjust_boundaries_terminates
        (oracle : method -> matrix -> Z -> list bool -> list segment)
        (mtx : matrix) (filters : list stripe) (good_bins : option (list bool))
        (m : method) (mis mts : Z) (round_up : Z -> bool) (grid : list Z)
        (ty : side) (start_step : Z) (eps : Q) :
  StronglySorted Z.lt grid ->
  (forall st st',
      loop_state oracle mtx filters good_bins m mis mts round_up grid ty st ->
      delta st > 1 ->
      adjust_step oracle mtx filters good_bins m mis mts round_up grid st = ok st' ->
      delta st' <= 1 \/ bracket_width st' < bracket_width st)
  /\ (exists r, adjust_boundaries oracle mtx filters good_bins m mis mts round_up
                                  grid (narrow_fuel grid ty) ty start_step eps
                = Some r)
  /\ (forall fuel st0 st,
         adjust_loop oracle mtx filters good_bins m mis mts round_up grid fuel st0
         = Some (ok st) ->
         delta st <= 1).
Proof.
  intros Hs. split; [| split].
  - intros st st' Hl Hd Hstep.
    eapply adjust_step_progress; try eassumption.
    eapply loop_state_invariant; eassumption.
  - unfold adjust_boundaries, narrow_fuel.
    destruct (narrow_init grid ty) as [e | st0] eqn:H0; [eexists; reflexivity |].
    destruct (adjust_loop_terminates oracle mtx filters good_bins m mis mts round_up
                grid Hs (Z.to_nat (bracket_width st0 + 1)) st0) as [r Hr].
    + eapply loop_state_invariant.
      apply (loop_start oracle mtx filters good_bins m mis mts round_up grid ty).
      exact H0.
    + pose proof (bracket_width_nonneg st0). lia.
    + rewrite Hr. destruct r as [e | st]; eexists; reflexivity.
  - intros fuel st0 st. apply adjust_loop_exit.
Qed.

Lemma adjust_boundaries_terminates_witness :
  exists r, adjust_boundaries stall_oracle stall_mtx stall_filters (Some stall_good_bins) Armatus
                              3 1000 round_half_even stall_grid
                              (narrow_fuel stall_grid Upper) Upper 1 (1 # 100)
            = Some r.
Proof.
  apply (adjust_boundaries_terminates stall_oracle stall_mtx stall_filters (Some stall_good_bins)
           Armatus 3 1000 round_half_even stall_grid Upper 1 (1 # 100)).
  unfold stall_grid. repeat constructor.
Defined.

(** ** GlobalOptimumFinder *)

Lemma max_item_from_first {K : Type} (t pre mid : list (K * Z)) (best : K * Z) :
  (forall q, In q pre -> snd q < snd best) ->
  (forall q, In q mid -> snd q <= snd best) ->
  first_max (pre ++ best :: mid ++ t) (max_item_from t best).
Proof.
  revert pre mid best. induction t as [| x t IH]; intros pre mid best Hpre Hmid.
  - simpl. rewrite app_nil_r. exists pre, mid. tauto.
  - simpl. destruct (snd x >? snd best) eqn:Hx.
    + apply Z.gtb_gt in Hx.
      replace (pre ++ best :: mid ++ x :: t)
        with ((pre ++ best :: mid) ++ x :: [] ++ t)
        by (rewrite <- app_assoc; reflexivity).
      apply IH.
      * intros q Hq. apply in_app_or in Hq. destruct Hq as [Hq | [<- | Hq]].
        -- specialize (Hpre q Hq). lia.
        -- lia.
        -- specialize (Hmid q Hq). lia.
      * intros q [].
    + rewrite Z.gtb_ltb in Hx. apply Z.ltb_ge in Hx.
      replace (pre ++ best :: mid ++ x :: t)
        with (pre ++ best :: (mid ++ [x]) ++ t)
        by (rewrite <- app_assoc; reflexivity).
      apply IH; [exact Hpre |].
      intros q Hq. apply in_app_or in Hq. destruct Hq as [Hq | [<- | []]].
      * exact (Hmid q Hq).
      * exact Hx.
Qed.

Lemma py_max_item_first {K : Type} (d : list (K * Z)) :
  d <> [] -> exists p, py_max_item d = ok p /\ first_max d p.
Proof.
  destruct d as [| p t]; [congruence | intros _].
  exists (max_item_from t p). split; [reflexivity |].
  apply (max_item_from_first t [] [] p); intros q [].
Qed.

Lemma dict_set_nonempty {K V : Type} (eqb : K -> K -> bool) (k : K) (v : V)
      (d : list (K * V)) :
  dict_set eqb k v d <> [].
Proof.
  destruct d as [| [k' v'] rest]; simpl; [discriminate |].
  destruct (eqb k' k); discriminate.
Qed.

Section OptimumFacts.

Context {G : Type}.
Variable optimal_segmentation : method -> matrix -> G -> list bool -> list segment.
Variable mtx : matrix.
Variable filters : list stripe.
Variable good_bins : option (list bool).
Variable m : method.
Variables mis mts : Z.

Hypothesis method_density : density_score m.

Local Abbreviation segs :=
  (segmentation_of optimal_segmentation mtx filters good_bins m mis mts).

Lemma segments_at_density (gamma : G) :
  segments_at optimal_segmentation mtx filters good_bins m mis mts gamma
  = ok (segs gamma).
Proof.
  unfold segments_at, segmentation_of.
  destruct (produce_tads_segmentation optimal_segmentation mtx filters gamma
                                      good_bins m mis mts) as [s |] eqn:H;
    [reflexivity |].
  unfold produce_tads_segmentation in H.
  destruct method_density as [-> | ->];
    destruct (noise_threshold _ _ _) in H; discriminate.
Qed.

End OptimumFacts.

Lemma hollow_segmentation (gamma : Z) :
  produce_tads_segmentation hollow_oracle stall_mtx stall_filters gamma
                            (Some stall_good_bins) Armatus 3 1000
  = Some (if gamma =? 0 then [(0, 20)] else if gamma =? 1 then [] else [(0, 16)]).
Proof.
  rewrite produce_tads_segmentation_low_noise.
  - unfold hollow_oracle.
    destruct (gamma =? 0); [reflexivity |]. destruct (gamma =? 1); reflexivity.
  - now left.
  - intros l Hl. apply stall_noise_index.
    unfold hollow_oracle in Hl.
    destruct (gamma =? 0); [cbn in Hl; lia |].
    destruct (gamma =? 1); cbn in Hl; lia.
Qed.

(** The comparisons of the scan are those of float64: around the target
    [16] the mean sizes [94 / 6] and [49 / 3] are at the same distance as
    rationals, and the first is not as close as the second in float64. *)
Lemma closer_compares_floats :
  let t := f64_of_int 16 in
  let x := f64_div (f64_of_int 94) (f64_of_int 6) in
  let x_prev := f64_div (f64_of_int 49) (f64_of_int 3) in
  crossing t x x_prev = true
  /\ closer t x x_prev = false
  /\ (Qabs ((94 # 6) - 16) == Qabs ((49 # 3) - 16))%Q.
Proof.
  split; [vm_compute; reflexivity |]. split; [vm_compute; reflexivity |].
  apply Qeq_bool_iff. vm_compute. reflexivity.
Qed.

(** C3 (the code departs from it). On the grid [0, 1, 2] with the target
    [16], no segment of [gamma = 1] passes the size bounds: its segmentation
    is empty and its mean size is [nan]; the mean size at [gamma = 2] is the
    target itself.  No sign change
    is seen, [np.argmin] stops at the [nan], and the only candidate
    registered is [gamma = 1] with the coverage [0]: it is returned as the
    optimum, and the grid point closest to the target is not a candidate. *)
Theorem nan_mean_is_registered :
  segmentation_of hollow_oracle stall_mtx stall_filters (Some stall_good_bins)
                  Armatus 3 1000 1 = []
  /\ map (fun gamma =>
            mean_tad_size_of
              (segmentation_of hollow_oracle stall_mtx stall_filters
                               (Some stall_good_bins) Armatus 3 1000 gamma))
         hollow_grid
     = [f64_of_int 20; S754_nan; f64_of_int 16]
  /\ find_local_optimas Z.eqb hollow_oracle stall_mtx stall_filters
                        (Some stall_good_bins) Armatus 3 1000 (f64_of_int 16)
                        hollow_grid []
     = ok ([((0, 20), 0); ((0, 16), 2)], [(1, 0)])
  /\ find_global_optima Z.eqb hollow_oracle stall_mtx stall_filters
                        (Some stall_good_bins) Armatus 3 1000 (f64_of_int 16)
                        hollow_grid []
     = ok ([((0, 20), 0); ((0, 16), 2)], 1).
Proof.
  assert (Hlocal :
            find_local_optimas Z.eqb hollow_oracle stall_mtx stall_filters
                               (Some stall_good_bins) Armatus 3 1000
                               (f64_of_int 16) hollow_grid []
            = ok ([((0, 20), 0); ((0, 16), 2)], [(1, 0)])).
  { unfold find_local_optimas, hollow_grid. rewrite py_get_head.
    cbn [bind ok tl fold_left]. unfold scan_step, scan_init, segments_at.
    rewrite !hollow_segmentation. vm_compute. reflexivity. }
  split; [| split; [| split; [exact Hlocal |]]].
  - unfold segmentation_of. rewrite hollow_segmentation. reflexivity.
  - unfold segmentation_of, hollow_grid. cbn [map].
    rewrite !hollow_segmentation. vm_compute. reflexivity.
  - unfold find_global_optima. rewrite Hlocal. reflexivity.
Qed.

(** * Further properties *)

(** ** NoiseMaskBuilder: what [get_noisy_stripes] returns *)

Lemma append_last_app (rows : list (list Z)) (row : list Z) (a : Z) :
  append_last (rows ++ [row]) a = rows ++ [row ++ [a]].
Proof.
  induction rows as [| r rows IH]; [reflexivity |].
  cbn [app append_last]. rewrite IH.
  destruct (rows ++ [row]) eqn:H; [| reflexivity].
  destruct rows; discriminate.
Qed.

Lemma as_pairs_app (done : list stripe) (rest : list (list Z)) :
  as_pairs (map (fun p => [fst p; snd p]) done ++ rest)
  = bind (as_pairs rest) (fun ps => ok (done ++ ps)).
Proof.
  induction done as [| [a b] done IH]; cbn [map app as_pairs fst snd].
  - destruct (as_pairs rest); reflexivity.
  - rewrite IH. destruct (as_pairs rest); reflexivity.
Qed.

(** The loop, started inside the run [start..prev] with the finished runs
    [done], ends with the runs of the values it reads. *)
Lemma stripes_fold_runs (v : list Z) (idxs : list nat) (done : list stripe)
      (start prev : Z) :
  let st := fold_left (stripes_step v) idxs
                      (map (fun p => [fst p; snd p]) done ++ [[start]], prev) in
  as_pairs (append_last (fst st) (snd st))
  = ok (done ++ runs_from start prev (map (fun i => nth i v 0) idxs)).
Proof.
  revert done start prev. induction idxs as [| i idxs IH]; intros done start prev.
  - cbn [fold_left fst snd map runs_from].
    rewrite append_last_app, as_pairs_app. reflexivity.
  - cbn [fold_left map runs_from].
    assert (Hs : stripes_step v
                   (map (fun p => [fst p; snd p]) done ++ [[start]], prev) i
                 = if nth i v 0 - prev =? 1
                   then (map (fun p => [fst p; snd p]) done ++ [[start]], nth i v 0)
                   else (append_last
                           (append_last
                              (map (fun p => [fst p; snd p]) done ++ [[start]])
                              prev ++ [[]])
                           (nth i v 0), nth i v 0))
      by reflexivity.
    rewrite Hs. clear Hs.
    destruct (nth i v 0 - prev =? 1).
    + apply IH.
    + rewrite !append_last_app. cbn [app]. rewrite <- app_assoc. cbn [app].
      replace (map (fun p => [fst p; snd p]) done ++ [[start; prev]; [nth i v 0]])
        with (map (fun p => [fst p; snd p]) (done ++ [(start, prev)])
              ++ [[nth i v 0]])
        by (rewrite map_app, <- app_assoc; reflexivity).
      rewrite IH, <- app_assoc. reflexivity.
Qed.

Lemma nth_seq_firstn (l : list Z) (k : nat) :
  (k <= length l)%nat ->
  map (fun i => nth i l 0) (seq 0 k) = firstn k l.
Proof.
  revert k. induction l as [| a l IH]; intros k Hk.
  - simpl in Hk. replace k with 0%nat by lia. reflexivity.
  - destruct k as [| k]; [reflexivity |].
    cbn [seq map nth firstn]. rewrite <- seq_shift, map_map.
    f_equal. apply IH. simpl in Hk. lia.
Qed.

Lemma stripes_range_reads (x : Z) (t : list Z) :
  map (fun i => nth i (x :: t) 0) (stripes_range (x :: t)) = removelast t.
Proof.
  unfold stripes_range. cbn [length].
  replace (S (length t) - 1 - 1)%nat with (length t - 1)%nat by lia.
  rewrite <- seq_shift, map_map. cbn [nth].
  rewrite nth_seq_firstn by lia.
  rewrite removelast_firstn_len. f_equal. lia.
Qed.

(** The grouping returns the maximal runs of what it reads, less those the
    width filter refuses. *)
Lemma group_stripes_runs (v : list Z) :
  v <> [] ->
  group_stripes v
  = ok (filter (fun r => snd r - fst r >=? 0) (maximal_runs (bins_read v))).
Proof.
  destruct v as [| x t]; [congruence | intros _].
  unfold group_stripes. rewrite py_get_head. cbn [bind ok].
  pose proof (stripes_fold_runs (x :: t) (stripes_range (x :: t)) [] x x) as H.
  cbn [map app] in H. cbv zeta in H.
  destruct (fold_left (stripes_step (x :: t)) (stripes_range (x :: t)) ([[x]], x))
    as [v_tmp v_prev].
  cbn [fst snd] in H. rewrite H, stripes_range_reads. reflexivity.
Qed.

Lemma np_where_from_increasing {A : Type} (p : A -> bool) (l : list A) (i : nat) :
  StronglySorted lt (np_where_from p l i)
  /\ Forall (fun j => (i <= j)%nat) (np_where_from p l i).
Proof.
  revert i. induction l as [| y t IH]; intros i; [split; constructor |].
  destruct (IH (S i)) as [Hs Hall]. simpl.
  assert (Hall' : Forall (fun j => (i <= j)%nat) (np_where_from p t (S i))).
  { eapply Forall_impl; [| exact Hall]. intros j Hj. simpl in Hj. lia. }
  destruct (p y); [| split; assumption].
  split.
  - constructor; [exact Hs |].
    eapply Forall_impl; [| exact Hall]. intros j Hj. simpl in Hj. lia.
  - constructor; [lia | exact Hall'].
Qed.

Lemma zero_rows_increasing (mtx : matrix) : StronglySorted Z.lt (zero_rows mtx).
Proof.
  unfold zero_rows, np_where.
  destruct (np_where_from_increasing
              (fun row => Qeq_bool (row_sum row) 0) mtx 0) as [Hs _].
  induction Hs as [| j js Hs IH Hj]; [constructor |].
  cbn [map]. constructor; [exact IH |].
  rewrite Forall_forall in *. intros z Hz. apply in_map_iff in Hz.
  destruct Hz as [j' [<- Hj']]. specialize (Hj j' Hj'). lia.
Qed.

Lemma removelast_increasing (l : list Z) :
  StronglySorted Z.lt l -> StronglySorted Z.lt (removelast l).
Proof.
  intros Hs. induction Hs as [| a t Hs IH Ha]; [constructor |].
  destruct t as [| b t]; [constructor |].
  change (removelast (a :: b :: t)) with (a :: removelast (b :: t)).
  constructor; [exact IH |].
  rewrite Forall_forall in *. intros z Hz. apply Ha.
  rewrite removelast_firstn_len in Hz.
  rewrite <- (firstn_skipn (Nat.pred (length (b :: t))) (b :: t)).
  apply in_or_app. now left.
Qed.

Lemma bins_read_increasing (v : list Z) :
  StronglySorted Z.lt v -> StronglySorted Z.lt (bins_read v).
Proof.
  intros Hs. destruct v as [| x t]; [constructor |].
  inversion Hs as [| ? ? Ht Hx]; subst. cbn [bins_read].
  constructor; [now apply removelast_increasing |].
  rewrite Forall_forall in *. intros z Hz. apply Hx.
  rewrite removelast_firstn_len in Hz.
  rewrite <- (firstn_skipn (Nat.pred (length t)) t).
  apply in_or_app. now left.
Qed.

(** The runs of an increasing list are well formed, in order, and one bin
    apart at least. *)
Lemma runs_from_separated (l : list Z) (start prev : Z) :
  start <= prev ->
  Forall (fun y => prev < y) l ->
  StronglySorted Z.lt l ->
  StronglySorted apart (runs_from start prev l)
  /\ Forall (fun r => start <= fst r /\ well_formed r) (runs_from start prev l).
Proof.
  intros Hsp Hprev Hs. revert start prev Hsp Hprev.
  induction Hs as [| x t Hs IH Hx]; intros start prev Hsp Hprev.
  - cbn [runs_from]. split; repeat constructor; unfold well_formed; simpl; lia.
  - inversion Hprev as [| ? ? Hpx Hpt]; subst. cbn [runs_from].
    assert (Hxt : Forall (fun y => x < y) t) by exact Hx.
    destruct (x - prev =? 1) eqn:Hstep.
    + destruct (IH start x ltac:(lia) Hxt) as [H1 H2]. split; assumption.
    + apply Z.eqb_neq in Hstep.
      destruct (IH x x ltac:(lia) Hxt) as [H1 H2].
      split.
      * constructor; [exact H1 |].
        eapply Forall_impl; [| exact H2].
        intros r [Hr _]. unfold apart. simpl. lia.
      * constructor; [unfold well_formed; simpl; lia |].
        eapply Forall_impl; [| exact H2].
        intros r [Hr Hw]. split; [lia | exact Hw].
Qed.

Lemma maximal_runs_separated (v : list Z) :
  StronglySorted Z.lt v ->
  StronglySorted apart (maximal_runs v) /\ Forall well_formed (maximal_runs v).
Proof.
  intros Hs. destruct v as [| x t]; [split; constructor |].
  inversion Hs as [| ? ? Ht Hx]; subst. cbn [maximal_runs].
  destruct (runs_from_separated t x x (Z.le_refl x) Hx Ht) as [H1 H2].
  split; [exact H1 |].
  eapply Forall_impl; [| exact H2]. intros r [_ Hw]. exact Hw.
Qed.

Lemma width_filter_keeps (rs : list stripe) :
  Forall well_formed rs -> filter (fun r => snd r - fst r >=? 0) rs = rs.
Proof.
  intros H. induction H as [| r rs Hr _ IH]; [reflexivity |].
  cbn [filter]. unfold well_formed in Hr.
  replace (snd r - fst r >=? 0) with true by (symmetry; apply Z.geb_le; lia).
  now rewrite IH.
Qed.

Lemma mask_fold_density (m : method) (resolution : Z) (fs : list stripe)
      (gb0 : list bool) :
  is_insulation m = false ->
  exists gb, fold_left (mask_stripe m resolution) fs (ok gb0) = ok gb.
Proof.
  intros Hm. revert gb0. induction fs as [| s fs IH]; intros gb0.
  - now exists gb0.
  - cbn [fold_left]. unfold mask_stripe at 2. cbn [bind ok]. rewrite Hm.
    apply (IH (set_false gb0 (fst s) (snd s + 1))).
Qed.

(** X1. For a density-score method [get_noisy_stripes] raises [IndexError]
    when no row of the matrix sums to zero; otherwise it returns, with the
    matrix, the maximal runs of consecutive bad bins among the bad bins it
    reads, which are all of them but the last when there are two or more. *)
Theorem get_noisy_stripes_runs (mtx : matrix) (m : method) (resolution : Z) :
  is_insulation m = false ->
  match zero_rows mtx with
  | [] => get_noisy_stripes mtx m resolution = raise IndexError
  | _ :: _ =>
      exists good_bins,
        get_noisy_stripes mtx m resolution
        = ok (maximal_runs (bins_read (zero_rows mtx)), mtx, good_bins)
  end.
Proof.
  intros Hm. unfold get_noisy_stripes. rewrite Hm.
  destruct (zero_rows mtx) as [| x t] eqn:Hv; [reflexivity |].
  rewrite group_stripes_runs by discriminate.
  assert (Hinc : StronglySorted Z.lt (x :: t))
    by (rewrite <- Hv; apply zero_rows_increasing).
  destruct (maximal_runs_separated _ (bins_read_increasing _ Hinc)) as [_ Hwf].
  rewrite (width_filter_keeps _ Hwf). cbn [bind ok].
  destruct (mask_fold_density m resolution (maximal_runs (bins_read (x :: t)))
              (repeat true (length mtx)) Hm) as [gb Hgb].
  rewrite Hgb. now exists gb.
Qed.

Lemma get_noisy_stripes_runs_witness :
  exists good_bins,
    get_noisy_stripes two_bad_bins_mtx Armatus 1
    = ok (maximal_runs (bins_read (zero_rows two_bad_bins_mtx)),
          two_bad_bins_mtx, good_bins).
Proof.
  apply (get_noisy_stripes_runs two_bad_bins_mtx Armatus 1). reflexivity.
Defined.

Lemma mask_stripe_coordinates (m : method) (resolution r : Z)
      (acc : result (list bool)) (s : stripe) :
  is_insulation m = false -> resolution <> 0 ->
  mask_stripe Insulation resolution acc (to_coordinates resolution s)
  = mask_stripe m r acc s.
Proof.
  intros Hm Hr. unfold mask_stripe, to_coordinates, int_div.
  destruct acc as [e | gb]; [reflexivity |].
  cbn [bind ok is_insulation fst snd]. rewrite Hm.
  destruct (resolution =? 0) eqn:H0; [apply Z.eqb_eq in H0; contradiction |].
  cbn [bind ok].
  replace (snd s * resolution + resolution) with ((snd s + 1) * resolution) by ring.
  now rewrite !Z.quot_mul by exact Hr.
Qed.

Lemma mask_fold_coordinates (m : method) (resolution r : Z) (fs : list stripe)
      (acc : result (list bool)) :
  is_insulation m = false -> resolution <> 0 ->
  fold_left (mask_stripe Insulation resolution)
            (map (to_coordinates resolution) fs) acc
  = fold_left (mask_stripe m r) fs acc.
Proof.
  intros Hm Hr. revert acc. induction fs as [| s fs IH]; intros acc;
    [reflexivity |].
  cbn [map fold_left]. rewrite (mask_stripe_coordinates m resolution r) by assumption.
  apply IH.
Qed.

(** X2. With a resolution that is not zero, the insulation variant of
    [get_noisy_stripes] returns the stripes of the density-score variant
    converted to genomic coordinates, [[start * resolution,
    end * resolution + resolution]], and the very same mask of good bins;
    it fails when the density-score variant fails. *)
Theorem get_noisy_stripes_insulation (mtx : matrix) (m : method)
        (resolution r : Z) :
  is_insulation m = false -> resolution <> 0 ->
  get_noisy_stripes mtx Insulation resolution
  = match get_noisy_stripes mtx m r with
    | inr (filters, mtx', good_bins) =>
        ok (map (to_coordinates resolution) filters, mtx', good_bins)
    | inl e => raise e
    end.
Proof.
  intros Hm Hr. unfold get_noisy_stripes. rewrite Hm. cbn [is_insulation].
  destruct (group_stripes (zero_rows mtx)) as [e | filt]; [reflexivity |].
  cbn [bind ok].
  change (map (fun e => (fst e * resolution, snd e * resolution + resolution)) filt)
    with (map (to_coordinates resolution) filt).
  rewrite (mask_fold_coordinates m resolution r) by assumption.
  destruct (fold_left (mask_stripe m r) filt _); reflexivity.
Qed.

Lemma get_noisy_stripes_insulation_witness :
  get_noisy_stripes two_bad_bins_mtx Insulation 5000
  = match get_noisy_stripes two_bad_bins_mtx Armatus 1 with
    | inr (filters, mtx', good_bins) =>
        ok (map (to_coordinates 5000) filters, mtx', good_bins)
    | inl e => raise e
    end.
Proof.
  apply (get_noisy_stripes_insulation two_bad_bins_mtx Armatus 5000 1).
  - reflexivity.
  - discriminate.
Defined.

Lemma separated_ordered (rs : list stripe) :
  StronglySorted ends_before rs -> Forall well_formed rs -> stripes_ordered rs.
Proof.
  intros Hs Hw. unfold stripes_ordered.
  induction Hs as [| r rs Hs IH Hr]; [split; constructor |].
  inversion Hw as [| ? ? Hwr Hwrs]; subst.
  destruct (IH Hwrs) as [H1 H2]. cbn [map].
  split; (constructor; [assumption |]);
    rewrite Forall_forall in *; intros z Hz; apply in_map_iff in Hz;
    destruct Hz as [r' [<- Hr']]; specialize (Hr r' Hr'); specialize (Hwrs r' Hr');
    unfold ends_before, well_formed in *; lia.
Qed.

Lemma to_coordinates_separated (resolution : Z) (rs : list stripe) :
  0 < resolution ->
  StronglySorted apart rs -> Forall well_formed rs ->
  StronglySorted ends_before (map (to_coordinates resolution) rs)
  /\ Forall well_formed (map (to_coordinates resolution) rs).
Proof.
  intros Hr Hs Hw.
  induction Hs as [| r rs Hs IH Hrr]; [split; constructor |].
  inversion Hw as [| ? ? Hwr Hwrs]; subst.
  destruct (IH Hwrs) as [H1 H2]. cbn [map].
  split.
  - constructor; [exact H1 |].
    rewrite Forall_forall in *. intros z Hz. apply in_map_iff in Hz.
    destruct Hz as [r' [<- Hr']]. specialize (Hrr r' Hr').
    unfold ends_before, apart, to_coordinates in *. simpl. nia.
  - constructor; [| exact H2].
    unfold well_formed, to_coordinates in *. simpl. nia.
Qed.

Lemma apart_ends_before (rs : list stripe) :
  StronglySorted apart rs -> StronglySorted ends_before rs.
Proof.
  intros Hs. induction Hs as [| r rs Hs IH Hr]; [constructor |].
  constructor; [exact IH |].
  eapply Forall_impl; [| exact Hr]. intros r'. unfold apart, ends_before. lia.
Qed.

(** The stripes, whatever the method. *)
Lemma get_noisy_stripes_filters (mtx mtx' : matrix) (m : method)
      (resolution : Z) (filters : list stripe) (good_bins : list bool) :
  get_noisy_stripes mtx m resolution = ok (filters, mtx', good_bins) ->
  mtx' = mtx
  /\ filters
     = if is_insulation m
       then map (to_coordinates resolution)
                (maximal_runs (bins_read (zero_rows mtx)))
       else maximal_runs (bins_read (zero_rows mtx)).
Proof.
  unfold get_noisy_stripes.
  destruct (zero_rows mtx) as [| x t] eqn:Hv; [discriminate |].
  rewrite group_stripes_runs by discriminate.
  assert (Hinc : StronglySorted Z.lt (x :: t))
    by (rewrite <- Hv; apply zero_rows_increasing).
  destruct (maximal_runs_separated _ (bins_read_increasing _ Hinc)) as [_ Hwf].
  rewrite (width_filter_keeps _ Hwf). cbn [bind ok].
  destruct (fold_left _ _ _) as [e | gb]; [discriminate |].
  cbn [bind ok]. intros H. injection H as <- <- _.
  split; [reflexivity |]. destruct (is_insulation m); reflexivity.
Qed.

(** X3. The stripes returned by [get_noisy_stripes] are well formed
    ([start <= end]), pairwise disjoint and listed in coordinate order, for
    a density-score method and, with a positive resolution, for the
    insulation method. *)
Theorem get_noisy_stripes_ordered (mtx mtx' : matrix) (m : method)
        (resolution : Z) (filters : list stripe) (good_bins : list bool) :
  (is_insulation m = true -> 0 < resolution) ->
  get_noisy_stripes mtx m resolution = ok (filters, mtx', good_bins) ->
  Forall well_formed filters
  /\ StronglySorted ends_before filters
  /\ stripes_ordered filters.
Proof.
  intros Hres Hget.
  assert (Hinc : StronglySorted Z.lt (bins_read (zero_rows mtx)))
    by (apply bins_read_increasing, zero_rows_increasing).
  destruct (maximal_runs_separated _ Hinc) as [Hap Hwf].
  destruct (get_noisy_stripes_filters _ _ _ _ _ _ Hget) as [_ Hfs].
  destruct (is_insulation m) eqn:Hm; subst filters.
  - destruct (to_coordinates_separated resolution _ (Hres eq_refl) Hap Hwf)
      as [H1 H2].
    split; [exact H2 | split; [exact H1 | now apply separated_ordered]].
  - split; [exact Hwf | split; [now apply apart_ends_before |]].
    apply separated_ordered; [now apply apart_ends_before | exact Hwf].
Qed.

Lemma get_noisy_stripes_ordered_witness :
  Forall well_formed [(10000, 25000); (40000, 50000)]
  /\ StronglySorted ends_before [(10000, 25000); (40000, 50000)]
  /\ stripes_ordered [(10000, 25000); (40000, 50000)].
Proof.
  apply (get_noisy_stripes_ordered
           two_gaps_mtx two_gaps_mtx Insulation 5000
           [(10000, 25000); (40000, 50000)]
           [true; true; false; false; false; true; true; true; false; false;
            true; true; true; true]).
  - intros _. lia.
  - vm_compute. reflexivity.
Defined.

(** X4. The mask returned by [get_noisy_stripes] is [False] exactly on the
    bins that lie in one of the maximal runs the function has formed, for a
    density-score method and, with a resolution that is not zero, for the
    insulation method (where the stripes are in genomic coordinates and are
    divided back by the resolution). *)
Theorem good_bins_cover_runs (mtx mtx' : matrix) (m : method) (resolution : Z)
        (filters : list stripe) (good_bins : list bool) (k : nat) :
  (is_insulation m = true -> resolution <> 0) ->
  get_noisy_stripes mtx m resolution = ok (filters, mtx', good_bins) ->
  (k < length mtx)%nat ->
  nth k good_bins true = false
  <-> exists r, In r (maximal_runs (bins_read (zero_rows mtx)))
                /\ fst r <= Z.of_nat k <= snd r.
Proof.
  intros Hres Hget Hk.
  destruct (is_insulation m) eqn:Hm.
  - destruct m; try discriminate Hm. specialize (Hres eq_refl).
    unfold get_noisy_stripes in Hget. cbn [is_insulation] in Hget.
    destruct (group_stripes (zero_rows mtx)) as [e | filt] eqn:Hg;
      [discriminate |].
    cbn [bind ok] in Hget.
    change (map (fun e => (fst e * resolution, snd e * resolution + resolution))
                filt)
      with (map (to_coordinates resolution) filt) in Hget.
    rewrite (mask_fold_coordinates Armatus resolution 1) in Hget
      by (try reflexivity; exact Hres).
    destruct (fold_left (mask_stripe Armatus 1) filt _) as [e | gb] eqn:Hfold;
      [discriminate |].
    cbn [bind ok] in Hget. injection Hget as _ _ <-.
    assert (Hd : get_noisy_stripes mtx Armatus 1 = ok (filt, mtx, gb)).
    { unfold get_noisy_stripes. rewrite Hg. cbn [bind ok is_insulation].
      rewrite Hfold. reflexivity. }
    destruct (get_noisy_stripes_filters _ _ _ _ _ _ Hd) as [_ Hfs].
    cbn [is_insulation] in Hfs. rewrite <- Hfs.
    exact (good_bins_cover_filters mtx mtx Armatus 1 filt gb k eq_refl Hd Hk).
  - destruct (get_noisy_stripes_filters _ _ _ _ _ _ Hget) as [_ Hfs].
    rewrite Hm in Hfs. rewrite <- Hfs.
    exact (good_bins_cover_filters mtx mtx' m resolution filters good_bins k
             Hm Hget Hk).
Qed.

Lemma good_bins_cover_runs_witness :
  nth 11 example_good_bins true = false
  <-> exists r, In r (maximal_runs (bins_read (zero_rows example_mtx)))
                /\ fst r <= Z.of_nat 11 <= snd r.
Proof.
  apply (good_bins_cover_runs example_mtx example_mtx Armatus 1 example_filters
           example_good_bins 11).
  - discriminate.
  - vm_compute. reflexivity.
  - vm_compute. lia.
Defined.

(** ** NoiseFilter and the two generators *)

Lemma np_select_coords {A B : Type} (c : A -> B) (f : A -> bool) (l : list A) :
  np_select (map c l) (map f l) = map c (filter f l).
Proof.
  unfold np_select. induction l as [| a t IH]; [reflexivity |].
  cbn [map combine filter snd]. destruct (f a); cbn [map fst]; now rewrite IH.
Qed.

Lemma filter_twice {A : Type} (f g : A -> bool) (l : list A) :
  filter g (filter f l) = filter (fun a => f a && g a) l.
Proof.
  induction l as [| a t IH]; [reflexivity |].
  cbn [filter]. destruct (f a); cbn [filter andb]; [| exact IH].
  destruct (g a); now rewrite IH.
Qed.

Lemma insulation_metric_positive (x : segment) (filters : list stripe)
      (resolution k : Z) :
  Rgtb (calc_noisy_metric x filters Insulation resolution k) 0
  = negb (whether_tad_noisy x filters Insulation resolution k).
Proof.
  unfold calc_noisy_metric, Rgtb.
  destruct (whether_tad_noisy x filters Insulation resolution k);
    cbn [negb is_insulation].
  - destruct (Rgt_dec (-1) 0); [lra | reflexivity].
  - destruct (Rgt_dec 1 0); [reflexivity | lra].
Qed.

(** X5. For the insulation method [produce_boundaries_segmentation] keeps
    exactly the boundaries whose strength is not null and that
    [whether_tad_noisy] does not reject, in their order; the array of
    coordinates it returns is, row by row, that of the data frame it
    returns. *)
Theorem produce_boundaries_keeps_clean {W : Type}
        (find_boundaries : W -> Z -> list boundary) (filters : list stripe)
        (window : W) (resolution k : Z) :
  let kept :=
    filter (fun b => notnull (b_strength b)
                     && negb (whether_tad_noisy (b_start b, b_end b) filters
                                                Insulation resolution k))
           (find_boundaries window k) in
  produce_boundaries_segmentation find_boundaries filters window Insulation
                                  resolution k
  = (map (fun b => (b_start b, b_end b)) kept, kept).
Proof.
  intros kept. unfold produce_boundaries_segmentation. cbv zeta.
  set (bs := filter (fun b => notnull (b_strength b)) (find_boundaries window k)).
  set (h := fun b : boundary =>
              Rgtb (calc_noisy_metric (b_start b, b_end b) filters Insulation
                                      resolution k) 0).
  assert (Hmask : map (fun h0 => Rgtb h0 0)
                      (map (fun x => calc_noisy_metric x filters Insulation
                                                       resolution k)
                           (map (fun b => (b_start b, b_end b)) bs))
                  = map h bs)
    by (rewrite !map_map; reflexivity).
  rewrite Hmask, np_select_coords, np_select_map.
  assert (Hkept : filter h bs = kept).
  { unfold bs, kept. rewrite filter_twice. apply filter_ext.
    intros b. unfold h. now rewrite insulation_metric_positive. }
  now rewrite Hkept.
Qed.

Lemma ln_nonneg (z : Z) : 1 <= z -> (0 <= np_log z)%R.
Proof.
  intros H. unfold np_log.
  destruct (Z.eq_dec z 1) as [-> | Hne]; [rewrite ln_1; lra |].
  apply Rlt_le, ln_pos. apply IZR_lt. lia.
Qed.

Lemma left_stripe_In (x : segment) (filters : list stripe) (ls : stripe) :
  left_stripe x filters = inr ls -> In ls filters.
Proof.
  unfold left_stripe.
  destruct (np_argmin _ _) as [e | i]; [discriminate |]. cbn [bind].
  destruct (py_get (map snd filters) _) as [e | v]; [discriminate |]. cbn [bind].
  destruct (py_get (np_where _ _) 0) as [e | j]; [discriminate |]. cbn [bind].
  apply py_get_In.
Qed.

Lemma right_stripe_In (x : segment) (filters : list stripe) (rs : stripe) :
  StronglySorted Z.le (map fst filters) ->
  right_stripe x filters = inr rs -> In rs filters /\ snd x <= fst rs.
Proof.
  intros Hs Hr.
  pose proof (right_stripe_nearest x filters Hs) as Hn. rewrite Hr in Hn.
  destruct Hn as [_ [Hle _]]. split; [| exact Hle].
  unfold right_stripe in Hr.
  destruct (py_get (filter _ (map fst filters)) 0) as [e | v]; [discriminate |].
  cbn [bind] in Hr. apply py_get_In in Hr. apply in_map_iff in Hr.
  destruct Hr as [j [<- Hj]].
  destruct (np_where_from_nth (Z.eqb v) (map fst filters) 0 j Hj)
    as [d [a [Hd [Hnth _]]]].
  simpl in Hd. subst d. apply nth_In.
  assert (Hlt : (j < length (map fst filters))%nat)
    by (apply nth_error_Some; congruence).
  rewrite length_map in Hlt. exact Hlt.
Qed.

(** X6. For well-formed stripes in coordinate order and a segment of
    positive length, the metric is [-1] exactly when [whether_tad_noisy]
    rejects the segment; otherwise it is not negative, and for a
    density-score method the two logarithms of gap distances are taken of
    positive integers. *)
Theorem calc_noisy_metric_sentinel (x : segment) (filters : list stripe)
        (m : method) (resolution k : Z) :
  stripes_ordered filters -> Forall well_formed filters -> fst x < snd x ->
  (calc_noisy_metric x filters m resolution k = (-1)%R
   <-> whether_tad_noisy x filters m resolution k = true)
  /\ (whether_tad_noisy x filters m resolution k = false ->
      (0 <= calc_noisy_metric x filters m resolution k)%R
      /\ (is_insulation m = false ->
          (forall ls, left_stripe x filters = inr ls -> 0 < fst x - snd ls)
          /\ (forall rs, right_stripe x filters = inr rs -> 0 < fst rs - snd x))).
Proof.
  intros [Hstarts Hends] Hwf Hx.
  assert (Hlen : (0 <= np_log (snd x - fst x))%R) by (apply ln_nonneg; lia).
  assert (Hnonneg : whether_tad_noisy x filters m resolution k = false ->
                    (0 <= calc_noisy_metric x filters m resolution k)%R).
  { intros Hn. unfold calc_noisy_metric. rewrite Hn.
    destruct (is_insulation m); cbn [negb]; [lra |].
    rewrite py_min_Rmin. apply Rmin_glb.
    - destruct (left_stripe x filters); [unfold sentinel; lra |].
      apply Rmult_le_pos; [apply pow2_ge_0 | exact Hlen].
    - destruct (right_stripe x filters); [unfold sentinel; lra |].
      apply Rmult_le_pos; [apply pow2_ge_0 | exact Hlen]. }
  split.
  - split.
    + intros Hm1.
      destruct (whether_tad_noisy x filters m resolution k) eqn:Hn;
        [reflexivity |].
      specialize (Hnonneg eq_refl). lra.
    + apply calc_noisy_metric_noisy.
  - intros Hn. split; [now apply Hnonneg |].
    intros Hm.
    assert (Hclean : forall s, In s filters ->
                               ~ within s (fst x) /\ ~ within s (snd x)).
    { intros s Hs. split; intros Hin;
        (assert (Ht : whether_tad_noisy x filters m resolution k = true);
         [| congruence]);
        apply whether_tad_noisy_true_iff; exists s; (split; [exact Hs |]);
        unfold expanded; rewrite Hm; cbv zeta; tauto. }
    rewrite Forall_forall in Hwf.
    split.
    + intros ls Hls.
      pose proof (left_stripe_nearest x filters Hends) as Hnear.
      rewrite Hls in Hnear. destruct Hnear as [_ [Hle _]].
      apply left_stripe_In in Hls.
      destruct (Hclean ls Hls) as [H1 _]. specialize (Hwf ls Hls).
      unfold within, well_formed in *. lia.
    + intros rs Hrs.
      destruct (right_stripe_In x filters rs Hstarts Hrs) as [Hin Hle].
      destruct (Hclean rs Hin) as [_ H2]. specialize (Hwf rs Hin).
      unfold within, well_formed in *. lia.
Qed.

Lemma calc_noisy_metric_sentinel_witness :
  (calc_noisy_metric (2, 8) example_filters Armatus 0 0 = (-1)%R
   <-> whether_tad_noisy (2, 8) example_filters Armatus 0 0 = true)
  /\ (whether_tad_noisy (2, 8) example_filters Armatus 0 0 = false ->
      (0 <= calc_noisy_metric (2, 8)%Z example_filters Armatus 0%Z 0%Z)%R
      /\ (is_insulation Armatus = false ->
          (forall ls, left_stripe (2, 8) example_filters = inr ls ->
                      0 < fst (2, 8) - snd ls)
          /\ (forall rs, right_stripe (2, 8) example_filters = inr rs ->
                         0 < fst rs - snd (2, 8)))).
Proof.
  apply (calc_noisy_metric_sentinel (2, 8) example_filters Armatus 0 0).
  - split; simpl; repeat constructor.
  - repeat constructor. unfold well_formed. simpl. lia.
  - simpl. lia.
Defined.

(** X7. [whether_tad_noisy] depends on the set of stripes only: a segment
    rejected for some stripes is rejected for any list that holds them all,
    in whatever order. *)
Theorem whether_tad_noisy_monotone (x : segment) (filters filters' : list stripe)
        (m : method) (resolution k : Z) :
  incl filters filters' ->
  whether_tad_noisy x filters m resolution k = true ->
  whether_tad_noisy x filters' m resolution k = true.
Proof.
  intros Hincl H. apply whether_tad_noisy_true_iff in H.
  apply whether_tad_noisy_true_iff.
  destruct H as [s [Hs H]]. exists s. split; [apply Hincl; exact Hs | exact H].
Qed.

Lemma whether_tad_noisy_monotone_witness :
  whether_tad_noisy (2, 9) [(40, 50); (5, 6)] Armatus 0 0 = true.
Proof.
  apply (whether_tad_noisy_monotone (2, 9) [(5, 6)] [(40, 50); (5, 6)] Armatus 0 0).
  - intros s [<- | []]. right. now left.
  - reflexivity.
Defined.

(** *** When the adaptive threshold applies *)

Lemma py_get_last_nonempty {A : Type} (l : list A) :
  l <> [] -> exists a, py_get l (-1) = ok a /\ In a l.
Proof.
  intros Hne. unfold py_get.
  assert (Hlen : (0 < length l)%nat) by (destruct l; [congruence | simpl; lia]).
  cbn [Z.ltb Z.compare].
  replace ((0 <=? -1 + Z.of_nat (length l))
           && (-1 + Z.of_nat (length l) <? Z.of_nat (length l)))
    with true by (symmetry; apply andb_true_iff; split; lia).
  destruct (nth_error l (Z.to_nat (-1 + Z.of_nat (length l)))) as [a |] eqn:Hn.
  - exists a. split; [reflexivity | eapply nth_error_In; exact Hn].
  - apply nth_error_None in Hn. lia.
Qed.

Lemma py_get_nonneg {A : Type} (l : list A) (k : Z) :
  0 <= k ->
  py_get l k = match nth_error l (Z.to_nat k) with
               | Some a => ok a
               | None => raise IndexError
               end.
Proof.
  intros Hk. unfold py_get.
  destruct (k <? 0) eqn:Hneg; [lia |].
  destruct ((0 <=? k) && (k <? Z.of_nat (length l))) eqn:Hin; [reflexivity |].
  destruct (nth_error l (Z.to_nat k)) eqn:Hn; [| reflexivity].
  assert (Hlt : (Z.to_nat k < length l)%nat) by (apply nth_error_Some; congruence).
  lia.
Qed.

(** The threshold can be computed exactly when the index denotes a
    position from [1] to [len(hist_arr) - 1]. *)
Lemma threshold_position_some (hist : list R) (bins n pos : Z) :
  threshold_position (Z.of_nat (length hist))
                     (noise_index (Z.of_nat (length hist)) bins n) = Some pos ->
  exists (j : nat) (a b : R),
    pos = Z.of_nat (S j)
    /\ nth_error hist j = Some a
    /\ nth_error hist (S j) = Some b
    /\ noise_threshold hist bins n = ok ((a + b) / 2)%R.
Proof.
  unfold threshold_position.
  destruct (noise_index (Z.of_nat (length hist)) bins n) as [e | k] eqn:Hk;
    [discriminate |].
  cbv zeta.
  set (p := if k <? 0 then k + Z.of_nat (length hist) else k).
  destruct ((1 <=? p) && (p <? Z.of_nat (length hist))) eqn:Hin; [| discriminate].
  intros H. injection H as <-.
  apply andb_true_iff in Hin. destruct Hin as [H1 H2].
  apply Z.leb_le in H1. apply Z.ltb_lt in H2.
  set (j := Z.to_nat (p - 1)).
  destruct (nth_error hist j) as [a |] eqn:Ha;
    [| apply nth_error_None in Ha; lia].
  destruct (nth_error hist (S j)) as [b |] eqn:Hb;
    [| apply nth_error_None in Hb; lia].
  exists j, a, b. split; [unfold j; lia |].
  split; [exact Ha |]. split; [exact Hb |].
  apply noise_threshold_position. exists k, j, a, b.
  split; [exact Hk |]. split; [fold p; unfold j; lia |].
  repeat split; assumption.
Qed.

Lemma threshold_position_none (hist : list R) (bins n : Z) :
  threshold_position (Z.of_nat (length hist))
                     (noise_index (Z.of_nat (length hist)) bins n) = None ->
  exists e, noise_threshold hist bins n = raise e.
Proof.
  intros Hnone.
  destruct (noise_threshold hist bins n) as [e | thresh] eqn:Ht;
    [now exists e |].
  exfalso.
  apply noise_threshold_position in Ht.
  destruct Ht as [k [j [a [b [Hk [Hj [Ha [Hb _]]]]]]]].
  assert (Hlt : (S j < length hist)%nat) by (apply nth_error_Some; congruence).
  unfold threshold_position in Hnone. rewrite Hk in Hnone.
  unfold ok in Hnone. cbv zeta in Hnone. rewrite <- Hj in Hnone.
  replace ((1 <=? Z.of_nat (S j)) && (Z.of_nat (S j) <? Z.of_nat (length hist)))
    with true in Hnone; [discriminate Hnone |].
  symmetry. apply andb_true_iff. split; [apply Z.leb_le | apply Z.ltb_lt]; lia.
Qed.

(** The index is the truncated float64 product, which can fall below the
    exact quotient: with 49 positive metrics, 3 bad bins and 147 bins the
    product [49 * (3 / 147)] is just below [1]. *)
Lemma noise_index_below_quotient :
  noise_index 49 3 147 = ok 0 /\ Z.quot (49 * 3) 147 = 1.
Proof. split; vm_compute; reflexivity. Qed.

(** X8. For a density-score method, the adaptive noise filter of
    [produce_tads_segmentation] is applied exactly when the index
    [k = int(len(hist_arr) * noise_freq)], computed in float64, denotes a
    position [pos] of [hist_arr] from [1] to [len(hist_arr) - 1] ([k] itself,
    or [len(hist_arr) + k] when [k] is negative): the threshold is then the
    mean of the entries [pos - 1] and [pos], it is positive, and the
    candidates whose metric exceeds it are returned.  In every other case,
    also when [int] fails on an infinity or a [nan], all the size-filtered
    candidates are returned, the fully noisy ones too. *)
Theorem adaptive_filter_criterion {G : Type}
        (oracle : method -> matrix -> G -> list bool -> list segment)
        (mtx : matrix) (filters : list stripe) (gamma : G)
        (good_bins : list bool) (m : method) (mis mts : Z) :
  density_score m ->
  let candidates := size_filter mis mts (oracle m mtx gamma good_bins) in
  let hist_arr := positive_metrics filters m candidates in
  let len := Z.of_nat (length hist_arr) in
  match threshold_position
          len (noise_index len (noisy_bins filters) (Z.of_nat (length mtx))) with
  | Some pos =>
      exists a b : R,
        nth_error hist_arr (Z.to_nat (pos - 1)) = Some a
        /\ nth_error hist_arr (Z.to_nat pos) = Some b
        /\ (0 < (a + b) / 2)%R
        /\ produce_tads_segmentation oracle mtx filters gamma (Some good_bins) m
                                     mis mts
           = Some (filter (fun x => Rgtb (calc_noisy_metric x filters m 0 0)
                                         ((a + b) / 2))
                          candidates)
  | None =>
      produce_tads_segmentation oracle mtx filters gamma (Some good_bins) m
                                mis mts
      = Some candidates
  end.
Proof.
  intros Hm candidates hist_arr len.
  destruct (threshold_position len _) as [pos |] eqn:Hpos.
  - apply threshold_position_some in Hpos.
    destruct Hpos as [j [a [b [-> [Ha [Hb Ht]]]]]].
    exists a, b.
    replace (Z.to_nat (Z.of_nat (S j) - 1)) with j by lia. rewrite Nat2Z.id.
    split; [exact Ha |]. split; [exact Hb |]. split.
    + eapply noise_threshold_pos; [| exact Ht].
      intros h. apply positive_metrics_pos.
    + rewrite produce_tads_segmentation_density by exact Hm.
      fold candidates. fold hist_arr. unfold ok in Ht. now rewrite Ht.
  - apply threshold_position_none in Hpos. destruct Hpos as [e He].
    rewrite produce_tads_segmentation_density by exact Hm.
    fold candidates. fold hist_arr. unfold raise in He. now rewrite He.
Qed.

Lemma adaptive_filter_criterion_witness :
  let candidates :=
    size_filter 3 1000 (example_oracle Armatus example_mtx 1 example_good_bins) in
  let hist_arr := positive_metrics example_filters Armatus candidates in
  exists a b : R,
    nth_error hist_arr 0 = Some a
    /\ nth_error hist_arr 1 = Some b
    /\ (0 < (a + b) / 2)%R
    /\ produce_tads_segmentation example_oracle example_mtx example_filters 1
                                 (Some example_good_bins) Armatus 3 1000
       = Some (filter (fun x => Rgtb (calc_noisy_metric x example_filters
                                                        Armatus 0 0)
                                     ((a + b) / 2))
                      candidates).
Proof.
  intros candidates hist_arr.
  pose proof (adaptive_filter_criterion example_oracle example_mtx
                example_filters 1 example_good_bins Armatus 3 1000
                (or_introl eq_refl)) as H.
  cbv zeta in H. rewrite example_noise_index in H.
  rewrite example_candidates, example_positive_metrics in H.
  unfold hist_arr, candidates.
  rewrite example_candidates, example_positive_metrics.
  exact H.
Defined.

Lemma sorted_nth_mono (l : list R) (i j : nat) (h a : R) :
  StronglySorted Rle l ->
  nth_error l i = Some h -> nth_error l j = Some a -> (i <= j)%nat ->
  (h <= a)%R.
Proof.
  intros Hs Hi Hj Hle.
  destruct (Nat.eq_dec i j) as [-> | Hne].
  - rewrite Hi in Hj. injection Hj as ->. lra.
  - rewrite <- (firstn_skipn j l) in Hs.
    apply (sorted_app_le _ _ h a Hs).
    + apply (nth_error_In _ i). rewrite nth_error_firstn.
      destruct (Nat.ltb_spec i j) as [_ | H]; [exact Hi | lia].
    + now apply nth_error_skipn_In.
Qed.

Lemma filter_all {A : Type} (f : A -> bool) (l : list A) :
  (forall x, In x l -> f x = true) -> filter f l = l.
Proof.
  intros H. apply forallb_filter_id. apply forallb_forall. exact H.
Qed.

(** In a sorted list of positive numbers, the entries before position
    [S j] are positive and do not exceed the mean of the entries [j] and
    [S j]. *)
Lemma filtered_out_prefix (hist : list R) (j : nat) (a b : R) :
  StronglySorted Rle hist ->
  (forall h, In h hist -> (0 < h)%R) ->
  nth_error hist j = Some a -> nth_error hist (S j) = Some b ->
  (S j <= length (filter (filtered_out ((a + b) / 2)) hist))%nat.
Proof.
  intros Hs Hpos Ha Hb.
  assert (Hlt : (S j < length hist)%nat) by (apply nth_error_Some; congruence).
  pose proof (sorted_nth_mono hist j (S j) a b Hs Ha Hb ltac:(lia)) as Hab.
  rewrite <- (firstn_skipn (S j) hist) at 1.
  rewrite filter_app, length_app, filter_all.
  - rewrite length_firstn. lia.
  - intros h Hh. apply In_nth_error in Hh. destruct Hh as [i Hi].
    rewrite nth_error_firstn in Hi.
    destruct (Nat.ltb_spec i (S j)) as [Hij | _]; [| discriminate].
    pose proof (sorted_nth_mono hist i j h a Hs Hi Ha ltac:(lia)) as Hha.
    pose proof (Hpos h (nth_error_In _ _ Hi)) as Hh0.
    unfold filtered_out, Rgtb.
    destruct (Rgt_dec h 0) as [_ | Hn]; [| lra].
    destruct (Rgt_dec h ((a + b) / 2)) as [Hgt | _]; [lra | reflexivity].
Qed.

(** X9. Whenever the adaptive filter of [produce_tads_segmentation] is
    applied, at the position [pos] of [hist_arr] that the float64 index
    denotes, the threshold is the mean of the entries [pos - 1] and [pos] of
    [hist_arr]; every returned segment has a metric above it and is not fully
    noisy; and at least [pos] candidates with a positive metric are not above
    the threshold, so that the filter always costs candidates that the
    constant threshold [0] would keep. *)
Theorem adaptive_filter_effect {G : Type}
        (oracle : method -> matrix -> G -> list bool -> list segment)
        (mtx : matrix) (filters : list stripe) (gamma : G)
        (good_bins : list bool) (m : method) (mis mts : Z) (pos : Z) :
  density_score m ->
  let candidates := size_filter mis mts (oracle m mtx gamma good_bins) in
  let hist_arr := positive_metrics filters m candidates in
  let len := Z.of_nat (length hist_arr) in
  threshold_position
    len (noise_index len (noisy_bins filters) (Z.of_nat (length mtx)))
  = Some pos ->
  exists (a b : R) (segments : list segment),
    nth_error hist_arr (Z.to_nat (pos - 1)) = Some a
    /\ nth_error hist_arr (Z.to_nat pos) = Some b
    /\ produce_tads_segmentation oracle mtx filters gamma (Some good_bins) m
                                 mis mts
       = Some segments
    /\ Forall (fun x => ((a + b) / 2 < calc_noisy_metric x filters m 0 0)%R
                        /\ whether_tad_noisy x filters m 0 0 = false) segments
    /\ 1 <= pos
       <= Z.of_nat (length (filter (fun x => filtered_out
                                               ((a + b) / 2)
                                               (calc_noisy_metric x filters m 0 0))
                                   candidates))
    /\ forall x, In x segments ->
                 filtered_out ((a + b) / 2) (calc_noisy_metric x filters m 0 0)
                 = false.
Proof.
  intros Hm candidates hist_arr len Hpos.
  apply threshold_position_some in Hpos.
  destruct Hpos as [j [a [b [-> [Ha [Hb Ht]]]]]].
  destruct (positive_metrics_sorted filters m candidates) as [Hsorted Hperm].
  fold hist_arr in Hsorted, Hperm.
  exists a, b. eexists.
  replace (Z.to_nat (Z.of_nat (S j) - 1)) with j by lia. rewrite Nat2Z.id.
  split; [exact Ha |]. split; [exact Hb |].
  split.
  { rewrite produce_tads_segmentation_density by exact Hm.
    fold candidates. fold hist_arr. unfold ok in Ht. rewrite Ht. reflexivity. }
  split; [| split].
  - apply Forall_forall. intros x Hx. apply filter_In in Hx.
    destruct Hx as [_ Hx]. unfold Rgtb in Hx.
    destruct (Rgt_dec (calc_noisy_metric x filters m 0 0) ((a + b) / 2))
      as [Hgt | _]; [| discriminate].
    split; [lra |].
    destruct (whether_tad_noisy x filters m 0 0) eqn:Hnoisy; [| reflexivity].
    rewrite (calc_noisy_metric_noisy _ _ _ _ _ Hnoisy) in Hgt.
    assert (Hthr : (0 < (a + b) / 2)%R).
    { eapply noise_threshold_pos; [| exact Ht].
      intros h. apply positive_metrics_pos. }
    lra.
  - split; [lia |].
    pose proof (filtered_out_prefix hist_arr j a b Hsorted
                  (positive_metrics_pos filters m candidates) Ha Hb) as Hcount.
    apply (filter_perm (filtered_out ((a + b) / 2))) in Hperm.
    apply Permutation_length in Hperm.
    rewrite filter_twice, filter_map_swap, length_map in Hperm.
    rewrite Hperm in Hcount.
    rewrite (filter_ext
               (fun x => filtered_out ((a + b) / 2)
                                      (calc_noisy_metric x filters m 0 0))
               (fun x => Rgtb (calc_noisy_metric x filters m 0 0) 0
                         && filtered_out ((a + b) / 2)
                                         (calc_noisy_metric x filters m 0 0))).
    + lia.
    + intros x. unfold filtered_out.
      destruct (Rgtb (calc_noisy_metric x filters m 0 0) 0); reflexivity.
  - intros x Hx. apply filter_In in Hx. destruct Hx as [_ Hx].
    unfold filtered_out. rewrite Hx. apply andb_false_r.
Qed.

Lemma example_threshold_position :
  threshold_position
    (Z.of_nat (length (positive_metrics example_filters Armatus
                 (size_filter 3 1000
                    (example_oracle Armatus example_mtx 1 example_good_bins)))))
    (noise_index
       (Z.of_nat (length (positive_metrics example_filters Armatus
                    (size_filter 3 1000
                       (example_oracle Armatus example_mtx 1 example_good_bins)))))
       (noisy_bins example_filters) (Z.of_nat (length example_mtx)))
  = Some 1.
Proof.
  rewrite example_noise_index.
  rewrite example_candidates, example_positive_metrics. reflexivity.
Qed.

Lemma adaptive_filter_effect_witness :
  let candidates :=
    size_filter 3 1000 (example_oracle Armatus example_mtx 1 example_good_bins) in
  let hist_arr := positive_metrics example_filters Armatus candidates in
  exists (a b : R) (segments : list segment),
    nth_error hist_arr (Z.to_nat (1 - 1)) = Some a
    /\ nth_error hist_arr (Z.to_nat 1) = Some b
    /\ produce_tads_segmentation example_oracle example_mtx example_filters 1
                                 (Some example_good_bins) Armatus 3 1000
       = Some segments
    /\ Forall (fun x =>
                 ((a + b) / 2 < calc_noisy_metric x example_filters Armatus 0 0)%R
                 /\ whether_tad_noisy x example_filters Armatus 0 0 = false)
              segments
    /\ 1 <= 1
       <= Z.of_nat (length (filter (fun x => filtered_out
                                               ((a + b) / 2)
                                               (calc_noisy_metric
                                                  x example_filters Armatus 0 0))
                                   candidates))
    /\ forall x, In x segments ->
                 filtered_out ((a + b) / 2)
                              (calc_noisy_metric x example_filters Armatus 0 0)
                 = false.
Proof.
  intros candidates hist_arr.
  apply (adaptive_filter_effect example_oracle example_mtx example_filters 1
           example_good_bins Armatus 3 1000 1).
  - now left.
  - exact example_threshold_position.
Defined.

(** ** The statistics of [calc_mean_tad_size] *)

Lemma map_combine_fst {A B C : Type} (f : A -> C) (l1 : list A) (l2 : list B) :
  (length l1 <= length l2)%nat ->
  map (fun p => f (fst p)) (combine l1 l2) = map f l1.
Proof.
  revert l2. induction l1 as [| a l1 IH]; intros l2 H; [reflexivity |].
  destruct l2 as [| b l2]; [simpl in H; lia |].
  cbn [combine map fst]. rewrite IH by (simpl in H; lia). reflexivity.
Qed.

Lemma map_combine_snd {A B C : Type} (f : B -> C) (l1 : list A) (l2 : list B) :
  (length l2 <= length l1)%nat ->
  map (fun p => f (snd p)) (combine l1 l2) = map f l2.
Proof.
  revert l2. induction l1 as [| a l1 IH]; intros l2 H.
  - destruct l2; [reflexivity | simpl in H; lia].
  - destruct l2 as [| b l2]; [reflexivity |].
    cbn [combine map snd]. rewrite IH by (simpl in H; lia). reflexivity.
Qed.

Lemma py_get_last {A : Type} (l : list A) (a : A) : py_get (l ++ [a]) (-1) = ok a.
Proof.
  unfold py_get. rewrite length_app. cbn [length Z.ltb Z.compare].
  assert (H1 : (0 <=? -1 + Z.of_nat (length l + 1)) = true)
    by (apply Z.leb_le; lia).
  assert (H2 : (-1 + Z.of_nat (length l + 1) <? Z.of_nat (length l + 1)) = true)
    by (apply Z.ltb_lt; lia).
  assert (H3 : Z.to_nat (-1 + Z.of_nat (length l + 1)) = length l) by lia.
  rewrite H1, H2, H3. cbn [andb].
  rewrite nth_error_app2 by lia. now rewrite Nat.sub_diag.
Qed.

(** The pooled list of a column over all the TADs is the column over all
    the boundaries. *)
Lemma pooled_all_tads (f : boundary -> option Q) (left right : tad -> option Q)
      (resolution : Z) (boundaries : list boundary) :
  (forall l r, left (make_tad resolution l r) = f l) ->
  (forall l r, right (make_tad resolution l r) = f r) ->
  match pooled (all_tads boundaries resolution) left right with
  | inr l => l
  | inl _ => []
  end = pooled_column f boundaries.
Proof.
  intros Hl Hr. unfold pooled, all_tads.
  destruct boundaries as [| b1 [| b2 t]].
  - reflexivity.
  - reflexivity.
  - destruct (exists_last (l := b2 :: t) ltac:(discriminate)) as [t' [z Ht]].
    rewrite Ht. cbn [tl pooled_column].
    change (b1 :: t' ++ [z]) with ((b1 :: t') ++ [z]).
    rewrite removelast_last, !map_map.
    rewrite (map_ext _ (fun p => f (snd p))) by (intros [l r]; apply Hr).
    rewrite (map_ext (fun x => left _) (fun p => f (fst p)))
      by (intros [l r]; apply Hl).
    rewrite map_combine_snd by (rewrite length_app; simpl; lia).
    rewrite map_combine_fst by (rewrite length_app; simpl; lia).
    rewrite map_app. cbn [map]. rewrite py_get_last. cbn [bind ok].
    rewrite (map_app f (b1 :: t') [z]).
    destruct t'; reflexivity.
Qed.

(** X10. The two lists returned by [calc_mean_tad_size] are the insulation
    column and the boundary-strength column of all the boundaries it is
    given (each boundary once, the last one included), and are empty when
    there are fewer than two boundaries. *)
Theorem calc_mean_tad_size_columns (boundaries : list boundary)
        (filters : list stripe) (mis mts resolution : Z) :
  exists mean_tad sum_cov mean_ins mean_bsc,
    calc_mean_tad_size boundaries filters mis mts resolution
    = [ PNum mean_tad; PNum sum_cov; PNum mean_ins; PNum mean_bsc;
        PList (pooled_column b_insulation boundaries);
        PList (pooled_column b_strength boundaries) ].
Proof.
  unfold calc_mean_tad_size. cbv zeta.
  rewrite (pooled_all_tads b_insulation left_insulation right_insulation)
    by reflexivity.
  rewrite (pooled_all_tads b_strength left_boundary_strength
                           right_boundary_strength) by reflexivity.
  repeat eexists.
Qed.

Lemma select_tads_bounds (boundaries : list boundary) (filters : list stripe)
      (mis mts resolution : Z) :
  Forall (fun t => exists len, tad_length t = Some len
                               /\ (inject_Z mis < len)%Q /\ (len < inject_Z mts)%Q)
         (select_tads boundaries filters mis mts resolution).
Proof.
  apply Forall_forall. intros t Ht. unfold select_tads in Ht.
  apply filter_In in Ht. destruct Ht as [Ht _].
  apply filter_In in Ht. destruct Ht as [_ Ht].
  unfold in_size_bounds in Ht.
  destruct (tad_length t) as [len |]; [| discriminate].
  exists len. split; [reflexivity |].
  apply andb_true_iff in Ht. destruct Ht as [H1 H2].
  split; apply Qnot_le_lt; intros Hle; apply Qle_bool_iff in Hle.
  - now rewrite Hle in H1.
  - now rewrite Hle in H2.
Qed.

Lemma count_cons {A : Type} (a : A) (l : list A) :
  (inject_Z (Z.of_nat (length (a :: l))) == inject_Z (Z.of_nat (length l)) + 1)%Q.
Proof.
  cbn [length]. rewrite Nat2Z.inj_succ. unfold Z.succ.
  rewrite inject_Z_plus. reflexivity.
Qed.

(** The sum of lengths that all lie strictly between the bounds lies
    strictly between the bounds times the count. *)
Lemma sum_opt_bounds (lo hi : Q) (rows : list tad) :
  Forall (fun t => exists len, tad_length t = Some len
                               /\ (lo < len)%Q /\ (len < hi)%Q) rows ->
  rows <> [] ->
  exists total,
    sum_opt (map tad_length rows) = Some total
    /\ (lo * inject_Z (Z.of_nat (length rows)) < total)%Q
    /\ (total < hi * inject_Z (Z.of_nat (length rows)))%Q.
Proof.
  intros H. induction H as [| t rows [len [Hlen [Hlo Hhi]]] Hrows IH];
    [congruence | intros _].
  cbn [map sum_opt]. rewrite Hlen.
  pose proof (count_cons t rows) as Hc.
  destruct rows as [| t' rows'].
  - exists (len + 0)%Q. split; [reflexivity |].
    rewrite Hc. change (inject_Z (Z.of_nat (length (@nil tad)))) with 0%Q.
    split; Lqa.lra.
  - destruct (IH ltac:(discriminate)) as [total [Hsum [H1 H2]]].
    rewrite Hsum. exists (len + total)%Q. split; [reflexivity |].
    set (c := inject_Z (Z.of_nat (length (t' :: rows')))) in *.
    rewrite Hc. split; Lqa.lra.
Qed.

(** X11. When no TAD passes the size bounds and the stripe test, the four
    numbers returned by [calc_mean_tad_size] are all [0] (the [nan] of the
    empty means is replaced); otherwise the second number is the sum of the
    retained lengths, the first is that sum divided by their count, and it
    lies strictly between [mis] and [mts]. *)
Theorem calc_mean_tad_size_statistics (boundaries : list boundary)
        (filters : list stripe) (mis mts resolution : Z) :
  let rows := select_tads boundaries filters mis mts resolution in
  match rows with
  | [] =>
      exists ins bsc,
        calc_mean_tad_size boundaries filters mis mts resolution
        = [PNum 0; PNum 0; PNum 0; PNum 0; PList ins; PList bsc]
  | _ :: _ =>
      exists total mean_ins mean_bsc ins bsc,
        sum_opt (map tad_length rows) = Some total
        /\ calc_mean_tad_size boundaries filters mis mts resolution
           = [PNum (total / inject_Z (Z.of_nat (length rows))); PNum total;
              PNum mean_ins; PNum mean_bsc; PList ins; PList bsc]
        /\ (inject_Z mis < total / inject_Z (Z.of_nat (length rows)))%Q
        /\ (total / inject_Z (Z.of_nat (length rows)) < inject_Z mts)%Q
  end.
Proof.
  intros rows. pose proof (select_tads_bounds boundaries filters mis mts resolution)
    as Hb.
  fold rows in Hb. unfold calc_mean_tad_size. cbv zeta. fold rows.
  destruct rows as [| t rows'] eqn:Hrows.
  - cbn. eexists. eexists. reflexivity.
  - destruct (sum_opt_bounds _ _ _ Hb ltac:(discriminate))
      as [total [Hsum [H1 H2]]].
    exists total. do 4 eexists.
    split; [exact Hsum |]. split.
    + cbn [map] in Hsum |- *. unfold np_mean. rewrite Hsum.
      cbn [length nan_to_zero]. rewrite length_map. reflexivity.
    + assert (Hc : (0 < inject_Z (Z.of_nat (length (t :: rows'))))%Q).
      { change (inject_Z 0 < inject_Z (Z.of_nat (length (t :: rows'))))%Q.
        rewrite <- Zlt_Qlt. cbn [length]. lia. }
      split; [apply Qlt_shift_div_l | apply Qlt_shift_div_r]; assumption.
Qed.

(** ** BoundaryNarrower on a grid of consecutive integers *)

(** Linear arithmetic after splitting the boolean conjunctions of the
    context. *)
Ltac bool_lia :=
  repeat match goal with
         | H : (_ && _) = true |- _ => apply andb_true_iff in H; destruct H
         | H : (_ && _) = false |- _ => apply andb_false_iff in H; destruct H
         | H : (_ <=? _) = true |- _ => apply Z.leb_le in H
         | H : (_ <=? _) = false |- _ => apply Z.leb_gt in H
         | H : (_ <? _) = true |- _ => apply Z.ltb_lt in H
         | H : (_ <? _) = false |- _ => apply Z.ltb_ge in H
         end;
  lia.

Lemma np_where_consecutive (b a : Z) (n s i : nat) :
  np_where_from (Z.eqb b) (map (fun j => a + Z.of_nat j) (seq s n)) i
  = if (a + Z.of_nat s <=? b) && (b <? a + Z.of_nat s + Z.of_nat n)
    then [(i + Z.to_nat (b - a - Z.of_nat s))%nat]
    else [].
Proof.
  revert s i. induction n as [| n IH]; intros s i.
  - cbn [seq map np_where_from].
    destruct ((a + Z.of_nat s <=? b) && (b <? a + Z.of_nat s + Z.of_nat 0)) eqn:H;
      [bool_lia | reflexivity].
  - cbn [seq map np_where_from]. rewrite IH.
    destruct (b =? a + Z.of_nat s) eqn:Heq.
    + apply Z.eqb_eq in Heq.
      destruct ((a + Z.of_nat (S s) <=? b)
                && (b <? a + Z.of_nat (S s) + Z.of_nat n)) eqn:H1; [bool_lia |].
      destruct ((a + Z.of_nat s <=? b)
                && (b <? a + Z.of_nat s + Z.of_nat (S n))) eqn:H2; [| bool_lia].
      f_equal. lia.
    + apply Z.eqb_neq in Heq.
      destruct ((a + Z.of_nat (S s) <=? b)
                && (b <? a + Z.of_nat (S s) + Z.of_nat n)) eqn:H1;
        destruct ((a + Z.of_nat s <=? b)
                  && (b <? a + Z.of_nat s + Z.of_nat (S n))) eqn:H2;
        try bool_lia; [| reflexivity].
      f_equal. lia.
Qed.

Lemma grid_index_consecutive (a b : Z) (n : nat) :
  a <= b < a + Z.of_nat n ->
  grid_index (consecutive_grid a n) b = ok (b - a).
Proof.
  intros H. unfold grid_index, np_where, consecutive_grid.
  rewrite np_where_consecutive.
  destruct ((a + Z.of_nat 0 <=? b) && (b <? a + Z.of_nat 0 + Z.of_nat n)) eqn:Hin;
    [| bool_lia].
  f_equal. lia.
Qed.

Lemma consecutive_grid_increasing (a : Z) (n : nat) :
  StronglySorted Z.lt (consecutive_grid a n).
Proof.
  unfold consecutive_grid.
  assert (H : forall s, StronglySorted Z.lt (map (fun i => a + Z.of_nat i) (seq s n))).
  { induction n as [| n IH]; intros s; [constructor |].
    cbn [seq map]. constructor; [apply IH |].
    apply Forall_forall. intros z Hz. apply in_map_iff in Hz.
    destruct Hz as [j [<- Hj]]. apply in_seq in Hj. lia. }
  apply H.
Qed.

Lemma produce_density_some {G : Type}
      (oracle : method -> matrix -> G -> list bool -> list segment)
      (mtx : matrix) (filters : list stripe) (gamma : G)
      (good_bins : option (list bool)) (m : method) (mis mts : Z) :
  density_score m ->
  exists segments,
    produce_tads_segmentation oracle mtx filters gamma good_bins m mis mts
    = Some segments.
Proof.
  intros [-> | ->]; unfold produce_tads_segmentation;
    destruct (noise_threshold _ _ _); eexists; reflexivity.
Qed.

Section ConsecutiveGrid.

Variable optimal_segmentation : method -> matrix -> Z -> list bool -> list segment.
Variable mtx : matrix.
Variable filters : list stripe.
Variable good_bins : option (list bool).
Variable m : method.
Variables mis mts : Z.
Variable round_up : Z -> bool.
Variable a : Z.
Variable n : nat.

Hypothesis method_density : density_score m.

Local Abbreviation grid := (consecutive_grid a n).
Local Abbreviation step :=
  (adjust_step optimal_segmentation mtx filters good_bins m mis mts round_up grid).
Local Abbreviation loop :=
  (adjust_loop optimal_segmentation mtx filters good_bins m mis mts round_up grid).

(** On such a grid no lookup fails: a turn always succeeds and leaves the
    bounds on the grid. *)
Lemma adjust_step_on_grid (st : narrow_state) :
  on_grid a n st -> exists st', step st = ok st' /\ on_grid a n st'.
Proof.
  intros [H1 [H2 H3]]. unfold adjust_step, len_segments_at.
  destruct (produce_density_some optimal_segmentation mtx filters (bound_1 st)
              good_bins m mis mts method_density) as [segments Hseg].
  rewrite Hseg. cbn [bind ok].
  pose proof (round_mid_between round_up (bound_1 st) (bound_1_prev st)) as Hp.
  pose proof (round_mid_between round_up (bound_1 st) (bound_2 st)) as Hq.
  destruct (negb (length segments
                  =? (if is_begin st then length segments
                      else len_segments_prev st))%nat);
    cbn [bound_1 bound_1_prev bound_2 len_segments_prev];
    rewrite !grid_index_consecutive by lia; cbn [bind ok];
    eexists; (split; [reflexivity |]); unfold on_grid; cbn; lia.
Qed.

Lemma adjust_loop_on_grid (fuel : nat) (st : narrow_state)
      (r : result narrow_state) :
  on_grid a n st -> loop fuel st = Some r ->
  exists st', r = ok st' /\ on_grid a n st' /\ delta st' <= 1.
Proof.
  revert st. induction fuel as [| fuel IH]; intros st Hon; cbn [adjust_loop].
  - destruct (delta st >? 1) eqn:Hd; [discriminate |].
    intros H. injection H as <-. exists st.
    rewrite Z.gtb_ltb in Hd. apply Z.ltb_ge in Hd.
      split; [reflexivity | split; [exact Hon | exact Hd]].
  - destruct (delta st >? 1) eqn:Hd.
    + destruct (adjust_step_on_grid st Hon) as [st' [Hstep Hon']].
      rewrite Hstep. apply IH. exact Hon'.
    + intros H. injection H as <-. exists st.
      rewrite Z.gtb_ltb in Hd. apply Z.ltb_ge in Hd.
      split; [reflexivity | split; [exact Hon | exact Hd]].
Qed.

End ConsecutiveGrid.

Lemma consecutive_grid_last (a : Z) (n : nat) :
  consecutive_grid a (S n) = consecutive_grid a n ++ [a + Z.of_nat n].
Proof.
  unfold consecutive_grid. rewrite seq_S, map_app. reflexivity.
Qed.

Lemma py_get_consecutive (a : Z) (n k : nat) :
  (k < n)%nat -> py_get (consecutive_grid a n) (Z.of_nat k) = ok (a + Z.of_nat k).
Proof.
  intros Hk. apply py_get_nat. unfold consecutive_grid.
  rewrite nth_error_map, nth_error_seq.
  destruct (Nat.ltb_spec k n); [reflexivity | lia].
Qed.

Lemma py_get_consecutive_first (a : Z) (n : nat) :
  (0 < n)%nat -> py_get (consecutive_grid a n) 0 = ok a.
Proof.
  intros Hn. change 0 with (Z.of_nat 0). rewrite py_get_consecutive by exact Hn.
  f_equal. cbn. lia.
Qed.

Lemma py_get_consecutive_last (a : Z) (n : nat) :
  (0 < n)%nat -> py_get (consecutive_grid a n) (-1) = ok (a + Z.of_nat n - 1).
Proof.
  intros Hn. destruct n as [| n']; [lia |].
  rewrite consecutive_grid_last, py_get_last. f_equal. lia.
Qed.

Lemma np_arange_consecutive (x : Z) (c : nat) :
  np_arange x (x + Z.of_nat c) 1 = ok (consecutive_grid x c).
Proof.
  unfold np_arange, consecutive_grid. cbn [Z.eqb].
  replace (- (- (x + Z.of_nat c - x) / 1)) with (Z.of_nat c)
    by (rewrite Z.div_1_r; lia).
  rewrite Z.max_r by lia. rewrite Nat2Z.id. f_equal.
  apply map_ext. intros i. lia.
Qed.

Lemma np_where_consecutive_grid (a b : Z) (n : nat) :
  a <= b < a + Z.of_nat n ->
  np_where (Z.eqb b) (consecutive_grid a n) = [Z.to_nat (b - a)].
Proof.
  intros H. unfold np_where, consecutive_grid. rewrite np_where_consecutive.
  destruct ((a + Z.of_nat 0 <=? b) && (b <? a + Z.of_nat 0 + Z.of_nat n)) eqn:Hin;
    [| bool_lia].
  f_equal. lia.
Qed.

Lemma narrow_init_consecutive (a : Z) (n : nat) (ty : side) :
  (0 < n)%nat ->
  narrow_init (consecutive_grid a n) ty
  = ok {| bound_1 := if is_upper ty then a + Z.of_nat n - 1 else a;
          bound_1_prev := if is_upper ty then a + Z.of_nat n - 1 else a;
          bound_2 := if is_upper ty then a else a + Z.of_nat n - 1;
          len_segments_prev := 0;
          is_begin := true;
          delta := Z.of_nat (length (consecutive_grid a n)) |}.
Proof.
  intros Hn. unfold narrow_init.
  rewrite py_get_consecutive_last by exact Hn. cbn [bind ok].
  rewrite py_get_consecutive_first by exact Hn. reflexivity.
Qed.

(** X12. On a grid of consecutive integers, with [start_step = 1] and a
    density-score method, [adjust_boundaries] always returns: no lookup
    fails and the loop ends.  For the upper bound it returns the grid from
    its first value up to the bound found; for the lower bound it returns the
    grid from the bound found up to its last value, or nothing when what
    would be left, less one step, does not exceed [eps]. *)
Theorem adjust_boundaries_consecutive
        (oracle : method -> matrix -> Z -> list bool -> list segment)
        (mtx : matrix) (filters : list stripe) (good_bins : option (list bool))
        (m : method) (mis mts : Z) (round_up : Z -> bool) (a : Z) (n : nat)
        (ty : side) (eps : Q) :
  density_score m -> (0 < n)%nat ->
  exists k,
    (k < n)%nat
    /\ adjust_boundaries oracle mtx filters good_bins m mis mts round_up
                         (consecutive_grid a n)
                         (narrow_fuel (consecutive_grid a n) ty) ty 1 eps
       = Some (ok (match ty with
                   | Upper => Some (consecutive_grid a (S k))
                   | Lower =>
                       if Qle_bool (inject_Z (Z.of_nat n - Z.of_nat k - 2)) eps
                       then None
                       else Some (consecutive_grid (a + Z.of_nat k) (n - k))
                   end)).
Proof.
  intros Hm Hn.
  unfold adjust_boundaries, narrow_fuel.
  rewrite (narrow_init_consecutive a n ty Hn). unfold ok at 1 2.
  set (st0 := {| bound_1 := if is_upper ty then a + Z.of_nat n - 1 else a;
                 bound_1_prev := if is_upper ty then a + Z.of_nat n - 1 else a;
                 bound_2 := if is_upper ty then a else a + Z.of_nat n - 1;
                 len_segments_prev := 0;
                 is_begin := true;
                 delta := Z.of_nat (length (consecutive_grid a n)) |}).
  assert (Hon0 : on_grid a n st0).
  { unfold on_grid, st0. cbn. destruct (is_upper ty); lia. }
  destruct (adjust_loop_terminates oracle mtx filters good_bins m mis mts round_up
              (consecutive_grid a n) (consecutive_grid_increasing a n)
              (Z.to_nat (bracket_width st0 + 1)) st0) as [r Hr].
  { intros Hb. discriminate Hb. }
  { pose proof (bracket_width_nonneg st0). lia. }
  rewrite Hr.
  destruct (adjust_loop_on_grid oracle mtx filters good_bins m mis mts round_up
              a n Hm _ st0 r Hon0 Hr) as [st [-> [[Hb1 _] _]]].
  set (k := Z.to_nat (bound_1 st - a)).
  assert (Hk : (k < n)%nat) by (unfold k; lia).
  assert (Hb1k : bound_1 st = a + Z.of_nat k) by (unfold k; lia).
  exists k. split; [exact Hk |].
  unfold narrowed_grid. unfold ok at 1. cbv beta iota.
  rewrite (np_where_consecutive_grid a (bound_1 st) n) by lia.
  rewrite py_get_head. cbn [bind ok]. fold k.
  rewrite (py_get_consecutive a n k Hk). cbn [bind ok].
  rewrite (py_get_consecutive_first a n Hn). cbn [bind ok].
  rewrite (py_get_consecutive_last a n Hn). cbn [bind ok].
  destruct ty; cbn [is_upper negb].
  - replace (a + Z.of_nat k + 1) with (a + Z.of_nat (S k)) by lia.
    rewrite np_arange_consecutive. cbn [bind ok].
    rewrite py_get_consecutive_last by lia. cbn [bind ok].
    rewrite py_get_consecutive_first by lia. cbn [bind ok].
    rewrite andb_false_r. reflexivity.
  - replace (a + Z.of_nat n - 1 + 1) with (a + Z.of_nat k + Z.of_nat (n - k))
      by lia.
    rewrite np_arange_consecutive. cbn [bind ok].
    rewrite py_get_consecutive_last by lia. cbn [bind ok].
    rewrite py_get_consecutive_first by lia. cbn [bind ok].
    rewrite andb_true_r.
    replace (a + Z.of_nat k + Z.of_nat (n - k) - 1 - (a + Z.of_nat k) - 1)
      with (Z.of_nat n - Z.of_nat k - 2) by lia.
    destruct (Qle_bool (inject_Z (Z.of_nat n - Z.of_nat k - 2)) eps);
      reflexivity.
Qed.

Lemma adjust_boundaries_consecutive_witness :
  exists k,
    (k < 6)%nat
    /\ adjust_boundaries stall_oracle stall_mtx stall_filters
                         (Some stall_good_bins) Armatus 3 1000 round_half_even
                         (consecutive_grid 0 6)
                         (narrow_fuel (consecutive_grid 0 6) Upper) Upper 1
                         (1 # 100)
       = Some (ok (Some (consecutive_grid 0 (S k)))).
Proof.
  apply (adjust_boundaries_consecutive stall_oracle stall_mtx stall_filters
           (Some stall_good_bins) Armatus 3 1000 round_half_even 0 6 Upper
           (1 # 100)).
  - now left.
  - lia.
Defined.

(** ** GlobalOptimumFinder: results and errors *)

Lemma argmin_from_bound {A : Type} (beats : A -> A -> bool) (l : list A)
      (i best_i : nat) (best : A) :
  (best_i < i)%nat -> (argmin_from beats l i best_i best < i + length l)%nat.
Proof.
  revert i best_i best. induction l as [| y t IH]; intros i best_i best Hlt.
  - cbn [argmin_from length]. lia.
  - cbn [argmin_from length]. destruct (beats y best).
    + specialize (IH (S i) i y). lia.
    + specialize (IH (S i) best_i best). lia.
Qed.

Lemma np_argmin_bound {A : Type} (beats : A -> A -> bool) (l : list A) :
  l <> [] -> exists i, np_argmin beats l = ok i /\ (i < length l)%nat.
Proof.
  destruct l as [| y t]; [congruence | intros _].
  exists (argmin_from beats t 1 0 y). split; [reflexivity |].
  pose proof (argmin_from_bound beats t 1 0 y). cbn [length]. lia.
Qed.

Lemma py_get_lt {A : Type} (l : list A) (i : nat) :
  (i < length l)%nat -> exists x, py_get l (Z.of_nat i) = ok x /\ In x l.
Proof.
  intros Hlt. destruct (nth_error l i) as [x |] eqn:Hn.
  - exists x. split; [now apply py_get_nat | eapply nth_error_In; exact Hn].
  - apply nth_error_None in Hn. lia.
Qed.

Lemma dict_set_keys {K V : Type} (eqb : K -> K -> bool) (key : K) (value : V)
      (d : list (K * V)) (k : K) :
  In k (map fst (dict_set eqb key value d)) -> k = key \/ In k (map fst d).
Proof.
  induction d as [| [k0 v0] rest IH]; cbn [dict_set map fst In].
  - intros [H | []]. now left.
  - destruct (eqb k0 key); cbn [map fst In].
    + intros [H | H]; right; [now left | now right].
    + intros [H | H]; [right; now left |].
      destruct (IH H) as [Hk | Hk]; [now left | right; now right].
Qed.

Lemma first_max_In {K : Type} (d : list (K * Z)) (p : K * Z) :
  first_max d p -> In p d.
Proof.
  intros [pre [post [-> _]]]. apply in_or_app. right. now left.
Qed.

Lemma scan_fold_error {G : Type} (G_eqb : G -> G -> bool)
      (oracle : method -> matrix -> G -> list bool -> list segment)
      (mtx : matrix) (filters : list stripe) (good_bins : option (list bool))
      (m : method) (mis mts : Z) (target : float64) (rest : list G) (e : exn) :
  fold_left (scan_step G_eqb oracle mtx filters good_bins m mis mts target)
            rest (inl e) = inl e.
Proof.
  induction rest as [| gamma rest IH]; [reflexivity |]. exact IH.
Qed.

Lemma grid_rows_app {G : Type}
      (oracle : method -> matrix -> G -> list bool -> list segment)
      (mtx : matrix) (filters : list stripe) (good_bins : option (list bool))
      (m : method) (mis mts : Z) (l1 l2 : list G) :
  grid_rows oracle mtx filters good_bins m mis mts (l1 ++ l2)
  = grid_rows oracle mtx filters good_bins m mis mts l1
    ++ grid_rows oracle mtx filters good_bins m mis mts l2.
Proof. unfold grid_rows. apply flat_map_app. Qed.

Section OptimumRows.

Context {G : Type}.
Variable G_eqb : G -> G -> bool.
Variable optimal_segmentation : method -> matrix -> G -> list bool -> list segment.
Variable mtx : matrix.
Variable filters : list stripe.
Variable good_bins : option (list bool).
Variable m : method.
Variables mis mts : Z.
Variable target : float64.
Variable df0 : list (segment * G).

Hypothesis method_density : density_score m.

Local Abbreviation rows :=
  (grid_rows optimal_segmentation mtx filters good_bins m mis mts).
Local Abbreviation step :=
  (scan_step G_eqb optimal_segmentation mtx filters good_bins m mis mts target).

Lemma scan_fold_rows (rest seen : list G) (st : scan_state G) :
  length (mean_tad_sizes st) = length seen ->
  length (covs st) = length seen ->
  incl (map fst (local_optimas st)) seen ->
  In (gamma_prev st) seen ->
  df st = df0 ++ rows seen ->
  exists st',
    fold_left step rest (ok st) = ok st'
    /\ length (mean_tad_sizes st') = length (seen ++ rest)
    /\ length (covs st') = length (seen ++ rest)
    /\ incl (map fst (local_optimas st')) (seen ++ rest)
    /\ df st' = df0 ++ rows (seen ++ rest).
Proof.
  revert seen st. induction rest as [| gamma rest IH]; intros seen st Hm Hc Hk Hp Hd.
  - exists st. rewrite app_nil_r. cbn [fold_left]. tauto.
  - cbn [fold_left]. unfold scan_step at 2. cbn [bind ok].
    rewrite (segments_at_density optimal_segmentation mtx filters good_bins m
               mis mts method_density gamma).
    cbn [bind ok].
    match goal with
    | |- exists st', fold_left _ _ (ok ?s) = _ /\ _ => set (st1 := s)
    end.
    destruct (IH (seen ++ [gamma]) st1) as [st' [Hfold H']].
    + unfold st1. cbn. rewrite !length_app, Hm. reflexivity.
    + unfold st1. cbn. rewrite !length_app, Hc. reflexivity.
    + unfold st1. cbn. intros k Hin.
      assert (Hcases : k = gamma \/ k = gamma_prev st
                       \/ In k (map fst (local_optimas st))).
      { destruct (crossing target _ _); [| tauto].
        destruct (closer target _ _); apply dict_set_keys in Hin; tauto. }
      apply in_or_app.
      destruct Hcases as [-> | [-> | Hin']];
        [right; now left | left; exact Hp | left; now apply Hk].
    + unfold st1. cbn. apply in_or_app. right. now left.
    + unfold st1. cbn. rewrite Hd, grid_rows_app, <- app_assoc. f_equal. f_equal.
      unfold grid_rows. cbn [flat_map]. now rewrite app_nil_r.
    + exists st'. rewrite <- app_assoc in H'. exact (conj Hfold H').
Qed.

Lemma find_global_optima_rows (new_grid : list G) :
  new_grid <> [] ->
  exists opt_gamma,
    find_global_optima G_eqb optimal_segmentation mtx filters good_bins m mis mts
                       target new_grid df0
    = ok (df0 ++ rows new_grid, opt_gamma)
    /\ In opt_gamma new_grid.
Proof.
  intros Hne. destruct new_grid as [| gamma_0 rest]; [congruence |].
  unfold find_global_optima, find_local_optimas.
  rewrite py_get_head. cbn [bind ok tl]. unfold scan_init.
  rewrite (segments_at_density optimal_segmentation mtx filters good_bins m
             mis mts method_density gamma_0).
  cbn [bind ok].
  match goal with
  | |- context [fold_left _ rest (ok ?s)] => set (st0 := s)
  end.
  destruct (scan_fold_rows rest [gamma_0] st0) as [st [Hfold [Hm [Hc [Hk Hd]]]]].
  - reflexivity.
  - reflexivity.
  - intros k [].
  - now left.
  - unfold st0, grid_rows. cbn. now rewrite app_nil_r.
  - cbn [app] in Hm, Hc, Hk, Hd. rewrite Hfold. cbn [bind ok].
    destruct (np_argmin_bound float_beats (map (distance target) (mean_tad_sizes st)))
      as [i [Harg Hi]].
    { destruct (mean_tad_sizes st); [discriminate Hm | discriminate]. }
    rewrite Harg. cbn [bind ok]. rewrite length_map, Hm in Hi.
    destruct (py_get_lt (gamma_0 :: rest) i Hi) as [g [Hg Hgin]].
    rewrite Hg. cbn [bind ok].
    destruct (py_get_lt (covs st) i) as [c [Hcv _]]; [now rewrite Hc |].
    rewrite Hcv. cbn [bind ok].
    destruct (py_max_item_first (dict_set G_eqb g c (local_optimas st))
                (dict_set_nonempty G_eqb g c (local_optimas st)))
      as [best [Hbest Hfirst]].
    rewrite Hbest. cbn [bind ok]. exists (fst best). rewrite Hd.
    split; [reflexivity |].
    apply first_max_In in Hfirst.
    apply (in_map fst) in Hfirst.
    destruct (dict_set_keys _ _ _ _ _ Hfirst) as [-> | Hin];
      [exact Hgin | now apply Hk].
Qed.

End OptimumRows.

(** X13. For a density-score method and a non-empty grid, [find_global_optima]
    always returns, also when segmentations are empty and mean sizes are
    [nan]: the data frame it returns is the one it received followed by the
    segments of every grid parameter, in grid order, each with its parameter;
    and the optimal parameter it returns is a value of the grid. *)
Theorem find_global_optima_returns {G : Type} (G_eqb : G -> G -> bool)
        (oracle : method -> matrix -> G -> list bool -> list segment)
        (mtx : matrix) (filters : list stripe) (good_bins : option (list bool))
        (m : method) (mis mts : Z) (target : float64)
        (new_grid : list G) (df0 : list (segment * G)) :
  density_score m ->
  new_grid <> [] ->
  exists opt_gamma,
    find_global_optima G_eqb oracle mtx filters good_bins m mis mts target
                       new_grid df0
    = ok (df0 ++ grid_rows oracle mtx filters good_bins m mis mts new_grid,
          opt_gamma)
    /\ In opt_gamma new_grid.
Proof.
  intros Hm Hne.
  exact (find_global_optima_rows G_eqb oracle mtx filters good_bins m mis mts
           target df0 Hm new_grid Hne).
Qed.

Lemma find_global_optima_returns_witness :
  exists opt_gamma,
    find_global_optima Z.eqb stall_oracle stall_mtx stall_filters
                       (Some stall_good_bins) Armatus 3 1000 (f64_of_int 25) stall_grid []
    = ok ([] ++ grid_rows stall_oracle stall_mtx stall_filters
                          (Some stall_good_bins) Armatus 3 1000 stall_grid,
          opt_gamma)
    /\ In opt_gamma stall_grid.
Proof.
  apply (find_global_optima_returns Z.eqb stall_oracle stall_mtx stall_filters
           (Some stall_good_bins) Armatus 3 1000 (f64_of_int 25) stall_grid []).
  - now left.
  - discriminate.
Defined.

(** X14. [find_global_optima] fails with an [IndexError] on an empty grid,
    whatever the method; on a non-empty grid with a method that is neither
    ['armatus'] nor ['modularity'] it fails with a [TypeError], the
    segmentation being [None]. *)
Theorem find_global_optima_errors {G : Type} (G_eqb : G -> G -> bool)
        (oracle : method -> matrix -> G -> list bool -> list segment)
        (mtx : matrix) (filters : list stripe) (good_bins : option (list bool))
        (m : method) (mis mts : Z) (target : float64)
        (new_grid : list G) (df0 : list (segment * G)) :
  new_grid = [] \/ ~ density_score m ->
  find_global_optima G_eqb oracle mtx filters good_bins m mis mts target
                     new_grid df0
  = match new_grid with
    | [] => raise IndexError
    | _ :: _ => raise TypeError
    end.
Proof.
  intros [-> | Hm]; [reflexivity |].
  destruct new_grid as [| gamma_0 rest]; [reflexivity |].
  unfold find_global_optima, find_local_optimas.
  rewrite py_get_head. cbn [bind ok tl].
  assert (Hinit : scan_init oracle mtx filters good_bins m mis mts df0 gamma_0
                  = raise TypeError).
  { unfold scan_init, segments_at, produce_tads_segmentation.
    destruct m; try reflexivity; exfalso; apply Hm; [now left | now right]. }
  rewrite Hinit. unfold raise. rewrite scan_fold_error. reflexivity.
Qed.

Lemma find_global_optima_errors_witness :
  find_global_optima Z.eqb stall_oracle stall_mtx stall_filters
                     (Some stall_good_bins) Insulation 3 1000 (f64_of_int 25) stall_grid []
  = raise TypeError.
Proof.
  apply (find_global_optima_errors Z.eqb stall_oracle stall_mtx stall_filters
           (Some stall_good_bins) Insulation 3 1000 (f64_of_int 25) stall_grid []).
  right. intros [H | H]; discriminate H.
Defined.

(** ** GridExpansionCheck: what [whether_to_expand] reports *)

Lemma existsb_negative_consecutive (a : Z) (n : nat) :
  existsb (fun x => x <? 0) (consecutive_grid a (S n)) = (a <? 0).
Proof.
  apply eq_true_iff_eq. rewrite existsb_exists, Z.ltb_lt. split.
  - intros [x [Hin Hx]]. apply Z.ltb_lt in Hx.
    unfold consecutive_grid in Hin. apply in_map_iff in Hin.
    destruct Hin as [j [<- _]]. lia.
  - intros Ha. exists a. split; [| now apply Z.ltb_lt].
    unfold consecutive_grid. cbn [seq map]. left. cbn. lia.
Qed.

Lemma np_where_from_none {A : Type} (p : A -> bool) (l : list A) (i : nat) :
  Forall (fun x => p x = false) l -> np_where_from p l i = [].
Proof.
  intros H. revert i. induction H as [| x l Hx _ IH]; intros i; [reflexivity |].
  cbn [np_where_from]. rewrite Hx. apply IH.
Qed.

Lemma np_argmax_bool_negative (a : Z) (n : nat) :
  a + Z.of_nat n < 0 ->
  np_argmax_bool (map (fun x => 0 <=? x) (consecutive_grid a (S n))) = ok 0%nat.
Proof.
  intros Ha. unfold np_argmax_bool, np_where.
  rewrite np_where_from_none.
  - unfold consecutive_grid. reflexivity.
  - apply Forall_forall. intros b Hb. apply in_map_iff in Hb.
    destruct Hb as [x [<- Hx]]. unfold consecutive_grid in Hx.
    apply in_map_iff in Hx. destruct Hx as [j [<- Hj]]. apply in_seq in Hj.
    apply Z.leb_gt. lia.
Qed.

Lemma lower_check_split (first : Z) :
  0 < first < 10 ->
  np_argmax_bool (map (fun x => 0 <=? x) (consecutive_grid (first - 10) 10))
  = ok (Z.to_nat (10 - first))
  /\ skipn (Z.to_nat (10 - first)) (consecutive_grid (first - 10) 10)
     = consecutive_grid 0 (Z.to_nat first).
Proof.
  intros H.
  assert (Hc : first = 1 \/ first = 2 \/ first = 3 \/ first = 4 \/ first = 5
               \/ first = 6 \/ first = 7 \/ first = 8 \/ first = 9) by lia.
  repeat (destruct Hc as [-> | Hc]; [split; reflexivity |]).
  subst first. split; reflexivity.
Qed.

Lemma distinct_le_length (l : list nat) : (distinct l <= length l)%nat.
Proof.
  unfold distinct. induction l as [| x l IH]; [reflexivity |].
  cbn [nodup length]. destruct (in_dec Nat.eq_dec x l); cbn [length]; lia.
Qed.

Lemma report_lower (len_upper len_lower : list nat) :
  report len_upper len_lower = Some LowerExpandable -> (1 < length len_lower)%nat.
Proof.
  unfold report. destruct (Nat.ltb 1 (distinct len_upper)); [discriminate |].
  destruct (Nat.ltb_spec 1 (distinct len_lower)); [| discriminate].
  intros _. pose proof (distinct_le_length len_lower). lia.
Qed.

Lemma np_arange_above (last : Z) :
  np_arange (last + 1) (last + 1 * 11) 1 = ok (consecutive_grid (last + 1) 10).
Proof.
  rewrite <- (np_arange_consecutive (last + 1) 10). f_equal. lia.
Qed.

Lemma np_arange_below (first : Z) :
  np_arange (first - 1 * 10) first 1 = ok (consecutive_grid (first - 10) 10).
Proof.
  rewrite <- (np_arange_consecutive (first - 10) 10). f_equal; lia.
Qed.

Lemma np_arange_ten (a step : Z) :
  step <> 0 ->
  exists x rest, np_arange a (a + step * 10) step = ok (x :: rest).
Proof.
  intros Hs. unfold np_arange.
  destruct (Z.eqb_spec step 0) as [H0 | _]; [contradiction |].
  replace (- (a + step * 10 - a)) with (- 10 * step) by lia.
  rewrite Z.div_mul by exact Hs.
  eexists. eexists. reflexivity.
Qed.

Section ExpansionFacts.

Variable optimal_segmentation : method -> matrix -> Z -> list bool -> list segment.
Variable mtx : matrix.
Variable filters : list stripe.
Variable good_bins : option (list bool).
Variable m : method.
Variables mis mts : Z.

Local Abbreviation counts :=
  (segment_counts optimal_segmentation mtx filters good_bins m mis mts).
Local Abbreviation append :=
  (append_counts optimal_segmentation mtx filters good_bins m mis mts).
Local Abbreviation expand :=
  (whether_to_expand optimal_segmentation mtx filters good_bins m mis mts).

Lemma append_counts_length (check : list Z) (acc l : list nat) :
  append check acc = ok l -> length l = (length acc + length check)%nat.
Proof.
  revert acc. induction check as [| g rest IH]; intros acc H.
  - cbn [append_counts] in H. injection H as <-. cbn [length]. lia.
  - cbn [append_counts] in H.
    destruct (len_segments_at optimal_segmentation mtx filters good_bins m mis
                              mts g) as [e | c]; [discriminate H |].
    cbn [bind] in H. apply IH in H. rewrite H, length_app. cbn [length]. lia.
Qed.

Lemma len_segments_at_density (gamma : Z) :
  density_score m ->
  len_segments_at optimal_segmentation mtx filters good_bins m mis mts gamma
  = ok (length (segmentation_of optimal_segmentation mtx filters good_bins m
                                mis mts gamma)).
Proof.
  intros Hm. unfold len_segments_at, segmentation_of.
  destruct (produce_density_some optimal_segmentation mtx filters gamma good_bins
              m mis mts Hm) as [s ->].
  reflexivity.
Qed.

Lemma append_counts_density (check : list Z) (acc : list nat) :
  density_score m -> append check acc = ok (acc ++ counts check).
Proof.
  intros Hm. revert acc. induction check as [| g rest IH]; intros acc.
  - cbn [append_counts segment_counts map]. now rewrite app_nil_r.
  - cbn [append_counts]. rewrite (len_segments_at_density g Hm). cbn [bind ok].
    rewrite IH, <- app_assoc. reflexivity.
Qed.

Lemma whether_to_expand_step_fails (grid : list Z) (start_step : Z) :
  start_step <> 1 ->
  expand grid start_step
  = raise (if start_step =? 0
           then match grid with [] => IndexError | _ :: _ => ValueError end
           else IndexError).
Proof.
  intros H1. unfold whether_to_expand.
  destruct grid as [| g0 grid']; [now destruct (start_step =? 0) |].
  destruct (py_get_last_nonempty (g0 :: grid')) as [last [-> _]]; [discriminate |].
  cbn [bind ok].
  destruct (Z.eqb_spec start_step 0) as [-> | H0]; [reflexivity |].
  destruct (np_arange_ten (last + start_step) start_step H0) as [x [rest Hup]].
  replace (last + start_step * 11) with (last + start_step + start_step * 10)
    by lia.
  rewrite Hup. cbn [bind ok]. rewrite py_get_head. cbn [bind ok].
  destruct (np_arange_ten (g0 - start_step * 10) start_step H0) as [y [rest' Hlo]].
  replace (g0 - start_step * 10 + start_step * 10) with g0 in Hlo by lia.
  rewrite Hlo. cbn [bind ok].
  destruct (Z.eqb_spec start_step 1) as [H | _]; [contradiction | reflexivity].
Qed.

Lemma whether_to_expand_unit (grid : list Z) (first last : Z) :
  density_score m ->
  py_get grid 0 = ok first ->
  py_get grid (-1) = ok last ->
  expand grid 1
  = ok (if last + 1 <? 0 then Some UpperBoundNegative
        else if 10 <=? first
             then report (counts (consecutive_grid (last + 1) 10
                                  ++ consecutive_grid (first - 10) 10)) []
             else if first <? 0 then Some LowerBoundNegative
                  else report (counts (consecutive_grid (last + 1) 10))
                              (counts (consecutive_grid 0 (Z.to_nat first)))).
Proof.
  intros Hm Hfirst Hlast. unfold whether_to_expand.
  rewrite Hlast. cbn [bind ok]. rewrite np_arange_above. cbn [bind ok].
  rewrite Hfirst. cbn [bind ok]. rewrite np_arange_below. cbn [bind ok].
  change (1 =? 1) with true. cbv beta iota. cbn [bind ok].
  rewrite !existsb_negative_consecutive.
  destruct (last + 1 <? 0); [reflexivity |].
  rewrite (append_counts_density _ _ Hm). cbn [bind ok app].
  destruct (Z.ltb_spec (first - 10) 0) as [Hlt | Hge]; cbn [negb].
  - destruct (Z.leb_spec 10 first) as [Hle | _]; [lia |].
    destruct (Z.ltb_spec first 0) as [Hneg | Hnn].
    + rewrite np_argmax_bool_negative by lia. cbn [bind ok Nat.eqb].
      change (Z.of_nat 0) with 0.
      rewrite (py_get_consecutive_first (first - 10) 10) by lia. cbn [bind ok].
      destruct (Z.ltb_spec (first - 10) 0) as [_ | H]; [| lia].
      destruct (Z.eqb_spec first 0) as [H | _]; [lia | reflexivity].
    + destruct (Z.eq_dec first 0) as [-> | Hpos].
      * rewrite (np_argmax_bool_negative (0 - 10) 9) by lia. cbn [bind ok Nat.eqb].
        change (Z.of_nat 0) with 0.
        rewrite (py_get_consecutive_first (0 - 10) 10) by lia. reflexivity.
      * destruct (lower_check_split first) as [Harg Hskip]; [lia |].
        rewrite Harg. cbn [bind ok].
        destruct (Nat.eqb_spec (Z.to_nat (10 - first)) 0) as [H | _]; [lia |].
        cbn [bind ok].
        destruct (Z.eqb_spec first 0) as [H | _]; [lia |].
        rewrite Hskip, (append_counts_density _ _ Hm). reflexivity.
  - destruct (Z.leb_spec 10 first) as [_ | Hl]; [| lia].
    rewrite (append_counts_density _ _ Hm). cbn [bind ok].
    unfold segment_counts. rewrite map_app. reflexivity.
Qed.

Lemma whether_to_expand_lower (grid : list Z) :
  expand grid 1 = ok (Some LowerExpandable) ->
  exists first, py_get grid 0 = ok first /\ 1 < first < 10.
Proof.
  intros H.
  unfold whether_to_expand in H.
  destruct (py_get grid (-1)) as [e | last]; [discriminate H |].
  cbn [bind ok] in H. rewrite np_arange_above in H. cbn [bind ok] in H.
  destruct (py_get grid 0) as [e | first]; [discriminate H |].
  cbn [bind ok] in H. rewrite np_arange_below in H. cbn [bind ok] in H.
  change (1 =? 1) with true in H. cbv beta iota in H. cbn [bind ok] in H.
  rewrite !existsb_negative_consecutive in H.
  destruct (last + 1 <? 0); [discriminate H |].
  destruct (append (consecutive_grid (last + 1) 10) []) as [e | cu];
    [discriminate H |].
  cbn [bind ok] in H.
  exists first. split; [reflexivity |].
  destruct (Z.ltb_spec (first - 10) 0) as [Hlt | Hge]; cbn [negb] in H.
  - destruct (Z.ltb_spec first 0) as [Hneg | Hnn].
    + rewrite np_argmax_bool_negative in H by lia. cbn [bind ok Nat.eqb] in H.
      change (Z.of_nat 0) with 0 in H.
      rewrite (py_get_consecutive_first (first - 10) 10) in H by lia.
      cbn [bind ok] in H.
      destruct (Z.ltb_spec (first - 10) 0) as [_ | H']; [| lia].
      destruct (Z.eqb_spec first 0) as [H' | _]; [lia | discriminate H].
    + destruct (Z.eq_dec first 0) as [-> | Hpos].
      * rewrite (np_argmax_bool_negative (0 - 10) 9) in H by lia.
        cbn [bind ok Nat.eqb] in H. change (Z.of_nat 0) with 0 in H.
        rewrite (py_get_consecutive_first (0 - 10) 10) in H by lia.
        cbn in H. injection H as H. apply report_lower in H. cbn in H. lia.
      * destruct (lower_check_split first) as [Harg Hskip]; [lia |].
        rewrite Harg in H. cbn [bind ok] in H.
        destruct (Nat.eqb_spec (Z.to_nat (10 - first)) 0) as [H' | _]; [lia |].
        cbn [bind ok] in H.
        destruct (Z.eqb_spec first 0) as [H' | _]; [lia |].
        rewrite Hskip in H.
        destruct (append (consecutive_grid 0 (Z.to_nat first)) []) as [e | cl] eqn:Hcl;
          [discriminate H |].
        cbn [bind ok] in H. injection H as H. apply report_lower in H.
        apply append_counts_length in Hcl. rewrite Hcl in H.
        unfold consecutive_grid in H. rewrite length_map, length_seq in H.
        cbn [length] in H. lia.
  - destruct (append (consecutive_grid (first - 10) 10) cu) as [e | cu'];
      [discriminate H |].
    cbn [bind ok] in H. injection H as H. apply report_lower in H.
    cbn in H. lia.
Qed.

End ExpansionFacts.

Lemma stall_segment_counts (gammas : list Z) :
  segment_counts stall_oracle stall_mtx stall_filters (Some stall_good_bins)
                 Armatus 3 1000 gammas
  = map (fun gamma => if gamma <=? 2 then 1%nat else 2%nat) gammas.
Proof.
  unfold segment_counts. apply map_ext. intros gamma.
  pose proof (len_segments_at_density stall_oracle stall_mtx stall_filters
                (Some stall_good_bins) Armatus 3 1000 gamma (or_introl eq_refl))
    as H.
  rewrite stall_len_segments in H. injection H as H. now rewrite <- H.
Qed.

Lemma stall_lower_expandable :
  whether_to_expand stall_oracle stall_mtx stall_filters (Some stall_good_bins)
                    Armatus 3 1000 [4; 5; 6] 1
  = ok (Some LowerExpandable).
Proof.
  rewrite (whether_to_expand_unit stall_oracle stall_mtx stall_filters
             (Some stall_good_bins) Armatus 3 1000 [4; 5; 6] 4 6
             (or_introl eq_refl) eq_refl eq_refl).
  rewrite !stall_segment_counts. reflexivity.
Qed.

(** X15. With [start_step = 1] and a density-score method, on a grid from
    [first] to [last], [whether_to_expand] reports: a negative upper bound
    when [last + 1 < 0]; else, when the ten parameters below the grid are
    all non-negative ([10 <= first]), that the upper bound could be expanded
    as soon as the segment counts of the ten parameters above and the ten
    below the grid are not all equal, and nothing otherwise, the counts below
    the grid being added to the list of the upper ones; else a negative lower
    bound when [first < 0]; else the comparison of the counts of the ten
    parameters above the grid and then of those of [0 .. first - 1]. *)
Theorem whether_to_expand_unit_step
        (oracle : method -> matrix -> Z -> list bool -> list segment)
        (mtx : matrix) (filters : list stripe) (good_bins : option (list bool))
        (m : method) (mis mts : Z) (grid : list Z) (first last : Z) :
  density_score m ->
  py_get grid 0 = ok first ->
  py_get grid (-1) = ok last ->
  whether_to_expand oracle mtx filters good_bins m mis mts grid 1
  = ok (if last + 1 <? 0 then Some UpperBoundNegative
        else if 10 <=? first
             then report (segment_counts oracle mtx filters good_bins m mis mts
                            (consecutive_grid (last + 1) 10
                             ++ consecutive_grid (first - 10) 10)) []
             else if first <? 0 then Some LowerBoundNegative
                  else report (segment_counts oracle mtx filters good_bins m mis
                                 mts (consecutive_grid (last + 1) 10))
                              (segment_counts oracle mtx filters good_bins m mis
                                 mts (consecutive_grid 0 (Z.to_nat first)))).
Proof.
  intros Hm Hfirst Hlast.
  exact (whether_to_expand_unit oracle mtx filters good_bins m mis mts grid
           first last Hm Hfirst Hlast).
Qed.

Lemma whether_to_expand_unit_step_witness :
  whether_to_expand stall_oracle stall_mtx stall_filters (Some stall_good_bins)
                    Armatus 3 1000 [12; 13] 1
  = ok (report (segment_counts stall_oracle stall_mtx stall_filters
                  (Some stall_good_bins) Armatus 3 1000
                  (consecutive_grid 14 10 ++ consecutive_grid 2 10)) []).
Proof.
  apply (whether_to_expand_unit_step stall_oracle stall_mtx stall_filters
           (Some stall_good_bins) Armatus 3 1000 [12; 13] 12 13).
  - now left.
  - reflexivity.
  - reflexivity.
Defined.

(** X16. On an integer grid with [start_step = 1], whatever the method,
    [whether_to_expand] logs that the lower bound could be expanded only
    when the grid starts at a parameter from 2 to 9: when all ten parameters
    below the grid are non-negative, their counts are compared with the upper
    ones and this message never comes. *)
Theorem lower_expandable_near_zero
        (oracle : method -> matrix -> Z -> list bool -> list segment)
        (mtx : matrix) (filters : list stripe) (good_bins : option (list bool))
        (m : method) (mis mts : Z) (grid : list Z) :
  whether_to_expand oracle mtx filters good_bins m mis mts grid 1
  = ok (Some LowerExpandable) ->
  exists first, py_get grid 0 = ok first /\ 1 < first < 10.
Proof.
  exact (whether_to_expand_lower oracle mtx filters good_bins m mis mts grid).
Qed.

Lemma lower_expandable_near_zero_witness :
  exists first, py_get [4; 5; 6] 0 = ok first /\ 1 < first < 10.
Proof.
  apply (lower_expandable_near_zero stall_oracle stall_mtx stall_filters
           (Some stall_good_bins) Armatus 3 1000 [4; 5; 6]).
  exact stall_lower_expandable.
Defined.

(** X17. With an integer [start_step] other than [0] and [1],
    [whether_to_expand] fails with an [IndexError], whatever the grid and the
    method: on an empty grid at [grid[-1]], else at
    [str(start_step).split('.')[1]]. *)
Theorem whether_to_expand_integer_step
        (oracle : method -> matrix -> Z -> list bool -> list segment)
        (mtx : matrix) (filters : list stripe) (good_bins : option (list bool))
        (m : method) (mis mts : Z) (grid : list Z) (start_step : Z) :
  start_step <> 0 ->
  start_step <> 1 ->
  whether_to_expand oracle mtx filters good_bins m mis mts grid start_step
  = raise IndexError.
Proof.
  intros H0 H1.
  rewrite (whether_to_expand_step_fails oracle mtx filters good_bins m mis mts
             grid start_step H1).
  destruct (Z.eqb_spec start_step 0) as [H | _]; [contradiction | reflexivity].
Qed.

Lemma whether_to_expand_integer_step_witness :
  whether_to_expand stall_oracle stall_mtx stall_filters (Some stall_good_bins)
                    Armatus 3 1000 stall_grid 2
  = raise IndexError.
Proof.
  apply (whether_to_expand_integer_step stall_oracle stall_mtx stall_filters
           (Some stall_good_bins) Armatus 3 1000 stall_grid 2); lia.
Defined.
